(** * gatt-cts-server: a shallow embedding and its verified properties

    The program is a BlueZ GATT server exposing the Bluetooth Current Time
    Service over D-Bus.  This development embeds the object tree
    (Application, Service, Characteristic, Descriptor), the property
    exposition calls, the read/notify methods of the two concrete
    characteristics with their binary encodings, and the start-up sequence
    of [Server], and proves properties of them.

    Conventions.  Python integers are [Z]; a byte is a [Z] in [0, 255];
    text is [string]; a [dict] keyed by strings is a [gmap string _];
    IEEE binary64 numbers are [spec_float] with precision 53 and exponent
    bound 1024; a method that can raise, log or mutate is a function in the
    state-and-exception monad [M]. *)

From Stdlib Require Import ZArith List Bool Lia Ascii.
From Stdlib Require Import Floats.SpecFloat.
From stdpp Require Import base gmap strings list pretty.

Local Open Scope string_scope.
Local Open Scope list_scope.
Local Open Scope Z_scope.

(** ** Exceptions *)

(** The five D-Bus error classes declared by the program, followed by the
    built-in Python exceptions that the modelled code can raise and by the
    two errors with which the D-Bus binding itself answers a call that
    names no exported object or no method of the object. *)
Inductive exn : Type :=
  | InvalidArgsException
  | NotSupportedException
  | NotPermittedException
  | InvalidValueLengthException
  | FailedException
  | KeyError (key : string)
  | AttributeError (attr : string)
  | OverflowError
  | ValueError
  | ZeroDivisionError
  | UnknownObject
  | UnknownMethod.

(** [_dbus_error_name] of the declared classes; built-in exceptions have
    none. *)
Definition _dbus_error_name (e : exn) : option string :=
  match e with
  | InvalidArgsException => Some "org.freedesktop.DBus.Error.InvalidArgs"
  | NotSupportedException => Some "org.bluez.Error.NotSupported"
  | NotPermittedException => Some "org.bluez.Error.NotPermitted"
  | InvalidValueLengthException => Some "org.bluez.Error.InvalidValueLength"
  | FailedException => Some "org.bluez.Error.Failed"
  | _ => None
  end.

Definition declared_error (e : exn) : bool :=
  match _dbus_error_name e with Some _ => true | None => false end.

Inductive result (A : Type) : Type :=
  | Ok (a : A)
  | Raise (e : exn).
Arguments Ok {A} a.
Arguments Raise {A} e.

(** ** State-and-exception monad

    A computation runs on a state [S]; when it raises, the state reached so
    far is kept, as in Python. *)
Definition M (S A : Type) : Type := S -> result A * S.

Definition ret {S A} (a : A) : M S A := fun s => (Ok a, s).

Definition raise {S A} (e : exn) : M S A := fun s => (Raise e, s).

Definition bind {S A B} (m : M S A) (k : A -> M S B) : M S B :=
  fun s =>
    match m s with
    | (Ok a, s') => k a s'
    | (Raise e, s') => (Raise e, s')
    end.

Definition get {S} : M S S := fun s => (Ok s, s).

Definition modify {S} (f : S -> S) : M S unit := fun s => (Ok tt, f s).

Definition lift_result {S A} (r : result A) : M S A := fun s => (r, s).

Declare Scope py_scope.
Delimit Scope py_scope with py.
Notation "'let*' x ':=' m 'in' k" := (bind m (fun x => k))
  (at level 10, x name, m at level 100, k at level 200) : py_scope.
Notation "m ';;;' k" := (bind m (fun _ => k))
  (at level 100, k at level 200, right associativity) : py_scope.
Local Open Scope py_scope.

(** ** Python built-ins used by the program *)

(** [str(i)] for an integer. *)
Definition str (i : Z) : string := pretty i.

(** Little-endian digits in base 256. *)
Fixpoint le_bytes (length : nat) (n : Z) : list Z :=
  match length with
  | O => []
  | S k => n mod 256 :: le_bytes k (n / 256)
  end.

(** [n.to_bytes(length, 'little', signed=signed)]: the value must fit,
    otherwise [OverflowError]; a signed value is stored in two's
    complement. *)
Definition to_bytes (n : Z) (length : nat) (signed : bool) : result (list Z) :=
  let bits := 8 * Z.of_nat length in
  if signed then
    if (- 2 ^ (bits - 1) <=? n) && (n <? 2 ^ (bits - 1))
    then Ok (le_bytes length (n mod 2 ^ bits))
    else Raise OverflowError
  else
    if (0 <=? n) && (n <? 2 ^ bits)
    then Ok (le_bytes length n)
    else Raise OverflowError.

(** Subscript [l[i]] with a non-negative literal index. *)
Definition subscript (l : list Z) (i : nat) : result Z :=
  match l !! i with
  | Some b => Ok b
  | None => Raise (KeyError "index")
  end.

(** [dbus.Byte(x)] for an integer [x]: accepted only in [0, 255]. *)
Definition Byte (x : Z) : result Z :=
  if (0 <=? x) && (x <=? 255) then Ok x else Raise ValueError.

(** ** IEEE binary64 arithmetic, as Python's [float] *)
Module Float.

Definition prec : Z := 53.
Definition emax : Z := 1024.

Definition is_finite (f : spec_float) : bool :=
  match f with
  | S754_zero _ | S754_finite _ _ _ => true
  | _ => false
  end.

(** Conversion of an integer operand (round to nearest even); a value
    beyond the range of the format raises [OverflowError]. *)
Definition of_int (z : Z) : result spec_float :=
  let f := binary_normalize prec emax z 0 false in
  if is_finite f then Ok f else Raise OverflowError.

Definition mul : spec_float -> spec_float -> spec_float := SFmul prec emax.

(** [x / y] on floats; a zero divisor raises. *)
Definition truediv (x y : spec_float) : result spec_float :=
  match y with
  | S754_zero _ => Raise ZeroDivisionError
  | _ => Ok (SFdiv prec emax x y)
  end.

(** [int(f)]: truncation toward zero. *)
Definition to_int (f : spec_float) : result Z :=
  match f with
  | S754_zero _ => Ok 0
  | S754_finite s m e =>
      let a := if 0 <=? e then Z.pos m * 2 ^ e else Z.pos m / 2 ^ (- e) in
      Ok (if s then - a else a)
  | S754_infinity _ => Raise OverflowError
  | S754_nan => Raise ValueError
  end.

(** The literal [1e-6]: the binary64 number nearest to one millionth,
    0x1.0c6f7a0b5ed8dp-20. *)
Definition lit_1e_6 : spec_float :=
  S754_finite false 4722366482869645 (-72).

(** The integer literal [256] as a float operand. *)
Definition lit_256 : spec_float := S754_finite false 4503599627370496 (-44).

End Float.

(** ** [datetime] *)
Module datetime.

Record t : Type := mk {
  year : Z;
  month : Z;
  day : Z;
  hour : Z;
  minute : Z;
  second : Z;
  microsecond : Z
}.

Definition _is_leap (y : Z) : bool :=
  (y mod 4 =? 0) && (negb (y mod 100 =? 0) || (y mod 400 =? 0)).

Definition _days_before_year (y : Z) : Z :=
  let y := y - 1 in
  y * 365 + y / 4 - y / 100 + y / 400.

Definition _DAYS_IN_MONTH : list Z :=
  [31; 28; 31; 30; 31; 30; 31; 31; 30; 31; 30; 31].

Definition _days_in_month (y m : Z) : Z :=
  if (m =? 2) && _is_leap y then 29
  else nth (Z.to_nat (m - 1)) _DAYS_IN_MONTH 0.

(** Days in the year before the first day of month [m]. *)
Definition _days_before_month (y m : Z) : Z :=
  fold_right Z.add 0 (firstn (Z.to_nat (m - 1)) _DAYS_IN_MONTH)
  + (if (2 <? m) && _is_leap y then 1 else 0).

Definition _ymd2ord (y m d : Z) : Z :=
  _days_before_year y + _days_before_month y m + d.

Definition toordinal (dt : t) : Z := _ymd2ord (year dt) (month dt) (day dt).

(** Monday is 1, Sunday is 7. *)
Definition isoweekday (dt : t) : Z :=
  let r := toordinal dt mod 7 in
  if r =? 0 then 7 else r.

(** The values a [datetime] object can hold. *)
Definition valid (dt : t) : Prop :=
  1 <= year dt <= 9999 /\
  1 <= month dt <= 12 /\
  1 <= day dt <= _days_in_month (year dt) (month dt) /\
  0 <= hour dt <= 23 /\
  0 <= minute dt <= 59 /\
  0 <= second dt <= 59 /\
  0 <= microsecond dt <= 999999.

End datetime.

(** ** [timedelta]

    A duration is an exact count of microseconds; the constructor rejects
    magnitudes beyond 999999999 days.  Dividing two durations is the true
    division of their microsecond counts, which CPython performs as a
    binary64 division when both counts are below 2^53. *)
Module timedelta.

Definition t : Type := Z.

Definition in_range (us : Z) : bool :=
  (-999999999 <=? us / 86400000000) && (us / 86400000000 <=? 999999999).

Definition of_us (us : Z) : result t :=
  if in_range us then Ok us else Raise OverflowError.

Definition seconds (s : Z) : result t := of_us (s * 1000000).
Definition minutes (m : Z) : result t := of_us (m * 60000000).

Definition sub (a b : t) : result t := of_us (a - b).

Definition truediv (a b : t) : result spec_float :=
  match Float.of_int a, Float.of_int b with
  | Ok x, Ok y => Float.truediv x y
  | Raise e, _ => Raise e
  | _, Raise e => Raise e
  end.

End timedelta.

(** ** Values, logging and the process environment *)

(** Values carried by D-Bus variants and interpolated into log messages. *)
Inductive py_value : Type :=
  | VNone
  | VBool (b : bool)
  | VInt (z : Z)
  | VStr (s : string)
  | VObjectPath (p : string)
  | VStrList (l : list string)
  | VPathArray (l : list string)
  | VByteArray (l : list Z)
  | VDatetime (dt : datetime.t)
  | VTimedelta (us : Z).

Inductive level : Type := DEBUG | INFO | WARNING | ERROR.

(** One call on a logger.  A formatted message is kept as its literal text
    together with the values of its replacement fields, in order. *)
Record log_record : Type := LogRecord {
  lr_logger : string;
  lr_level : level;
  lr_text : string;
  lr_fields : list py_value
}.

(** A [PropertiesChanged] emission: emitting object, interface, changed
    properties, invalidated names. *)
Record signal : Type := Signal {
  sig_path : string;
  sig_interface : string;
  sig_changed : gmap string py_value;
  sig_invalidated : list string
}.

(** What the host provides and the program only reads: the local wall
    clock, the zone rules that [tzset] loads (base offset and offset of the
    DST variant, both in seconds west of UTC, equal when the zone defines no
    DST variant), whether DST is in effect at the current instant, and the
    objects that the BlueZ object manager enumerates, each with the names
    of its interfaces.  The interpreter takes the two offsets from the
    zone's offsets in January and in July and stores the larger one as
    [timezone], so on a running host [zone_altzone] never exceeds
    [zone_timezone]. *)
Record Platform : Type := {
  clock : datetime.t;
  zone_timezone : Z;
  zone_altzone : Z;
  zone_isdst : bool;
  bus_objects : list (string * list string)
}.

(** The state of the process outside the object tree: the attributes
    [timezone] and [altzone] of the [time] module, the logger calls made,
    the signals emitted, the GLib timeouts armed (interval in milliseconds,
    path of the object whose [notify_time] is the callback), the
    [RegisterApplication] calls sent, and how often the main loop was run
    and asked to quit. *)
Record World : Type := {
  platform : Platform;
  time_timezone : Z;
  time_altzone : Z;
  log : list log_record;
  signals : list signal;
  timeouts : list (Z * string);
  registrations : list string;
  mainloop_runs : nat;
  mainloop_quits : nat
}.

Definition set_time (tz alt : Z) (w : World) : World :=
  {| platform := platform w; time_timezone := tz; time_altzone := alt;
     log := log w; signals := signals w; timeouts := timeouts w;
     registrations := registrations w; mainloop_runs := mainloop_runs w;
     mainloop_quits := mainloop_quits w |}.

Definition add_log (r : log_record) (w : World) : World :=
  {| platform := platform w; time_timezone := time_timezone w;
     time_altzone := time_altzone w;
     log := log w ++ [r]; signals := signals w; timeouts := timeouts w;
     registrations := registrations w; mainloop_runs := mainloop_runs w;
     mainloop_quits := mainloop_quits w |}.

Definition add_signal (s : signal) (w : World) : World :=
  {| platform := platform w; time_timezone := time_timezone w;
     time_altzone := time_altzone w;
     log := log w; signals := signals w ++ [s]; timeouts := timeouts w;
     registrations := registrations w; mainloop_runs := mainloop_runs w;
     mainloop_quits := mainloop_quits w |}.

Definition add_timeout (t : Z * string) (w : World) : World :=
  {| platform := platform w; time_timezone := time_timezone w;
     time_altzone := time_altzone w;
     log := log w; signals := signals w; timeouts := timeouts w ++ [t];
     registrations := registrations w; mainloop_runs := mainloop_runs w;
     mainloop_quits := mainloop_quits w |}.

Definition add_registration (p : string) (w : World) : World :=
  {| platform := platform w; time_timezone := time_timezone w;
     time_altzone := time_altzone w;
     log := log w; signals := signals w; timeouts := timeouts w;
     registrations := registrations w ++ [p];
     mainloop_runs := mainloop_runs w; mainloop_quits := mainloop_quits w |}.

Definition enter_mainloop (w : World) : World :=
  {| platform := platform w; time_timezone := time_timezone w;
     time_altzone := time_altzone w;
     log := log w; signals := signals w; timeouts := timeouts w;
     registrations := registrations w;
     mainloop_runs := S (mainloop_runs w); mainloop_quits := mainloop_quits w |}.

Definition quit_mainloop (w : World) : World :=
  {| platform := platform w; time_timezone := time_timezone w;
     time_altzone := time_altzone w;
     log := log w; signals := signals w; timeouts := timeouts w;
     registrations := registrations w;
     mainloop_runs := mainloop_runs w; mainloop_quits := S (mainloop_quits w) |}.

(** The [time] module. *)
Module time.

(** [time.tzset()]: reload the zone rules into the module attributes. *)
Definition tzset : M World unit :=
  modify (fun w =>
    set_time (zone_timezone (platform w)) (zone_altzone (platform w)) w).

Definition timezone : M World Z := fun w => (Ok (time_timezone w), w).
Definition altzone : M World Z := fun w => (Ok (time_altzone w), w).

End time.

(** [datetime.datetime.now()]. *)
Definition datetime_now : M World datetime.t :=
  fun w => (Ok (clock (platform w)), w).

(** [logging.<level>(...)] on the logger called [name]. *)
Definition logging (name : string) (lv : level) (text : string)
    (fields : list py_value) : M World unit :=
  modify (add_log (LogRecord name lv text fields)).

(** A method runs on its object and the world.  *)
Definition method (Self A : Type) : Type := M (Self * World) A.

Definition get_self {Self} : method Self Self := fun s => (Ok (fst s), s).

Definition set_self {Self} (o : Self) : method Self unit :=
  modify (fun s => (o, snd s)).

Definition in_world {Self A} (m : M World A) : method Self A :=
  fun s => let (r, w) := m (snd s) in (r, (fst s, w)).

(** ** Interface names *)

Definition BLUEZ_SERVICE_NAME : string := "org.bluez".
Definition GATT_MANAGER_IFACE : string := "org.bluez.GattManager1".
Definition DBUS_OM_IFACE : string := "org.freedesktop.DBus.ObjectManager".
Definition DBUS_PROP_IFACE : string := "org.freedesktop.DBus.Properties".

Definition GATT_SERVICE_IFACE : string := "org.bluez.GattService1".
Definition GATT_CHRC_IFACE : string := "org.bluez.GattCharacteristic1".
Definition GATT_DESC_IFACE : string := "org.bluez.GattDescriptor1".

(** A property mapping, and the mapping from interface name to it. *)
Abbreviation props := (gmap string py_value).
Abbreviation ifaces := (gmap string (gmap string py_value)).

(** [d[k]] on a dictionary. *)
Definition getitem {V} (d : gmap string V) (k : string) : result V :=
  match d !! k with
  | Some v => Ok v
  | None => Raise (KeyError k)
  end.

(** ** The object tree

    A child keeps a reference to its parent and reads only the parent's
    path through it; the path of an object is assigned in [__init__] and by
    nothing else, so the reference is represented by that path.
    [dbus.ObjectPath] and [dbus.Array] wrap a value without changing it. *)

(** The classes of characteristic objects. *)
Inductive chrc_class : Type :=
  | Characteristic_class
  | CurrentTimeCharacteristic_class
  | LocalTimeInformationCharacteristic_class.

(** [cls.__name__]. *)
Definition __name__ (c : chrc_class) : string :=
  match c with
  | Characteristic_class => "Characteristic"
  | CurrentTimeCharacteristic_class => "CurrentTimeCharacteristic"
  | LocalTimeInformationCharacteristic_class =>
      "LocalTimeInformationCharacteristic"
  end.

Module Descriptor.

Record t : Type := mk {
  path : string;
  uuid : string;
  flags : list string;
  chrc : string;
  logger : string
}.

Definition __init__ (index : Z) (uuid : string) (flags : list string)
    (characteristic_path : string) : t :=
  {| path := characteristic_path +:+ "/desc" +:+ str index;
     uuid := uuid;
     flags := flags;
     chrc := characteristic_path;
     logger := "Descriptor" |}.

Definition get_path (self : t) : string := path self.

Definition get_properties (self : t) : ifaces :=
  {[ GATT_DESC_IFACE :=
       <["Characteristic" := VObjectPath (chrc self)]>
       (<["UUID" := VStr (uuid self)]>
       (<["Flags" := VStrList (flags self)]> ∅)) ]}.

Definition GetAll (interface : string) : method t props :=
  let* self := get_self in
  if negb (String.eqb interface GATT_DESC_IFACE) then
    raise InvalidArgsException
  else
    lift_result (getitem (get_properties self) GATT_DESC_IFACE).

Definition ReadValue (options : props) : method t (list Z) :=
  let* self := get_self in
  in_world (logging (logger self) ERROR
              "Default ReadValue called, returning error" []) ;;;
  raise NotSupportedException.

Definition WriteValue (value : list Z) (options : props) : method t unit :=
  let* self := get_self in
  in_world (logging (logger self) ERROR
              "Default WriteValue called, returning error" []) ;;;
  raise NotSupportedException.

End Descriptor.

Module Characteristic.

(** [notifying] is an attribute that only
    [CurrentTimeCharacteristic.__init__] creates; [None] is its absence. *)
Record t : Type := mk {
  cls : chrc_class;
  path : string;
  uuid : string;
  service : string;
  flags : list string;
  descriptors : list Descriptor.t;
  logger : string;
  notifying : option bool
}.

(** [Characteristic.__init__] run on a new object of class [cls]. *)
Definition __init__ (cls : chrc_class) (index : Z) (uuid : string)
    (flags : list string) (service_path : string) : t :=
  {| cls := cls;
     path := service_path +:+ "/char" +:+ str index;
     uuid := uuid;
     service := service_path;
     flags := flags;
     descriptors := [];
     logger := __name__ cls;
     notifying := None |}.

Definition set_notifying (b : bool) (self : t) : t :=
  {| cls := cls self; path := path self; uuid := uuid self;
     service := service self; flags := flags self;
     descriptors := descriptors self; logger := logger self;
     notifying := Some b |}.

Definition get_path (self : t) : string := path self.

Definition add_descriptor (descriptor : Descriptor.t) (self : t) : t :=
  {| cls := cls self; path := path self; uuid := uuid self;
     service := service self; flags := flags self;
     descriptors := descriptors self ++ [descriptor];
     logger := logger self; notifying := notifying self |}.

Definition get_descriptor_paths (self : t) : list string :=
  foldl (fun result desc => result ++ [Descriptor.get_path desc])
        [] (descriptors self).

Definition get_descriptors (self : t) : list Descriptor.t :=
  descriptors self.

Definition get_properties (self : t) : ifaces :=
  {[ GATT_CHRC_IFACE :=
       <["Service" := VObjectPath (service self)]>
       (<["UUID" := VStr (uuid self)]>
       (<["Flags" := VStrList (flags self)]>
       (<["Descriptors" := VPathArray (get_descriptor_paths self)]> ∅))) ]}.

Definition GetAll (interface : string) : method t props :=
  let* self := get_self in
  if negb (String.eqb interface GATT_CHRC_IFACE) then
    raise InvalidArgsException
  else
    lift_result (getitem (get_properties self) GATT_CHRC_IFACE).

Definition ReadValue (options : props) : method t (list Z) :=
  let* self := get_self in
  in_world (logging (logger self) ERROR
              "Default ReadValue called, returning error" []) ;;;
  raise NotSupportedException.

Definition WriteValue (value : list Z) (options : props) : method t unit :=
  let* self := get_self in
  in_world (logging (logger self) ERROR
              "Default WriteValue called, returning error" []) ;;;
  raise NotSupportedException.

Definition StartNotify : method t unit :=
  let* self := get_self in
  in_world (logging (logger self) ERROR
              "Default StartNotify called, returning error" []) ;;;
  raise NotSupportedException.

Definition StopNotify : method t unit :=
  let* self := get_self in
  in_world (logging (logger self) ERROR
              "Default StopNotify called, returning error" []) ;;;
  raise NotSupportedException.

(** The signal [PropertiesChanged], emitted from the object's path. *)
Definition PropertiesChanged (interface : string) (changed : props)
    (invalidated : list string) : method t unit :=
  let* self := get_self in
  in_world (modify (add_signal
    (Signal (path self) interface changed invalidated))).

End Characteristic.

Module Service.

Definition PATH_BASE : string := "/org/bluez/example/service".

Record t : Type := mk {
  path : string;
  uuid : string;
  primary : bool;
  characteristics : list Characteristic.t
}.

Definition __init__ (index : Z) (uuid : string) (primary : bool) : t :=
  {| path := PATH_BASE +:+ str index;
     uuid := uuid;
     primary := primary;
     characteristics := [] |}.

Definition get_path (self : t) : string := path self.

Definition add_characteristic (characteristic : Characteristic.t)
    (self : t) : t :=
  {| path := path self; uuid := uuid self; primary := primary self;
     characteristics := characteristics self ++ [characteristic] |}.

Definition get_characteristic_paths (self : t) : list string :=
  foldl (fun result chrc => result ++ [Characteristic.get_path chrc])
        [] (characteristics self).

Definition get_characteristics (self : t) : list Characteristic.t :=
  characteristics self.

Definition get_properties (self : t) : ifaces :=
  {[ GATT_SERVICE_IFACE :=
       <["UUID" := VStr (uuid self)]>
       (<["Primary" := VBool (primary self)]>
       (<["Characteristics" :=
            VPathArray (get_characteristic_paths self)]> ∅)) ]}.

Definition GetAll (interface : string) : method t props :=
  let* self := get_self in
  if negb (String.eqb interface GATT_SERVICE_IFACE) then
    raise InvalidArgsException
  else
    lift_result (getitem (get_properties self) GATT_SERVICE_IFACE).

End Service.

(** ** [GLib.timeout_add]

    The interval is an unsigned 32-bit count of milliseconds: the binding
    refuses any other integer with [OverflowError], and then nothing is
    armed.  The source id that a successful call returns is not used by the
    program. *)
Module GLib.

Definition G_MAXUINT : Z := 4294967295.

Definition timeout_add (interval : Z) (callback : string) : M World unit :=
  if (0 <=? interval) && (interval <=? G_MAXUINT)
  then modify (add_timeout (interval, callback))
  else raise OverflowError.

End GLib.

(** ** The Current Time characteristic *)
Module CurrentTimeCharacteristic.

Import Characteristic.

Definition CURRENT_TIME_UUID : string := "2a2B".

(** Keyword arguments: a present key holds [None] or an integer.  Only
    [KeyError] is suppressed: an interval that [GLib.timeout_add] refuses
    ends the constructor with that error. *)
Definition __init__ (index : Z) (service_path : string)
    (kwargs : gmap string (option Z)) : M World Characteristic.t :=
  let self :=
    Characteristic.__init__ CurrentTimeCharacteristic_class index
      CURRENT_TIME_UUID ["read"; "notify"] service_path in
  let self := set_notifying false self in
  (* with suppress(KeyError) *)
  match kwargs !! "notify_period" with
  | Some (Some notify_period) =>
      GLib.timeout_add (notify_period * 1000) (path self) ;;;
      ret self
  | Some None => ret self
  | None => ret self
  end.

(** [self.notifying]. *)
Definition get_notifying : method t bool :=
  let* self := get_self in
  match notifying self with
  | Some b => ret b
  | None => raise (AttributeError "notifying")
  end.

(** [int((microsecond * 1e-6) * 256)]. *)
Definition fraction_256 (microsecond : Z) : result Z :=
  match Float.of_int microsecond, Float.of_int 256 with
  | Ok us, Ok c256 =>
      Float.to_int (Float.mul (Float.mul us Float.lit_1e_6) c256)
  | Raise e, _ => Raise e
  | _, Raise e => Raise e
  end.

(** [value.append(dbus.Byte(x))]. *)
Definition append_Byte {S} (value : list Z) (x : Z) : M S (list Z) :=
  let* b := lift_result (Byte x) in
  ret (value ++ [b]).

(** [[dbus.Byte(b) for b in l]]. *)
Fixpoint Bytes {S} (l : list Z) : M S (list Z) :=
  match l with
  | [] => ret []
  | b :: l' =>
      let* b' := lift_result (Byte b) in
      let* r := Bytes l' in
      ret (b' :: r)
  end.

Definition current_time_bytes : method t (list Z) :=
  let* self := get_self in
  in_world time.tzset ;;;
  let* dt := in_world datetime_now in
  let* year := lift_result (to_bytes (datetime.year dt) 2 false) in
  let* value := Bytes year in
  let* value := append_Byte value (datetime.month dt) in
  let* value := append_Byte value (datetime.day dt) in
  let* value := append_Byte value (datetime.hour dt) in
  let* value := append_Byte value (datetime.minute dt) in
  let* value := append_Byte value (datetime.second dt) in
  let* value := append_Byte value (datetime.isoweekday dt) in
  let* frac := lift_result (fraction_256 (datetime.microsecond dt)) in
  let* value := append_Byte value frac in
  let* value := append_Byte value 1 in
  in_world (logging (logger self) DEBUG "CT: {}" [VDatetime dt]) ;;;
  ret value.

Definition notify_current_time : method t unit :=
  let* notifying := get_notifying in
  if negb notifying then ret tt
  else
    let* value := current_time_bytes in
    PropertiesChanged GATT_CHRC_IFACE
      {[ "Value" := VByteArray value ]} [].

(** The timeout callback; [true] keeps the timeout armed. *)
Definition notify_time : method t bool :=
  let* notifying := get_notifying in
  if negb notifying then ret true
  else
    let* self := get_self in
    in_world (logging (logger self) INFO
                "Notifying current local time" []) ;;;
    notify_current_time ;;;
    ret true.

Definition ReadValue (options : props) : method t (list Z) :=
  let* value := current_time_bytes in
  let* self := get_self in
  let* device := lift_result (getitem options "device") in
  in_world (logging (logger self) INFO
              "Supplying time to {}" [device]) ;;;
  ret value.

Definition StartNotify : method t unit :=
  let* notifying := get_notifying in
  if notifying then
    let* self := get_self in
    in_world (logging (logger self) WARNING
                "Already notifying, nothing to do" [])
  else
    let* self := get_self in
    set_self (set_notifying true self).

Definition StopNotify : method t unit :=
  let* notifying := get_notifying in
  if negb notifying then
    let* self := get_self in
    in_world (logging (logger self) WARNING
                "Not notifying, nothing to do" [])
  else
    let* self := get_self in
    set_self (set_notifying false self).

End CurrentTimeCharacteristic.

(** ** The Local Time Information characteristic *)
Module LocalTimeInformationCharacteristic.

Import Characteristic.

Definition LOCAL_TIME_INFORMATION_UUID : string := "2a0f".

Definition __init__ (index : Z) (service_path : string)
    (kwargs : gmap string (option Z)) : Characteristic.t :=
  Characteristic.__init__ LocalTimeInformationCharacteristic_class index
    LOCAL_TIME_INFORMATION_UUID ["read"] service_path.

Definition local_time_information_bytes : method t (list Z) :=
  let* self := get_self in
  in_world time.tzset ;;;
  let* timezone := in_world time.timezone in
  let* time_zone_offset := lift_result (timedelta.seconds (- timezone)) in
  let* altzone := in_world time.altzone in
  let* alt_offset := lift_result (timedelta.seconds (- altzone)) in
  let* dst_offset :=
    lift_result (timedelta.sub alt_offset time_zone_offset) in
  let* quarter := lift_result (timedelta.minutes 15) in
  let* q := lift_result (timedelta.truediv time_zone_offset quarter) in
  let* time_zone_offset_15min := lift_result (Float.to_int q) in
  let* quarter := lift_result (timedelta.minutes 15) in
  let* q := lift_result (timedelta.truediv dst_offset quarter) in
  let* dst_offset_15_min := lift_result (Float.to_int q) in
  in_world (logging (logger self) DEBUG
              "LTI: TZ offset = {} ({:+d}); DST offset = {} ({:+d})"
              [VTimedelta time_zone_offset; VInt time_zone_offset_15min;
               VTimedelta dst_offset; VInt dst_offset_15_min]) ;;;
  let* raw := lift_result (to_bytes time_zone_offset_15min 1 true) in
  let* raw0 := lift_result (subscript raw 0) in
  let* b1 := lift_result (Byte raw0) in
  let* b2 := lift_result (Byte dst_offset_15_min) in
  ret [b1; b2].

Definition ReadValue (options : props) : method t (list Z) :=
  let* value := local_time_information_bytes in
  let* self := get_self in
  let* device := lift_result (getitem options "device") in
  in_world (logging (logger self) INFO
              "Supplying local time information to {}" [device]) ;;;
  ret value.

End LocalTimeInformationCharacteristic.

(** ** The Current Time service and the application root *)
Module CurrentTimeService.

Definition CURRENT_TIME_UUID : string := "1805".

Definition __init__ (index : Z) (kwargs : gmap string (option Z))
    : M World Service.t :=
  let self := Service.__init__ index CURRENT_TIME_UUID true in
  let* c0 := CurrentTimeCharacteristic.__init__ 0 (Service.path self)
               kwargs in
  let self := Service.add_characteristic c0 self in
  let c1 := LocalTimeInformationCharacteristic.__init__ 1
              (Service.path self) kwargs in
  let self := Service.add_characteristic c1 self in
  ret self.

End CurrentTimeService.

Module Application.

Record t : Type := mk {
  path : string;
  services : list Service.t
}.

Definition get_path (self : t) : string := path self.

Definition add_service (service : Service.t) (self : t) : t :=
  {| path := path self; services := services self ++ [service] |}.

Definition __init__ (kwargs : gmap string (option Z)) : M World t :=
  let self := {| path := "/"; services := [] |} in
  let* service := CurrentTimeService.__init__ 0 kwargs in
  ret (add_service service self).

(** The three nested loops, each assignment [response[p] = ...] an
    insertion into the dictionary built so far. *)
Definition GetManagedObjects (self : t) : gmap string ifaces :=
  foldl (fun response service =>
    let response :=
      <[Service.get_path service := Service.get_properties service]>
        response in
    foldl (fun response chrc =>
      let response :=
        <[Characteristic.get_path chrc :=
            Characteristic.get_properties chrc]> response in
      foldl (fun response desc =>
        <[Descriptor.get_path desc := Descriptor.get_properties desc]>
          response)
        response (Characteristic.get_descriptors chrc))
      response (Service.get_characteristics service))
    ∅ (services self).

End Application.

(** ** Method resolution on characteristics *)

Inductive method_name : Type :=
  | ReadValue_name
  | WriteValue_name
  | StartNotify_name
  | StopNotify_name.

(** A call with its arguments, and what a call returns. *)
Inductive call : Type :=
  | ReadValue_call (options : props)
  | WriteValue_call (value : list Z) (options : props)
  | StartNotify_call
  | StopNotify_call.

Inductive retval : Type :=
  | Ret_bytes (value : list Z)
  | Ret_none.

Definition name_of (c : call) : method_name :=
  match c with
  | ReadValue_call _ => ReadValue_name
  | WriteValue_call _ _ => WriteValue_name
  | StartNotify_call => StartNotify_name
  | StopNotify_call => StopNotify_name
  end.

(** The methods that the body of each class statement defines. *)
Definition defines (c : chrc_class) (m : method_name) : bool :=
  match c, m with
  | Characteristic_class, _ => true
  | CurrentTimeCharacteristic_class, ReadValue_name => true
  | CurrentTimeCharacteristic_class, StartNotify_name => true
  | CurrentTimeCharacteristic_class, StopNotify_name => true
  | CurrentTimeCharacteristic_class, WriteValue_name => false
  | LocalTimeInformationCharacteristic_class, ReadValue_name => true
  | LocalTimeInformationCharacteristic_class, _ => false
  end.

(** The base class named in the class statement, among the modelled
    classes. *)
Definition base (c : chrc_class) : option chrc_class :=
  match c with
  | Characteristic_class => None
  | CurrentTimeCharacteristic_class => Some Characteristic_class
  | LocalTimeInformationCharacteristic_class => Some Characteristic_class
  end.

(** A concrete class overrides a method when its own body defines it. *)
Definition overrides (c : chrc_class) (m : method_name) : bool :=
  match base c with
  | Some _ => defines c m
  | None => false
  end.

(** The class whose definition a call on an instance of [c] reaches. *)
Definition resolve (c : chrc_class) (m : method_name) : option chrc_class :=
  if defines c m then Some c
  else match base c with
       | Some b => if defines b m then Some b else None
       | None => None
       end.

(** The body of method [name_of c] as defined in class [d]. *)
Definition body (d : chrc_class) (c : call)
    : method Characteristic.t retval :=
  match d, c with
  | Characteristic_class, ReadValue_call options =>
      let* v := Characteristic.ReadValue options in ret (Ret_bytes v)
  | Characteristic_class, WriteValue_call value options =>
      Characteristic.WriteValue value options ;;; ret Ret_none
  | Characteristic_class, StartNotify_call =>
      Characteristic.StartNotify ;;; ret Ret_none
  | Characteristic_class, StopNotify_call =>
      Characteristic.StopNotify ;;; ret Ret_none
  | CurrentTimeCharacteristic_class, ReadValue_call options =>
      let* v := CurrentTimeCharacteristic.ReadValue options in
      ret (Ret_bytes v)
  | CurrentTimeCharacteristic_class, StartNotify_call =>
      CurrentTimeCharacteristic.StartNotify ;;; ret Ret_none
  | CurrentTimeCharacteristic_class, StopNotify_call =>
      CurrentTimeCharacteristic.StopNotify ;;; ret Ret_none
  | LocalTimeInformationCharacteristic_class, ReadValue_call options =>
      let* v := LocalTimeInformationCharacteristic.ReadValue options in
      ret (Ret_bytes v)
  | _, _ => raise UnknownMethod
  end.

(** A call on a characteristic object. *)
Definition invoke (c : call) : method Characteristic.t retval :=
  let* self := get_self in
  match resolve (Characteristic.cls self) (name_of c) with
  | Some d => body d c
  | None => raise UnknownMethod
  end.

(** A call on a descriptor object: the class defines two of the four
    methods and the interface has no others. *)
Definition invoke_descriptor (c : call) : method Descriptor.t retval :=
  match c with
  | ReadValue_call options =>
      let* v := Descriptor.ReadValue options in ret (Ret_bytes v)
  | WriteValue_call value options =>
      Descriptor.WriteValue value options ;;; ret Ret_none
  | _ => raise UnknownMethod
  end.

(** ** Start-up *)
Module Server.

(** The attribute [mainloop] exists once [__init__] has assigned it. *)
Record t : Type := mk {
  mainloop : option unit
}.

(** The first enumerated object that has the GATT manager interface. *)
Definition find_adapter : M World (option string) :=
  let* w := get in
  ret (fst <$> List.find
         (fun o => existsb (String.eqb GATT_MANAGER_IFACE) (snd o))
         (bus_objects (platform w))).

(** [not adapter]: true for [None] and for an empty path. *)
Definition not_ (adapter : option string) : bool :=
  match adapter with
  | None => true
  | Some o => String.eqb o ""
  end.

(** [__init__] returns the server object and the application that was
    exported, if the constructor got that far. *)
Definition __init__ (notify_period : option Z)
    : M World (t * option Application.t) :=
  let self := {| mainloop := None |} in
  let* adapter := find_adapter in
  if not_ adapter then
    logging "root" ERROR "GattManager1 interface not found" [] ;;;
    ret (self, None)
  else
    let* app := Application.__init__ {[ "notify_period" := notify_period ]} in
    let self := {| mainloop := Some tt |} in
    logging "root" INFO "Registering GATT application..." [] ;;;
    modify (add_registration (Application.get_path app)) ;;;
    ret (self, Some app).

Definition run (self : t) : M World unit :=
  match mainloop self with
  | Some _ => modify enter_mainloop
  | None => raise (AttributeError "mainloop")
  end.

Definition register_app_cb : M World unit :=
  logging "root" INFO "GATT application registered" [].

(** [error] stands for [str(error)], the text of the error received. *)
Definition register_app_error_cb (self : t) (error : string)
    : M World unit :=
  logging "root" ERROR ("Failed to register application: " +:+ error) [] ;;;
  match mainloop self with
  | Some _ => modify quit_mainloop
  | None => raise (AttributeError "mainloop")
  end.

End Server.

(** The script body: [Server(args.notify_period).run()].  An exception
    that reaches this level is uncaught: the interpreter prints the
    traceback and the process ends with a failure status. *)
Definition main (notify_period : option Z) : M World unit :=
  let* s := Server.__init__ notify_period in
  Server.run (fst s).

(** ** Requests dispatched by the main loop

    The binding routes a call to the object exported at the target path.
    The process state is the application tree and the world. *)

Inductive request : Type :=
  | GetManagedObjects_req
  | GetAll_req (target interface : string)
  | Method_req (target : string) (c : call)
  | Timeout_req (target : string).

Inductive reply : Type :=
  | Reply_objects (objects : gmap string ifaces)
  | Reply_props (p : props)
  | Reply_ret (r : retval)
  | Reply_keep (armed : bool).

(** Position of the first object with a given path. *)
Fixpoint index_where {A} (f : A -> bool) (l : list A) : option nat :=
  match l with
  | [] => None
  | x :: l' => if f x then Some O else S <$> index_where f l'
  end.

Definition find_service (app : Application.t) (p : string)
    : option Service.t :=
  List.find (fun s => String.eqb (Service.path s) p) (Application.services app).

(** Service index and characteristic index of the characteristic at [p]. *)
Fixpoint find_chrc_in (ss : list Service.t) (p : string) (i : nat)
    : option (nat * nat) :=
  match ss with
  | [] => None
  | s :: ss' =>
      match index_where (fun c => String.eqb (Characteristic.path c) p)
              (Service.characteristics s) with
      | Some j => Some (i, j)
      | None => find_chrc_in ss' p (S i)
      end
  end.

Definition find_chrc (app : Application.t) (p : string) : option (nat * nat) :=
  find_chrc_in (Application.services app) p O.

Definition get_chrc (app : Application.t) (ij : nat * nat)
    : option Characteristic.t :=
  match Application.services app !! fst ij with
  | Some s => Service.characteristics s !! snd ij
  | None => None
  end.

(** The tree with the characteristic at position [ij] replaced by its new
    state. *)
Definition put_chrc (app : Application.t) (ij : nat * nat)
    (c : Characteristic.t) : Application.t :=
  match Application.services app !! fst ij with
  | Some s =>
      {| Application.path := Application.path app;
         Application.services :=
           <[fst ij :=
               {| Service.path := Service.path s;
                  Service.uuid := Service.uuid s;
                  Service.primary := Service.primary s;
                  Service.characteristics :=
                    <[snd ij := c]> (Service.characteristics s) |}]>
             (Application.services app) |}
  | None => app
  end.

Definition all_descriptors (app : Application.t) : list Descriptor.t :=
  s ← Application.services app;
  c ← Service.characteristics s;
  Characteristic.descriptors c.

Definition find_desc (app : Application.t) (p : string)
    : option Descriptor.t :=
  List.find (fun d => String.eqb (Descriptor.path d) p) (all_descriptors app).

(** Run a method of the characteristic at [ij] and store the object back. *)
Definition on_chrc {A} (ij : nat * nat) (m : method Characteristic.t A)
    : M (Application.t * World) A :=
  fun st =>
    match get_chrc (fst st) ij with
    | Some c =>
        let '(r, (c', w')) := m (c, snd st) in
        (r, (put_chrc (fst st) ij c', w'))
    | None => (Raise UnknownObject, st)
    end.

(** Run a method of an object that the method cannot change. *)
Definition on_const {O A} (o : O) (m : method O A)
    : M (Application.t * World) A :=
  fun st => let '(r, (_, w')) := m (o, snd st) in (r, (fst st, w')).

Definition handle (r : request) : M (Application.t * World) reply :=
  let* st := get in
  let app := fst st in
  match r with
  | GetManagedObjects_req =>
      ret (Reply_objects (Application.GetManagedObjects app))
  | GetAll_req target interface =>
      match find_service app target, find_chrc app target,
            find_desc app target with
      | Some s, _, _ =>
          let* p := on_const s (Service.GetAll interface) in
          ret (Reply_props p)
      | None, Some ij, _ =>
          let* p := on_chrc ij (Characteristic.GetAll interface) in
          ret (Reply_props p)
      | None, None, Some d =>
          let* p := on_const d (Descriptor.GetAll interface) in
          ret (Reply_props p)
      | None, None, None => raise UnknownObject
      end
  | Method_req target c =>
      match find_chrc app target, find_desc app target with
      | Some ij, _ =>
          let* v := on_chrc ij (invoke c) in ret (Reply_ret v)
      | None, Some d =>
          let* v := on_const d (invoke_descriptor c) in ret (Reply_ret v)
      | None, None => raise UnknownObject
      end
  | Timeout_req target =>
      match find_chrc app target with
      | Some ij =>
          let* b := on_chrc ij CurrentTimeCharacteristic.notify_time in
          ret (Reply_keep b)
      | None => raise UnknownObject
      end
  end.

(** A run of the main loop over a sequence of requests; a failed request
    is answered with its error and the loop goes on. *)
Fixpoint serve (rs : list request) (st : Application.t * World)
    : list (result reply) * (Application.t * World) :=
  match rs with
  | [] => ([], st)
  | r :: rs' =>
      let '(x, st') := handle r st in
      let '(xs, st'') := serve rs' st' in
      (x :: xs, st'')
  end.

(** ** Reference inputs

    The state of a process that has just started on a given host, and the
    hosts and objects at which the theorems below are instantiated. *)

Definition boot (p : Platform) : World :=
  {| platform := p;
     time_timezone := zone_timezone p;
     time_altzone := zone_altzone p;
     log := []; signals := []; timeouts := []; registrations := [];
     mainloop_runs := 0; mainloop_quits := 0 |}.

(** 2024-03-15T14:30:45.500000, a Friday. *)
Definition friday_afternoon : datetime.t :=
  datetime.mk 2024 3 15 14 30 45 500000.

Definition bluez_objects : list (string * list string) :=
  [("/org/bluez", ["org.bluez.AgentManager1"; "org.bluez.ProfileManager1"]);
   ("/org/bluez/hci0",
    ["org.bluez.Adapter1"; "org.bluez.GattManager1";
     "org.bluez.LEAdvertisingManager1"])].

(** A host at UTC+2:00 whose zone defines no DST variant. *)
Definition host_plain : Platform :=
  {| clock := friday_afternoon; zone_timezone := -7200;
     zone_altzone := -7200; zone_isdst := false;
     bus_objects := bluez_objects |}.

(** A host at UTC+2:00 whose zone has a DST variant of +1h, in winter
    (DST not in effect) and in summer (DST in effect). *)
Definition host_winter : Platform :=
  {| clock := friday_afternoon; zone_timezone := -7200;
     zone_altzone := -10800; zone_isdst := false;
     bus_objects := bluez_objects |}.

Definition host_summer : Platform :=
  {| clock := datetime.mk 2024 7 15 14 30 45 500000; zone_timezone := -7200;
     zone_altzone := -10800; zone_isdst := true;
     bus_objects := bluez_objects |}.

(** A host on which BlueZ exports no GATT manager. *)
Definition host_no_manager : Platform :=
  {| clock := friday_afternoon; zone_timezone := -7200;
     zone_altzone := -10800; zone_isdst := false;
     bus_objects :=
       [("/org/bluez", ["org.bluez.AgentManager1"; "org.bluez.ProfileManager1"])] |}.

(** The two characteristics as [CurrentTimeService.__init__] builds them. *)
Definition current_time_chrc : Characteristic.t :=
  Characteristic.set_notifying false
    (Characteristic.__init__ CurrentTimeCharacteristic_class 0
       CurrentTimeCharacteristic.CURRENT_TIME_UUID ["read"; "notify"]
       "/org/bluez/example/service0").

Definition local_time_chrc : Characteristic.t :=
  LocalTimeInformationCharacteristic.__init__ 1
    "/org/bluez/example/service0" ∅.

Definition peer_options : props :=
  {[ "device" := VObjectPath "/org/bluez/hci0/dev_00_11_22_33_44_55" ]}.

(** ** The Local Time Information payload as the specification words it

    Byte 2 is "the total current offset minus the base UTC offset": the
    total current offset is the offset of the DST variant while DST is in
    effect and the base offset otherwise. *)

Definition spec_total_current_offset (p : Platform) : Z :=
  if zone_isdst p then - zone_altzone p else - zone_timezone p.

Definition spec_local_time_information (p : Platform) : list Z :=
  [Z.quot (- zone_timezone p) 900 mod 256;
   Z.quot (spec_total_current_offset p - - zone_timezone p) 900].

(** ** The Current Time payload as the specification words it *)

Definition spec_current_time (dt : datetime.t) : list Z :=
  [datetime.year dt mod 256;
   datetime.year dt / 256 mod 256;
   datetime.month dt;
   datetime.day dt;
   datetime.hour dt;
   datetime.minute dt;
   datetime.second dt;
   datetime.isoweekday dt;
   datetime.microsecond dt * 256 / 1000000;
   1].

(** The service and the application root as the constructors build them. *)
Definition current_time_service : Service.t :=
  Service.add_characteristic local_time_chrc
    (Service.add_characteristic current_time_chrc
       (Service.__init__ 0 CurrentTimeService.CURRENT_TIME_UUID true)).

Definition application : Application.t :=
  Application.add_service current_time_service
    {| Application.path := "/"; Application.services := [] |}.

(** ** Paths and entries of a tree, in traversal order

    The object paths of all services, characteristics and descriptors, and
    the pairs of a path with the properties of the node at that path. *)

Definition chrc_paths (c : Characteristic.t) : list string :=
  Characteristic.path c :: (Descriptor.path <$> Characteristic.descriptors c).

Definition service_paths (s : Service.t) : list string :=
  Service.path s :: (c ← Service.characteristics s; chrc_paths c).

Definition node_paths (app : Application.t) : list string :=
  s ← Application.services app; service_paths s.

Definition all_paths (app : Application.t) : list string :=
  Application.path app :: node_paths app.

Definition chrc_entries (c : Characteristic.t) : list (string * ifaces) :=
  (Characteristic.path c, Characteristic.get_properties c)
  :: ((fun d => (Descriptor.path d, Descriptor.get_properties d))
      <$> Characteristic.descriptors c).

Definition service_entries (s : Service.t) : list (string * ifaces) :=
  (Service.path s, Service.get_properties s)
  :: (c ← Service.characteristics s; chrc_entries c).

Definition node_entries (app : Application.t) : list (string * ifaces) :=
  s ← Application.services app; service_entries s.

(** Two states of one characteristic object: every attribute other than
    [notifying] is the same. *)
Definition same_static (c c' : Characteristic.t) : Prop :=
  Characteristic.cls c' = Characteristic.cls c
  /\ Characteristic.path c' = Characteristic.path c
  /\ Characteristic.uuid c' = Characteristic.uuid c
  /\ Characteristic.service c' = Characteristic.service c
  /\ Characteristic.flags c' = Characteristic.flags c
  /\ Characteristic.descriptors c' = Characteristic.descriptors c
  /\ Characteristic.logger c' = Characteristic.logger c.

(** ** Trees built by the constructors

    A tree in which every path has the form its constructor gives it and in
    which no two children of one parent were given the same path, that is,
    the same index. *)

Fixpoint has_slash (s : string) : bool :=
  match s with
  | EmptyString => false
  | String a s' => Ascii.eqb a "/"%char || has_slash s'
  end.

Definition descriptor_built (c : Characteristic.t) (d : Descriptor.t) : Prop :=
  exists k : Z, Descriptor.path d = Characteristic.path c +:+ "/desc" +:+ str k.

Definition characteristic_built (s : Service.t) (c : Characteristic.t) : Prop :=
  (exists j : Z, Characteristic.path c = Service.path s +:+ "/char" +:+ str j)
  /\ NoDup (Descriptor.path <$> Characteristic.descriptors c)
  /\ Forall (descriptor_built c) (Characteristic.descriptors c).

Definition service_built (s : Service.t) : Prop :=
  (exists i : Z, Service.path s = Service.PATH_BASE +:+ str i)
  /\ NoDup (Characteristic.path <$> Service.characteristics s)
  /\ Forall (characteristic_built s) (Service.characteristics s).

Definition built (app : Application.t) : Prop :=
  Application.path app = "/"
  /\ NoDup (Service.path <$> Application.services app)
  /\ Forall service_built (Application.services app).


(** ** Predicates on computations and on paths *)

(** Every exception that [m] can raise is outside the declared five. *)
Definition undeclared_only {S A} (m : M S A) : Prop :=
  forall s e, fst (m s) = Raise e -> declared_error e = false.

(** [m] always raises, and what it raises is outside the declared five. *)
Definition fails_undeclared {S A} (m : M S A) : Prop :=
  forall s, exists e, fst (m s) = Raise e /\ declared_error e = false.

(** The object after [m] is related by [R] to the object before. *)
Definition keeps {Self A} (R : Self -> Self -> Prop) (m : method Self A)
    : Prop :=
  forall o w, R o (fst (snd (m (o, w)))).

(** The rest of a path after one of its slash-free segments: empty, or
    starting with a slash. *)
Definition rest (t : string) : Prop :=
  t = "" \/ exists t', t = String "/" t'.

(** ** Reading the payloads back

    How a client decodes the fields: an unsigned 16-bit little-endian
    integer from two bytes, and a signed 8-bit integer from one byte. *)

Definition uint16_le (b0 b1 : Z) : Z := b0 + 256 * b1.

Definition sint8 (b : Z) : Z := if b <? 128 then b else b - 256.

(** The world after some activity, seen from outside: the host is not
    modified, log and signals only grow at the end, and the armed timeouts,
    the registrations and the main-loop counters are the same. *)
Definition world_grows (w w' : World) : Prop :=
  platform w' = platform w
  /\ (exists l, log w' = log w ++ l)
  /\ (exists l, signals w' = signals w ++ l)
  /\ timeouts w' = timeouts w
  /\ registrations w' = registrations w
  /\ mainloop_runs w' = mainloop_runs w
  /\ mainloop_quits w' = mainloop_quits w.

(** The world part of a method's final state is related by [R] to the
    world it started in. *)
Definition keeps_world {Self A} (R : World -> World -> Prop)
    (m : method Self A) : Prop :=
  forall o w, R w (snd (snd (m (o, w)))).

(** A host in Honolulu: UTC-10:00, no DST variant. *)
Definition host_west : Platform :=
  {| clock := friday_afternoon; zone_timezone := 36000;
     zone_altzone := 36000; zone_isdst := false;
     bus_objects := bluez_objects |}.


(** A [PropertiesChanged] signal of the shape that [notify_current_time]
    emits from the object at [p]: one changed property, ['Value'], holding
    ten bytes, and nothing invalidated. *)
Definition time_notification (p : string) (s : signal) : Prop :=
  sig_path s = p
  /\ sig_interface s = GATT_CHRC_IFACE
  /\ sig_invalidated s = []
  /\ exists value, sig_changed s = {[ "Value" := VByteArray value ]}
                   /\ length value = 10%nat.

(** Every exception that [m] can raise satisfies [P]. *)
Definition raises_only {S A} (P : exn -> Prop) (m : M S A) : Prop :=
  forall s e, fst (m s) = Raise e -> P e.

(** [e] is outside the declared five, or it is [x]. *)
Definition declared_is (x : exn) (e : exn) : Prop :=
  declared_error e = true -> e = x.

(** The zone offsets as the interpreter stores them: the larger of the
    zone's two offsets west of UTC is [timezone]. *)
Definition tzset_ordered (p : Platform) : Prop :=
  zone_altzone p <= zone_timezone p.

(** The value of the keyword argument [notify_period]: absent and [None]
    alike arm nothing. *)
Definition notify_period_of (kwargs : gmap string (option Z)) : option Z :=
  match kwargs !! "notify_period" with
  | Some notify_period => notify_period
  | None => None
  end.

(** A notify period whose interval [GLib.timeout_add] accepts. *)
Definition armable (notify_period : option Z) : Prop :=
  match notify_period with
  | Some p => 0 <= p * 1000 <= GLib.G_MAXUINT
  | None => True
  end.

(** ** The weekday by Zeller's congruence

    The ISO weekday of a Gregorian date computed without counting days:
    January and February are taken as months 13 and 14 of the year
    before. *)
Definition zeller_isoweekday (y m d : Z) : Z :=
  let a := if m <? 3 then 1 else 0 in
  let y' := y - a in
  let m' := m + 12 * a in
  (d + 13 * (m' + 1) / 5 + y' + y' / 4 - y' / 100 + y' / 400 + 5) mod 7 + 1.
(** * Properties *)

(** ** Binary64 rounding facts

    What the proofs need to know about [binary_round_aux]: on a mantissa of
    [53 + n] bits it drops [n] bits and then keeps the quotient or its
    successor; on a mantissa of 53 bits it changes nothing. *)

Section Binary64.

Lemma digits2_pos_size p : digits2_pos p = Pos.size p.
Proof. induction p; simpl; congruence. Qed.

Lemma digits2_pos_bounds p :
2 ^ (Z.pos (digits2_pos p) - 1) <= Z.pos p < 2 ^ Z.pos (digits2_pos p).
Proof.
rewrite digits2_pos_size.
pose proof (Pos.size_gt p) as Hgt.
pose proof (Pos.size_le p) as Hle.
apply Pos2Z.pos_lt_pos in Hgt. apply Pos2Z.pos_le_pos in Hle.
rewrite Pos2Z.inj_pow in Hgt, Hle.
rewrite (Pos2Z.inj_xO p) in Hle.
replace (Z.pos (Pos.size p)) with (Z.succ (Z.pos (Pos.size p) - 1)) in Hle at 1 by lia.
rewrite Z.pow_succ_r in Hle by lia.
lia.
Qed.

Lemma digits2_pos_unique p k :
2 ^ (k - 1) <= Z.pos p < 2 ^ k -> Z.pos (digits2_pos p) = k.
Proof.
intros [Hlo Hhi].
destruct (digits2_pos_bounds p) as [Hlo' Hhi'].
assert (0 < k).
{ destruct (Z_lt_le_dec 0 k) as [|Hk]; [assumption|].
  assert (2 ^ k <= 2 ^ 0) by (destruct (Z.eq_dec k 0) as [->|]; [lia|rewrite Z.pow_neg_r by lia; simpl; lia]).
  simpl in *. lia. }
assert (k - 1 < Z.pos (digits2_pos p)).
{ apply (Z.pow_lt_mono_r_iff 2); lia. }
assert (Z.pos (digits2_pos p) - 1 < k).
{ apply (Z.pow_lt_mono_r_iff 2); lia. }
lia.
Qed.

Lemma shr_1_m mrs : 0 <= shr_m mrs -> shr_m (shr_1 mrs) = shr_m mrs / 2.
Proof.
destruct mrs as [m r s]; simpl. intros Hm.
destruct m as [|[p|p|]|p]; simpl; try reflexivity; try lia.
- rewrite Pos2Z.inj_xI. apply Z.div_unique with 1; lia.
- rewrite Pos2Z.inj_xO. apply Z.div_unique with 0; lia.
Qed.

Lemma iter_pos_shr_1_m n : forall mrs,
0 <= shr_m mrs ->
shr_m (SpecFloat.iter_pos shr_1 n mrs) = shr_m mrs / 2 ^ Z.pos n.
Proof.
induction n as [n IH|n IH|]; intros mrs Hm; simpl SpecFloat.iter_pos.
- assert (H1 : 0 <= shr_m (shr_1 mrs)).
  { rewrite shr_1_m by assumption. apply Z.div_pos; lia. }
  assert (H2 : 0 <= shr_m (SpecFloat.iter_pos shr_1 n (shr_1 mrs))).
  { rewrite IH by assumption. apply Z.div_pos; [lia|]. apply Z.pow_pos_nonneg; lia. }
  rewrite IH, IH, shr_1_m by assumption.
  rewrite !Z.div_div by (try apply Z.pow_pos_nonneg; lia).
  f_equal. replace (Z.pos n~1) with (Z.pos n + Z.pos n + 1) by lia.
  rewrite !Z.pow_add_r by lia. change (2 ^ 1) with 2. ring.
- assert (H2 : 0 <= shr_m (SpecFloat.iter_pos shr_1 n mrs)).
  { rewrite IH by assumption. apply Z.div_pos; [lia|]. apply Z.pow_pos_nonneg; lia. }
  rewrite IH, IH by assumption.
  rewrite !Z.div_div by (try apply Z.pow_pos_nonneg; lia).
  f_equal. replace (Z.pos n~0) with (Z.pos n + Z.pos n) by lia.
  rewrite !Z.pow_add_r by lia. ring.
- rewrite shr_1_m by assumption. reflexivity.
Qed.

Lemma shr_spec mrs e n :
0 <= n -> 0 <= shr_m mrs ->
shr_m (fst (shr mrs e n)) = shr_m mrs / 2 ^ n /\ snd (shr mrs e n) = e + n.
Proof.
intros Hn Hm. unfold shr. destruct n as [|p|p].
- rewrite Z.div_1_r. split; [reflexivity|unfold snd; lia].
- split; [apply iter_pos_shr_1_m; assumption | reflexivity].
- lia.
Qed.

Lemma fexp_normal d x :
-1074 <= d + x - 53 -> fexp 53 1024 (d + x) - x = d - 53.
Proof. unfold fexp, emin. lia. Qed.

Lemma round_nearest_even_step q l :
round_nearest_even q l = q \/ round_nearest_even q l = q + 1.
Proof.
unfold round_nearest_even.
destruct l as [|[]]; try destruct (Z.even q); auto.
Qed.

Lemma shr_record_of_loc_m (m : Z) (l : location) :
shr_m (shr_record_of_loc m l) = m.
Proof. destruct l as [|[]]; reflexivity. Qed.

Lemma binary_round_aux_exact (s : bool) (l : location) (P : positive)
  (e n : Z) :
0 <= n ->
Z.pos (digits2_pos P) = 53 + n ->
-1074 <= e + n -> e + n + 1 <= 971 ->
exists m' t c,
  binary_round_aux 53 1024 s (Z.pos P) e l
    = S754_finite s m' (e + n + t)
  /\ (t = 0 \/ t = 1) /\ (c = 0 \/ c = 1)
  /\ Z.pos m' * 2 ^ t = Z.pos P / 2 ^ n + c
  /\ 2 ^ 52 <= Z.pos m' < 2 ^ 53.
Proof.
intros Hn Hdig Hlo Hhi.
assert (Hq : 2 ^ 52 <= Z.pos P / 2 ^ n < 2 ^ 53).
{ pose proof (digits2_pos_bounds P) as HB. rewrite Hdig in HB.
  replace (53 + n - 1) with (52 + n) in HB by lia.
  rewrite !Z.pow_add_r in HB by lia.
  assert (0 < 2 ^ n) by (apply Z.pow_pos_nonneg; lia).
  split.
  - apply Z.div_le_lower_bound; lia.
  - apply Z.div_lt_upper_bound; lia. }
unfold binary_round_aux.
assert (E1 : shr_fexp 53 1024 (Z.pos P) e l
             = shr (shr_record_of_loc (Z.pos P) l) e n).
{ unfold shr_fexp. cbn [Zdigits2]. rewrite Hdig.
  rewrite fexp_normal by lia. f_equal. lia. }
rewrite E1.
destruct (shr_spec (shr_record_of_loc (Z.pos P) l) e n Hn)
  as [Hm1 He1]; [rewrite shr_record_of_loc_m; lia|].
rewrite shr_record_of_loc_m in Hm1.
destruct (shr (shr_record_of_loc (Z.pos P) l) e n) as [mrs1 e1].
cbn [fst snd] in Hm1, He1. subst e1.
set (q := Z.pos P / 2 ^ n) in *.
rewrite Hm1.
destruct (round_nearest_even_step q (loc_of_shr_record mrs1)) as [HR|HR];
  rewrite HR.
- (* the quotient is kept *)
  destruct q as [|r|r] eqn:Eq; try lia.
  assert (Hd : Z.pos (digits2_pos r) = 53) by (apply digits2_pos_unique; lia).
  unfold shr_fexp. cbn [Zdigits2 shr_record_of_loc]. rewrite Hd.
  rewrite fexp_normal by lia.
  change (53 - 53) with 0. cbn [shr shr_m fst snd].
  replace (e + n <=? 1024 - 53) with true by (symmetry; apply Z.leb_le; lia).
  exists r, 0, 0. replace (e + n + 0) with (e + n) by lia.
  repeat split; auto; lia.
- destruct (Z.eq_dec (q + 1) (2 ^ 53)) as [Hover|Hover].
  + (* the successor needs one more bit *)
    rewrite Hover. change (2 ^ 53) with 9007199254740992.
    unfold shr_fexp. cbn [Zdigits2 shr_record_of_loc].
    change (Z.pos (digits2_pos 9007199254740992)) with 54.
    rewrite fexp_normal by lia. change (54 - 53) with 1.
    cbn [shr SpecFloat.iter_pos shr_1 shr_m fst snd].
    replace (e + n + 1 <=? 1024 - 53) with true
      by (symmetry; apply Z.leb_le; lia).
    exists 4503599627370496%positive, 1, 1.
    repeat split; auto; lia.
  + destruct (q + 1) as [|r|r] eqn:Eq; try lia.
    assert (Hd : Z.pos (digits2_pos r) = 53)
      by (apply digits2_pos_unique; lia).
    unfold shr_fexp. cbn [Zdigits2 shr_record_of_loc]. rewrite Hd.
    rewrite fexp_normal by lia. change (53 - 53) with 0.
    cbn [shr shr_m fst snd].
    replace (e + n <=? 1024 - 53) with true by (symmetry; apply Z.leb_le; lia).
    exists r, 0, 1. replace (e + n + 0) with (e + n) by lia.
    repeat split; auto; lia.
Qed.

Lemma binary_round_aux_canonical (s : bool) (P : positive) (e : Z) :
Z.pos (digits2_pos P) = 53 -> -1074 <= e <= 971 ->
binary_round_aux 53 1024 s (Z.pos P) e loc_Exact = S754_finite s P e.
Proof.
intros Hd He. unfold binary_round_aux, shr_fexp.
cbn [Zdigits2 shr_record_of_loc]. rewrite Hd.
rewrite fexp_normal by lia. change (53 - 53) with 0.
cbn [shr shr_m loc_of_shr_record round_nearest_even Zdigits2].
rewrite Hd. rewrite fexp_normal by lia. change (53 - 53) with 0.
cbn [shr shr_m].
replace (e <=? 1024 - 53) with true by (symmetry; apply Z.leb_le; lia).
reflexivity.
Qed.

Lemma iter_xO_value k : forall p,
Z.pos (Pos.iter xO p k) = Z.pos p * 2 ^ Z.pos k.
Proof.
induction k as [|k IH] using Pos.peano_ind; intros p.
- cbn [Pos.iter]. rewrite Pos2Z.inj_xO. change (2 ^ 1) with 2. lia.
- rewrite Pos.iter_succ, Pos2Z.inj_xO, IH, Pos2Z.inj_succ.
  rewrite Z.pow_succ_r by lia. ring.
Qed.

Lemma of_int_small (p : positive) (d : Z) :
Z.pos (digits2_pos p) = d -> d < 53 ->
exists M, Float.of_int (Z.pos p) = Ok (S754_finite false M (d - 53))
          /\ Z.pos M = Z.pos p * 2 ^ (53 - d).
Proof.
intros Hd Hlt.
assert (0 < d) by (rewrite <- Hd; lia).
unfold Float.of_int, binary_normalize, binary_round, Float.prec, Float.emax.
rewrite Z.add_0_r, Hd.
assert (Hf : fexp 53 1024 d = d - 53) by (unfold fexp, emin; lia).
rewrite Hf. unfold shl_align. rewrite Z.sub_0_r.
destruct (d - 53) as [|x|x] eqn:Ex; try lia.
assert (Hx : Z.pos x = 53 - d) by lia.
pose proof (iter_xO_value x p) as HM.
set (M := Pos.iter xO p x) in *.
rewrite Hx in HM.
assert (HdM : Z.pos (digits2_pos M) = 53).
{ apply digits2_pos_unique. rewrite HM.
  pose proof (digits2_pos_bounds p) as HB. rewrite Hd in HB.
  assert (0 < 2 ^ (53 - d)) by (apply Z.pow_pos_nonneg; lia).
  replace (2 ^ (53 - 1)) with (2 ^ (d - 1) * 2 ^ (53 - d))
    by (rewrite <- Z.pow_add_r by lia; f_equal; lia).
  replace (2 ^ 53) with (2 ^ d * 2 ^ (53 - d))
    by (rewrite <- Z.pow_add_r by lia; f_equal; lia).
  split.
  - apply Z.mul_le_mono_nonneg_r; lia.
  - apply Z.mul_lt_mono_pos_r; lia. }
rewrite binary_round_aux_canonical by lia.
exists M. split; [reflexivity | exact HM].
Qed.

Lemma iter_shr_52 (m : positive) :
SpecFloat.iter_pos shr_1 52
  (Build_shr_record (Z.pos (4503599627370496 * m)) false false)
= Build_shr_record (Z.pos m) false false.
Proof. reflexivity. Qed.

Lemma mul_256 (m : positive) (e : Z) :
2 ^ 52 <= Z.pos m < 2 ^ 53 -> -1074 <= e + 8 <= 971 ->
Float.mul (S754_finite false m e) Float.lit_256
= S754_finite false m (e + 8).
Proof.
intros Hm He.
assert (Hd : Z.pos (digits2_pos m) = 53) by (apply digits2_pos_unique; lia).
unfold Float.mul, Float.lit_256, SFmul, Float.emax, Float.prec. cbn [xorb].
rewrite Pos.mul_comm.
unfold binary_round_aux, shr_fexp. cbn [Zdigits2 shr_record_of_loc].
assert (Hd2 : Z.pos (digits2_pos (4503599627370496 * m)) = 105).
{ apply digits2_pos_unique. rewrite Pos2Z.inj_mul.
  change (Z.pos 4503599627370496) with (2 ^ 52). lia. }
rewrite Hd2. rewrite fexp_normal by lia. change (105 - 53) with 52.
cbn [shr]. rewrite iter_shr_52.
cbn [shr_m loc_of_shr_record round_nearest_even Zdigits2 shr_record_of_loc].
rewrite Hd. rewrite fexp_normal by lia. change (53 - 53) with 0.
cbn [shr shr_m].
unfold Float.emax, Float.prec.
replace (e + -44 + 52 <=? 1024 - 53) with true
  by (symmetry; apply Z.leb_le; lia).
f_equal. lia.
Qed.


End Binary64.

(** ** The fractional-second byte *)


Lemma of_int_256 : Float.of_int 256 = Ok Float.lit_256.
Proof. reflexivity. Qed.

Ltac split_range d lo hi :=
  let rec go k n :=
    lazymatch n with
    | O => exfalso; lia
    | S ?n' =>
        let H := fresh in
        destruct (Z.eq_dec d k) as [H|H];
        [ subst d | go constr:(k + 1) n' ]
    end in
  go lo hi.

Lemma fraction_256_inexact (p : positive) :
  Z.pos p < 1000000 -> (4 * Z.pos p) mod 15625 <> 0 ->
  CurrentTimeCharacteristic.fraction_256 (Z.pos p) = Ok (Z.pos p * 256 / 1000000).
Proof.
  intros Hp Hne.
  pose proof (digits2_pos_bounds p) as HB.
  remember (Z.pos (digits2_pos p)) as d eqn:Ed.
  assert (Hd : 1 <= d <= 20).
  { split; [subst d; lia|].
    assert (d - 1 < 20); [|lia].
    apply (Z.pow_lt_mono_r_iff 2); [lia|lia|]. change (2 ^ 20) with 1048576. lia. }
  destruct (of_int_small p d (eq_sym Ed)) as (M & HofM & HM); [lia|].
  unfold CurrentTimeCharacteristic.fraction_256. rewrite HofM, of_int_256.
  (* the product with 1e-6 *)
  unfold Float.mul at 2. unfold Float.lit_1e_6, SFmul, Float.prec, Float.emax.
  cbn [xorb].
  set (D := 4722366482869645%positive).
  assert (HM53 : 2 ^ 52 <= Z.pos M < 2 ^ 53).
  { rewrite HM.
    assert (0 < 2 ^ (53 - d)) by (apply Z.pow_pos_nonneg; lia).
    replace (2 ^ 52) with (2 ^ (d - 1) * 2 ^ (53 - d))
      by (rewrite <- Z.pow_add_r by lia; f_equal; lia).
    replace (2 ^ 53) with (2 ^ d * 2 ^ (53 - d))
      by (rewrite <- Z.pow_add_r by lia; f_equal; lia).
    split.
    - apply Z.mul_le_mono_nonneg_r; lia.
    - apply Z.mul_lt_mono_pos_r; lia. }
  pose proof (digits2_pos_bounds (M * D)) as HBP.
  remember (Z.pos (digits2_pos (M * D))) as dP eqn:EdP.
  assert (HMD : 2 ^ 104 <= Z.pos (M * D) < 2 ^ 106).
  { rewrite Pos2Z.inj_mul. subst D.
    change (2 ^ 52) with 4503599627370496 in HM53.
    change (2 ^ 53) with 9007199254740992 in HM53.
    change (2 ^ 104) with 20282409603651670423947251286016.
    change (2 ^ 106) with 81129638414606681695789005144064. nia. }
  assert (HdP : dP = 105 \/ dP = 106).
  { assert (104 < dP) by (apply (Z.pow_lt_mono_r_iff 2); lia).
    assert (dP - 1 < 106) by (apply (Z.pow_lt_mono_r_iff 2); lia).
    lia. }
  destruct (binary_round_aux_exact false loc_Exact (M * D) (d - 53 + -72)
              (dP - 53))
    as (m1 & t & c & Hr & Ht & Hc & Hval & Hm1); try lia.
  rewrite Hr.
  rewrite mul_256 by (try assumption; lia).
  unfold Float.to_int.
  replace (0 <=? d - 53 + -72 + (dP - 53) + t + 8) with false
    by (symmetry; apply Z.leb_gt; lia).
  f_equal.
  (* arithmetic *)
  set (k := Z.pos p * 256 / 1000000).
  assert (Hk1 : 1000000 * k <= Z.pos p * 256) by (apply Z.mul_div_le; lia).
  assert (Hk2 : Z.pos p * 256 < 1000000 * (k + 1)).
  { replace (k + 1) with (Z.succ k) by lia. apply Z.mul_succ_div_gt; lia. }
  assert (Hk3 : 1000000 * k <> Z.pos p * 256).
  { intros Heq. apply Hne.
    assert (4 * Z.pos p = k * 15625) as -> by lia.
    apply Z.mod_mul; lia. }
  set (q := Z.pos (M * D) / 2 ^ (dP - 53)) in *.
  assert (Hq1 : 2 ^ (dP - 53) * q <= Z.pos (M * D))
    by (apply Z.mul_div_le; apply Z.pow_pos_nonneg; lia).
  assert (Hq2 : Z.pos (M * D) < 2 ^ (dP - 53) * (q + 1)).
  { replace (q + 1) with (Z.succ q) by lia.
    apply Z.mul_succ_div_gt. apply Z.pow_pos_nonneg; lia. }
  rewrite Pos2Z.inj_mul, HM in Hq1, Hq2.
  clearbody q k. clear HBP EdP HMD Hr HofM HB Ed Hne HM HM53.
  subst D.
  assert (Hgoal :
    2 ^ (- (d - 53 + -72 + (dP - 53) + t + 8)) * k <= Z.pos m1
    < 2 ^ (- (d - 53 + -72 + (dP - 53) + t + 8)) * (k + 1)).
  { destruct HdP; subst dP; destruct Ht; subst t; destruct Hc; subst c;
      split_range d 1 20%nat;
      repeat match goal with
      | H : context [2 ^ ?e] |- _ =>
          let v := eval vm_compute in (2 ^ e) in
          change (2 ^ e) with v in H
      | |- context [2 ^ ?e] =>
          let v := eval vm_compute in (2 ^ e) in
          change (2 ^ e) with v
      end; lia. }
  symmetry. apply Z.div_unique_pos with
    (r := Z.pos m1 - 2 ^ (- (d - 53 + -72 + (dP - 53) + t + 8)) * k); lia.
Qed.

Lemma fraction_256_exact_cases :
  forallb (fun j =>
    match CurrentTimeCharacteristic.fraction_256 (15625 * Z.of_nat j) with
    | Ok v => v =? 4 * Z.of_nat j
    | Raise _ => false
    end) (List.seq 0 64) = true.
Proof. vm_compute. reflexivity. Qed.

Lemma fraction_256_spec (m : Z) :
  0 <= m <= 999999 ->
  CurrentTimeCharacteristic.fraction_256 m = Ok (m * 256 / 1000000).
Proof.
  intros Hm.
  destruct (Z.eq_dec ((4 * m) mod 15625) 0) as [He|He].
  - pose proof fraction_256_exact_cases as HT.
    rewrite forallb_forall in HT.
    specialize (HT (Z.to_nat (m / 15625))).
    assert (Hj : m = 15625 * Z.of_nat (Z.to_nat (m / 15625))).
    { rewrite Z2Nat.id by (apply Z.div_pos; lia).
      apply Z.mod_divide in He; [|lia]. destruct He as [k Hk].
      pose proof (Z.div_mod m 15625 ltac:(lia)) as Hdm.
      pose proof (Z.mod_pos_bound m 15625 ltac:(lia)) as Hr.
      lia. }
    assert (Hj64 : (Z.to_nat (m / 15625) < 64)%nat).
    { apply Nat2Z.inj_lt. rewrite Z2Nat.id by (apply Z.div_pos; lia).
      apply Z.div_lt_upper_bound; lia. }
    rewrite <- Hj in HT.
    destruct (CurrentTimeCharacteristic.fraction_256 m) as [v|e].
    + f_equal. apply Z.eqb_eq in HT; [|apply in_seq; lia].
      rewrite HT. rewrite Hj at 2.
      apply Z.div_unique with 0; lia.
    + discriminate HT. apply in_seq. lia.
  - destruct m as [|p|p]; [exfalso; apply He; reflexivity| |lia].
    apply fraction_256_inexact; [lia|exact He].
Qed.

(** ** Durations in quarter hours *)

Lemma binary_round_small (s : bool) (p : positive) (d : Z) :
  Z.pos (digits2_pos p) = d -> d < 53 ->
  exists M, binary_round 53 1024 s p 0 = S754_finite s M (d - 53)
            /\ Z.pos M = Z.pos p * 2 ^ (53 - d)
            /\ 2 ^ 52 <= Z.pos M < 2 ^ 53.
Proof.
  intros Hd Hlt.
  assert (0 < d) by (rewrite <- Hd; lia).
  unfold binary_round.
  rewrite Z.add_0_r, Hd.
  assert (Hf : fexp 53 1024 d = d - 53) by (unfold fexp, emin; lia).
  rewrite Hf. unfold shl_align. rewrite Z.sub_0_r.
  destruct (d - 53) as [|x|x] eqn:Ex; try lia.
  assert (Hx : Z.pos x = 53 - d) by lia.
  pose proof (iter_xO_value x p) as HM.
  set (M := Pos.iter xO p x) in *.
  rewrite Hx in HM.
  assert (HM53 : 2 ^ 52 <= Z.pos M < 2 ^ 53).
  { rewrite HM.
    pose proof (digits2_pos_bounds p) as HB. rewrite Hd in HB.
    assert (0 < 2 ^ (53 - d)) by (apply Z.pow_pos_nonneg; lia).
    replace (2 ^ 52) with (2 ^ (d - 1) * 2 ^ (53 - d))
      by (rewrite <- Z.pow_add_r by lia; f_equal; lia).
    replace (2 ^ 53) with (2 ^ d * 2 ^ (53 - d))
      by (rewrite <- Z.pow_add_r by lia; f_equal; lia).
    split.
    - apply Z.mul_le_mono_nonneg_r; lia.
    - apply Z.mul_lt_mono_pos_r; lia. }
  assert (HdM : Z.pos (digits2_pos M) = 53)
    by (apply digits2_pos_unique; lia).
  rewrite binary_round_aux_canonical by lia.
  exists M. repeat split; try lia.
Qed.

Lemma sfdiv_quarter (s : bool) (pa : positive) (T : Z) :
  0 < T < 262144 -> Z.pos pa = T * 1000000 -> T mod 900 <> 0 ->
  exists m e,
    SFdiv 53 1024 (binary_round 53 1024 s pa 0)
      (S754_finite false 7549747200000000 (-23)) = S754_finite s m e
    /\ e < 0 /\ Z.pos m / 2 ^ (- e) = T / 900.
Proof.
  intros HT Hpa Hne.
  pose proof (digits2_pos_bounds pa) as HB.
  remember (Z.pos (digits2_pos pa)) as da eqn:Eda.
  assert (Hda : 20 <= da <= 38).
  { rewrite Hpa in HB. split.
    - assert (19 < da); [|lia].
      apply (Z.pow_lt_mono_r_iff 2); [lia|lia|].
      change (2 ^ 19) with 524288. lia.
    - assert (da - 1 < 38); [|lia].
      apply (Z.pow_lt_mono_r_iff 2); [lia|lia|].
      change (2 ^ 38) with 274877906944. lia. }
  destruct (binary_round_small s pa da (eq_sym Eda)) as (A & HA & HAv & HA53);
    [lia|].
  rewrite HA. unfold SFdiv, SFdiv_core_binary.
  cbn [Zdigits2].
  assert (HdA : Z.pos (digits2_pos A) = 53) by (apply digits2_pos_unique; lia).
  rewrite HdA.
  change (Z.pos (digits2_pos 7549747200000000)) with 53.
  replace (Z.min (fexp 53 1024 (53 + (da - 53) - (53 + -23)))
             (da - 53 - -23)) with (da - 83)
    by (unfold fexp, emin; lia).
  replace (da - 53 - -23 - (da - 83)) with 53 by lia.
  rewrite Z.shiftl_mul_pow2 by lia.
  pose proof (Z_div_mod (Z.pos A * 2 ^ 53) (Z.pos 7549747200000000)
                ltac:(lia)) as Hdiv.
  destruct (Z.div_eucl (Z.pos A * 2 ^ 53) (Z.pos 7549747200000000))
    as [q r].
  destruct Hdiv as [Hqr Hr].
  change (2 ^ 53) with 9007199254740992 in Hqr.
  change (2 ^ 52) with 4503599627370496 in HA53.
  change (2 ^ 53) with 9007199254740992 in HA53.
  assert (Hq : 2 ^ 52 <= q < 2 ^ 54).
  { change (2 ^ 52) with 4503599627370496.
    change (2 ^ 54) with 18014398509481984. nia. }
  destruct q as [|Q|Q]; try lia.
  pose proof (digits2_pos_bounds Q) as HBQ.
  remember (Z.pos (digits2_pos Q)) as dQ eqn:EdQ.
  assert (HdQ : dQ = 53 \/ dQ = 54).
  { assert (52 < dQ) by (apply (Z.pow_lt_mono_r_iff 2); lia).
    assert (dQ - 1 < 54) by (apply (Z.pow_lt_mono_r_iff 2); lia).
    lia. }
  destruct (binary_round_aux_exact (xorb s false)
              (new_location (Z.pos 7549747200000000) r) Q (da - 83) (dQ - 53))
    as (m1 & t & c & Hres & Ht & Hc & Hval & Hm1); try lia.
  rewrite Hres. rewrite xorb_false_r.
  exists m1, (da - 83 + (dQ - 53) + t).
  split; [reflexivity|]. split; [lia|].
  set (k := T / 900).
  assert (Hk1 : 900 * k <= T) by (apply Z.mul_div_le; lia).
  assert (Hk2 : T < 900 * (k + 1)).
  { replace (k + 1) with (Z.succ k) by lia. apply Z.mul_succ_div_gt; lia. }
  assert (Hk3 : 900 * k <> T).
  { intros Heq. apply Hne. rewrite <- Heq, Z.mul_comm. apply Z.mod_mul; lia. }
  set (q1 := Z.pos Q / 2 ^ (dQ - 53)) in *.
  assert (Hq1 : 2 ^ (dQ - 53) * q1 <= Z.pos Q)
    by (apply Z.mul_div_le; apply Z.pow_pos_nonneg; lia).
  assert (Hq2 : Z.pos Q < 2 ^ (dQ - 53) * (q1 + 1)).
  { replace (q1 + 1) with (Z.succ q1) by lia.
    apply Z.mul_succ_div_gt. apply Z.pow_pos_nonneg; lia. }
  rewrite HAv, Hpa in Hqr.
  clearbody q1 k.
  clear HBQ EdQ Hres HA HB Eda Hne HAv HA53 HdA Hq Hpa.
  assert (Hgoal :
    2 ^ (- (da - 83 + (dQ - 53) + t)) * k <= Z.pos m1
    < 2 ^ (- (da - 83 + (dQ - 53) + t)) * (k + 1)).
  { destruct HdQ; subst dQ; destruct Ht; subst t; destruct Hc; subst c;
      split_range da 20 19%nat;
      repeat match goal with
      | H : context [2 ^ ?e] |- _ =>
          let v := eval vm_compute in (2 ^ e) in
          change (2 ^ e) with v in H
      | |- context [2 ^ ?e] =>
          let v := eval vm_compute in (2 ^ e) in
          change (2 ^ e) with v
      end; lia. }
  symmetry. apply Z.div_unique_pos with
    (r := Z.pos m1 - 2 ^ (- (da - 83 + (dQ - 53) + t)) * k); lia.
Qed.

Lemma quarter_hours_exact_cases :
  forallb (fun k =>
    let check T :=
      match timedelta.truediv (T * 1000000) 900000000 with
      | Ok f => match Float.to_int f with
                | Ok v => v =? Z.quot T 900
                | Raise _ => false
                end
      | Raise _ => false
      end in
    check (900 * Z.of_nat k) && check (- (900 * Z.of_nat k)))
    (List.seq 0 292) = true.
Proof. vm_compute. reflexivity. Qed.

Lemma of_int_900000000 :
  Float.of_int 900000000 = Ok (S754_finite false 7549747200000000 (-23)).
Proof. reflexivity. Qed.

Lemma quarter_hours (T : Z) :
  -262144 < T < 262144 ->
  exists f, timedelta.truediv (T * 1000000) 900000000 = Ok f
            /\ Float.to_int f = Ok (Z.quot T 900).
Proof.
  intros HT.
  destruct (Z.eq_dec (T mod 900) 0) as [He|He].
  - (* a whole number of quarter hours *)
    pose proof quarter_hours_exact_cases as Htab.
    rewrite forallb_forall in Htab.
    apply Z.mod_divide in He; [|lia]. destruct He as [k Hk].
    specialize (Htab (Z.to_nat (Z.abs k))).
    cbv beta zeta in Htab. rewrite Z2Nat.id in Htab by lia.
    assert (Hin : In (Z.to_nat (Z.abs k)) (List.seq 0 292))
      by (apply in_seq; lia).
    apply Htab in Hin. apply andb_prop in Hin. destruct Hin as [H1 H2].
    assert (Hcase : T = 900 * Z.abs k \/ T = - (900 * Z.abs k)) by lia.
    destruct Hcase as [Hpos|Hneg];
      [rewrite <- Hpos in H1|rewrite <- Hneg in H2].
    + destruct (timedelta.truediv (T * 1000000) 900000000) as [f|];
        [|discriminate].
      exists f. split; [reflexivity|].
      destruct (Float.to_int f); [|discriminate].
      apply Z.eqb_eq in H1. congruence.
    + destruct (timedelta.truediv (T * 1000000) 900000000) as [f|];
        [|discriminate].
      exists f. split; [reflexivity|].
      destruct (Float.to_int f); [|discriminate].
      apply Z.eqb_eq in H2. congruence.
  - unfold timedelta.truediv. rewrite of_int_900000000.
    unfold Float.of_int, binary_normalize, Float.prec, Float.emax.
    destruct (T * 1000000) as [|pa|pa] eqn:Epa.
    + exfalso. apply He. assert (T = 0) as -> by lia. reflexivity.
    + destruct (sfdiv_quarter false pa T) as (m & e & Hdiv & He0 & Hv);
        [lia|lia|exact He|].
      pose proof (digits2_pos_bounds pa) as HB.
      destruct (binary_round_small false pa _ eq_refl) as (A & HA & _ & _).
      { assert (Z.pos (digits2_pos pa) - 1 < 52); [|lia].
        apply (Z.pow_lt_mono_r_iff 2); [lia|lia|].
        change (2 ^ 52) with 4503599627370496. lia. }
      rewrite HA in Hdiv |- *. cbn [Float.is_finite Float.truediv].
      exists (S754_finite false m e). split; [f_equal; exact Hdiv|].
      unfold Float.to_int.
      replace (0 <=? e) with false by (symmetry; apply Z.leb_gt; lia).
      rewrite Hv. f_equal. symmetry. apply Z.quot_div_nonneg; lia.
    + destruct (sfdiv_quarter true pa (- T)) as (m & e & Hdiv & He0 & Hv).
      * lia.
      * lia.
      * intros Hm. apply He.
        apply Z.mod_divide in Hm; [|lia]. apply Z.mod_divide; [lia|].
        apply Z.divide_opp_r in Hm. rewrite Z.opp_involutive in Hm. exact Hm.
      * pose proof (digits2_pos_bounds pa) as HB.
        destruct (binary_round_small true pa _ eq_refl) as (A & HA & _ & _).
        { assert (Z.pos (digits2_pos pa) - 1 < 52); [|lia].
          apply (Z.pow_lt_mono_r_iff 2); [lia|lia|].
          change (2 ^ 52) with 4503599627370496. lia. }
        rewrite HA in Hdiv |- *. cbn [Float.is_finite Float.truediv].
        exists (S754_finite true m e). split; [f_equal; exact Hdiv|].
        unfold Float.to_int.
        replace (0 <=? e) with false by (symmetry; apply Z.leb_gt; lia).
        rewrite Hv. f_equal.
        replace T with (- (- T)) at 2 by lia.
        rewrite Z.quot_opp_l by lia. f_equal.
        symmetry. apply Z.quot_div_nonneg; lia.
Qed.

(** ** Running the Current Time encoder *)

Lemma Byte_ok (x : Z) : 0 <= x <= 255 -> Byte x = Ok x.
Proof.
  intros H. unfold Byte.
  replace (0 <=? x) with true by (symmetry; apply Z.leb_le; lia).
  replace (x <=? 255) with true by (symmetry; apply Z.leb_le; lia).
  reflexivity.
Qed.

Lemma isoweekday_range (dt : datetime.t) : 1 <= datetime.isoweekday dt <= 7.
Proof.
  unfold datetime.isoweekday.
  pose proof (Z.mod_pos_bound (datetime.toordinal dt) 7 ltac:(lia)) as H.
  destruct (Z.eqb_spec (datetime.toordinal dt mod 7) 0); lia.
Qed.

Lemma days_in_month_le (y m : Z) : datetime._days_in_month y m <= 31.
Proof.
  unfold datetime._days_in_month.
  destruct ((m =? 2) && datetime._is_leap y); [lia|].
  unfold datetime._DAYS_IN_MONTH.
  generalize (Z.to_nat (m - 1)). intros n.
  do 12 (destruct n as [|n]; [cbn [nth]; lia|]).
  destruct n; cbn [nth]; lia.
Qed.

Lemma to_bytes_year (y : Z) :
  0 <= y < 65536 ->
  to_bytes y 2 false = Ok [y mod 256; y / 256 mod 256].
Proof.
  intros H. unfold to_bytes. cbn [le_bytes].
  change (2 ^ (8 * Z.of_nat 2)) with 65536.
  replace (0 <=? y) with true by (symmetry; apply Z.leb_le; lia).
  replace (y <? 65536) with true by (symmetry; apply Z.ltb_lt; lia).
  reflexivity.
Qed.

Lemma fraction_range (m : Z) : 0 <= m <= 999999 -> 0 <= m * 256 / 1000000 <= 255.
Proof.
  intros H. split.
  - apply Z.div_pos; lia.
  - assert (m * 256 / 1000000 < 256); [|lia].
    apply Z.div_lt_upper_bound; lia.
Qed.

Lemma current_time_bytes_run (self : Characteristic.t) (w : World) :
  datetime.valid (clock (platform w)) ->
  CurrentTimeCharacteristic.current_time_bytes (self, w) =
  (Ok [datetime.year (clock (platform w)) mod 256;
       datetime.year (clock (platform w)) / 256 mod 256;
       datetime.month (clock (platform w));
       datetime.day (clock (platform w));
       datetime.hour (clock (platform w));
       datetime.minute (clock (platform w));
       datetime.second (clock (platform w));
       datetime.isoweekday (clock (platform w));
       datetime.microsecond (clock (platform w)) * 256 / 1000000;
       1],
   (self,
    add_log (LogRecord (Characteristic.logger self) DEBUG "CT: {}"
               [VDatetime (clock (platform w))])
      (set_time (zone_timezone (platform w)) (zone_altzone (platform w)) w))).
Proof.
  intros (Hy & Hmo & Hd & Hh & Hmi & Hs & Hus).
  pose proof (days_in_month_le (datetime.year (clock (platform w)))
                (datetime.month (clock (platform w)))) as Hdm.
  pose proof (isoweekday_range (clock (platform w))) as Hwd.
  pose proof (fraction_range _ Hus) as Hfr.
  pose proof (Z.mod_pos_bound (datetime.year (clock (platform w))) 256
                ltac:(lia)) as Hy0.
  pose proof (Z.mod_pos_bound (datetime.year (clock (platform w)) / 256) 256
                ltac:(lia)) as Hy1.
  unfold CurrentTimeCharacteristic.current_time_bytes,
    CurrentTimeCharacteristic.append_Byte, bind, get_self, in_world,
    time.tzset, modify, datetime_now, lift_result, ret, logging.
  cbn [fst snd platform set_time].
  rewrite to_bytes_year by lia.
  cbn [CurrentTimeCharacteristic.Bytes]. unfold bind, lift_result, ret.
  rewrite !Byte_ok by lia.
  rewrite fraction_256_spec by lia.
  rewrite !Byte_ok by lia.
  reflexivity.
Qed.

(** ** Running the Local Time Information encoder *)

Lemma timedelta_of_us_ok (us : Z) :
  - 86399999913600000000 <= us <= 86399999999999999999 ->
  timedelta.of_us us = Ok us.
Proof.
  intros H. unfold timedelta.of_us, timedelta.in_range.
  replace (-999999999 <=? us / 86400000000) with true
    by (symmetry; apply Z.leb_le; apply Z.div_le_lower_bound; lia).
  replace (us / 86400000000 <=? 999999999) with true; [reflexivity|].
  symmetry. apply Z.leb_le.
  assert (us / 86400000000 < 1000000000); [|lia].
  apply Z.div_lt_upper_bound; lia.
Qed.

Lemma to_bytes_signed_1 (n : Z) :
  -128 <= n <= 127 -> to_bytes n 1 true = Ok [n mod 256].
Proof.
  intros H. unfold to_bytes.
  change (8 * Z.of_nat 1) with 8. change (2 ^ (8 - 1)) with 128.
  change (2 ^ 8) with 256. cbn [le_bytes].
  rewrite (proj2 (Z.leb_le _ _)) by lia.
  rewrite (proj2 (Z.ltb_lt _ _)) by lia.
  cbn [andb]. rewrite Z.mod_mod by lia. reflexivity.
Qed.

Lemma quot_900_bounds (T lo hi : Z) :
  lo <= Z.quot T 900 <= hi -> 900 * lo - 900 < T < 900 * hi + 900.
Proof.
  intros H. pose proof (Z.quot_rem' T 900) as E.
  pose proof (Z.rem_bound_abs T 900 ltac:(lia)) as B.
  change (Z.abs 900) with 900 in B. lia.
Qed.

Lemma local_time_information_bytes_run (self : Characteristic.t) (w : World) :
  let tz := - zone_timezone (platform w) in
  let dst := - zone_altzone (platform w) - tz in
  -128 <= Z.quot tz 900 <= 127 ->
  0 <= Z.quot dst 900 <= 255 ->
  LocalTimeInformationCharacteristic.local_time_information_bytes (self, w) =
  (Ok [Z.quot tz 900 mod 256; Z.quot dst 900],
   (self,
    add_log (LogRecord (Characteristic.logger self) DEBUG
               "LTI: TZ offset = {} ({:+d}); DST offset = {} ({:+d})"
               [VTimedelta (tz * 1000000); VInt (Z.quot tz 900);
                VTimedelta (dst * 1000000); VInt (Z.quot dst 900)])
      (set_time (zone_timezone (platform w)) (zone_altzone (platform w)) w))).
Proof.
  intros tz dst Htz Hdst.
  pose proof (quot_900_bounds _ _ _ Htz) as Btz.
  pose proof (quot_900_bounds _ _ _ Hdst) as Bdst.
  destruct (quarter_hours tz) as (f1 & Hf1 & Hi1); [lia|].
  destruct (quarter_hours dst) as (f2 & Hf2 & Hi2); [lia|].
  pose proof (Z.mod_pos_bound (Z.quot tz 900) 256 ltac:(lia)) as Hb1.
  unfold LocalTimeInformationCharacteristic.local_time_information_bytes,
    bind, get_self, in_world, time.tzset, time.timezone, time.altzone,
    modify, lift_result, ret, logging.
  cbn [fst snd platform set_time time_timezone time_altzone].
  fold tz. unfold timedelta.seconds, timedelta.minutes, timedelta.sub.
  rewrite (timedelta_of_us_ok (tz * 1000000)) by lia.
  rewrite (timedelta_of_us_ok (- zone_altzone (platform w) * 1000000)) by lia.
  replace (- zone_altzone (platform w) * 1000000 - tz * 1000000)
    with (dst * 1000000) by (unfold dst; lia).
  rewrite (timedelta_of_us_ok (dst * 1000000)) by lia.
  change (15 * 60000000) with 900000000.
  rewrite (timedelta_of_us_ok 900000000) by lia.
  rewrite Hf1, Hi1, Hf2, Hi2.
  rewrite to_bytes_signed_1 by lia.
  unfold subscript. cbn [lookup list_lookup].
  rewrite !Byte_ok by lia.
  reflexivity.
Qed.

(** ** Errors that a computation can raise *)

Section Errors.

Context {S : Type}.

Lemma undeclared_ret {A} (a : A) : undeclared_only (ret a : M S A).
Proof. intros s e H. discriminate H. Qed.

Lemma undeclared_modify (f : S -> S) : undeclared_only (modify f).
Proof. intros s e H. discriminate H. Qed.

Lemma undeclared_get : undeclared_only (get : M S S).
Proof. intros s e H. discriminate H. Qed.

Lemma undeclared_bind {A B} (m : M S A) (k : A -> M S B) :
  undeclared_only m -> (forall a, undeclared_only (k a)) ->
  undeclared_only (bind m k).
Proof.
  intros Hm Hk s e. unfold bind.
  specialize (Hm s). destruct (m s) as [[a|e'] s'] eqn:E; cbn [fst] in *.
  - apply Hk.
  - intros [= <-]. apply Hm. reflexivity.
Qed.

Lemma fails_bind {A B} (m : M S A) (k : A -> M S B) :
  undeclared_only m -> (forall a, fails_undeclared (k a)) ->
  fails_undeclared (bind m k).
Proof.
  intros Hm Hk s. unfold bind.
  specialize (Hm s). destruct (m s) as [[a|e'] s'] eqn:E; cbn [fst] in *.
  - apply Hk.
  - exists e'. split; [reflexivity|]. apply Hm. reflexivity.
Qed.

Lemma undeclared_lift {A} (r : result A) :
  (forall e, r = Raise e -> declared_error e = false) ->
  undeclared_only (lift_result r : M S A).
Proof. intros H s e. cbn. apply H. Qed.

End Errors.

Lemma undeclared_in_world {Self A} (m : M World A) :
  undeclared_only m -> undeclared_only (in_world m : method Self A).
Proof.
  intros H [o w] e. unfold in_world. cbn [snd fst].
  specialize (H w e). destruct (m w) as [r w']. exact H.
Qed.

Lemma undeclared_get_self {Self} : undeclared_only (@get_self Self).
Proof. intros s e H. discriminate H. Qed.

Lemma Byte_undeclared (x : Z) (e : exn) :
  Byte x = Raise e -> declared_error e = false.
Proof. unfold Byte. destruct (_ && _); [discriminate|]. intros [= <-]. reflexivity. Qed.

Lemma to_bytes_undeclared n l sg (e : exn) :
  to_bytes n l sg = Raise e -> declared_error e = false.
Proof.
  unfold to_bytes. destruct sg; destruct (_ && _); try discriminate;
    intros [= <-]; reflexivity.
Qed.

Lemma of_int_undeclared z (e : exn) :
  Float.of_int z = Raise e -> declared_error e = false.
Proof.
  unfold Float.of_int. destruct (Float.is_finite _); [discriminate|].
  intros [= <-]. reflexivity.
Qed.

Lemma to_int_undeclared f (e : exn) :
  Float.to_int f = Raise e -> declared_error e = false.
Proof. destruct f; cbn; try discriminate; intros [= <-]; reflexivity. Qed.

Lemma fraction_256_undeclared m (e : exn) :
  CurrentTimeCharacteristic.fraction_256 m = Raise e ->
  declared_error e = false.
Proof.
  unfold CurrentTimeCharacteristic.fraction_256.
  destruct (Float.of_int m) eqn:E1; destruct (Float.of_int 256) eqn:E2;
    try (intros [= <-]; eauto using of_int_undeclared).
  apply to_int_undeclared.
Qed.

Lemma timedelta_of_us_undeclared us (e : exn) :
  timedelta.of_us us = Raise e -> declared_error e = false.
Proof.
  unfold timedelta.of_us. destruct (timedelta.in_range us); [discriminate|].
  intros [= <-]. reflexivity.
Qed.

Lemma timedelta_truediv_undeclared a b (e : exn) :
  timedelta.truediv a b = Raise e -> declared_error e = false.
Proof.
  unfold timedelta.truediv.
  destruct (Float.of_int a) eqn:E1; destruct (Float.of_int b) eqn:E2;
    try (intros [= <-]; eauto using of_int_undeclared).
  unfold Float.truediv. destruct a1; try discriminate.
  intros [= <-]. reflexivity.
Qed.

Lemma subscript_undeclared l i (e : exn) :
  subscript l i = Raise e -> declared_error e = false.
Proof.
  unfold subscript. destruct (l !! i); [discriminate|].
  intros [= <-]. reflexivity.
Qed.

Lemma getitem_undeclared {V} (d : gmap string V) k (e : exn) :
  getitem d k = Raise e -> declared_error e = false.
Proof.
  unfold getitem. destruct (d !! k); [discriminate|].
  intros [= <-]. reflexivity.
Qed.

Create HintDb undeclared discriminated.
#[local] Hint Resolve undeclared_ret undeclared_modify undeclared_get
  undeclared_get_self undeclared_in_world undeclared_lift
  Byte_undeclared to_bytes_undeclared fraction_256_undeclared
  timedelta_of_us_undeclared timedelta_truediv_undeclared
  to_int_undeclared subscript_undeclared getitem_undeclared : undeclared.

Ltac undeclared :=
  repeat first
    [ apply undeclared_bind; [|intros ?]
    | solve [eauto with undeclared] ].

Lemma Bytes_undeclared {S} (l : list Z) :
  undeclared_only (CurrentTimeCharacteristic.Bytes l : M S (list Z)).
Proof.
  induction l as [|b l IH]; cbn [CurrentTimeCharacteristic.Bytes].
  - apply undeclared_ret.
  - undeclared.
Qed.

Lemma current_time_bytes_undeclared :
  undeclared_only CurrentTimeCharacteristic.current_time_bytes.
Proof.
  unfold CurrentTimeCharacteristic.current_time_bytes,
    CurrentTimeCharacteristic.append_Byte, time.tzset, datetime_now, logging.
  undeclared; try apply Bytes_undeclared.
  intros s e H. discriminate H.
Qed.

Lemma local_time_information_bytes_undeclared :
  undeclared_only
    LocalTimeInformationCharacteristic.local_time_information_bytes.
Proof.
  unfold LocalTimeInformationCharacteristic.local_time_information_bytes,
    time.tzset, time.timezone, time.altzone, logging,
    timedelta.seconds, timedelta.minutes, timedelta.sub.
  undeclared; intros s e H; discriminate H.
Qed.

(** ** The two overridden [ReadValue] methods *)

Lemma CurrentTime_ReadValue_run (self : Characteristic.t) (w : World)
    (options : props) :
  datetime.valid (clock (platform w)) ->
  CurrentTimeCharacteristic.ReadValue options (self, w) =
  let w1 :=
    add_log (LogRecord (Characteristic.logger self) DEBUG "CT: {}"
               [VDatetime (clock (platform w))])
      (set_time (zone_timezone (platform w)) (zone_altzone (platform w)) w) in
  match options !! "device" with
  | Some device =>
      (Ok (spec_current_time (clock (platform w))),
       (self,
        add_log (LogRecord (Characteristic.logger self) INFO
                   "Supplying time to {}" [device]) w1))
  | None => (Raise (KeyError "device"), (self, w1))
  end.
Proof.
  intros Hv. unfold CurrentTimeCharacteristic.ReadValue, bind.
  rewrite current_time_bytes_run by assumption.
  unfold get_self, lift_result, getitem, in_world, logging, modify, ret.
  cbn [fst snd]. destruct (options !! "device"); reflexivity.
Qed.

Lemma LocalTimeInformation_ReadValue_run (self : Characteristic.t) (w : World)
    (options : props) :
  let tz := - zone_timezone (platform w) in
  let dst := - zone_altzone (platform w) - tz in
  -128 <= Z.quot tz 900 <= 127 ->
  0 <= Z.quot dst 900 <= 255 ->
  LocalTimeInformationCharacteristic.ReadValue options (self, w) =
  let w1 :=
    add_log (LogRecord (Characteristic.logger self) DEBUG
               "LTI: TZ offset = {} ({:+d}); DST offset = {} ({:+d})"
               [VTimedelta (tz * 1000000); VInt (Z.quot tz 900);
                VTimedelta (dst * 1000000); VInt (Z.quot dst 900)])
      (set_time (zone_timezone (platform w)) (zone_altzone (platform w)) w) in
  match options !! "device" with
  | Some device =>
      (Ok [Z.quot tz 900 mod 256; Z.quot dst 900],
       (self,
        add_log (LogRecord (Characteristic.logger self) INFO
                   "Supplying local time information to {}" [device]) w1))
  | None => (Raise (KeyError "device"), (self, w1))
  end.
Proof.
  intros tz dst Htz Hdst.
  unfold LocalTimeInformationCharacteristic.ReadValue, bind.
  rewrite local_time_information_bytes_run by assumption.
  unfold get_self, lift_result, getitem, in_world, logging, modify, ret.
  cbn [fst snd]. destruct (options !! "device"); reflexivity.
Qed.

Lemma friday_afternoon_valid : datetime.valid friday_afternoon.
Proof. unfold datetime.valid. repeat split; vm_compute; discriminate. Qed.

(** C1.  When the local clock reads 2024-03-15T14:30:45.500000, a Friday
    (ISO weekday 5), [CurrentTimeCharacteristic.ReadValue], called with
    options that name the requesting device, returns the ten bytes
    0xE8, 0x07, 3, 15, 14, 30, 45, 5, 128, 1, whatever the state of the
    characteristic and of the rest of the process. *)
Theorem C1_current_time_read_value_example
    (self : Characteristic.t) (w : World) (options : props)
    (device : py_value) :
  clock (platform w) = friday_afternoon ->
  options !! "device" = Some device ->
  fst (CurrentTimeCharacteristic.ReadValue options (self, w))
    = Ok [232; 7; 3; 15; 14; 30; 45; 5; 128; 1]
  /\ datetime.isoweekday friday_afternoon = 5
  /\ 232 + 256 * 7 = datetime.year friday_afternoon.
Proof.
  intros Hc Hd. split; [|split; reflexivity].
  rewrite CurrentTime_ReadValue_run
    by (rewrite Hc; apply friday_afternoon_valid).
  cbv zeta. rewrite Hd, Hc. reflexivity.
Qed.

Lemma C1_current_time_read_value_example_witness :
  clock (platform (boot host_plain)) = friday_afternoon
  /\ peer_options !! "device"
     = Some (VObjectPath "/org/bluez/hci0/dev_00_11_22_33_44_55")
  /\ fst (CurrentTimeCharacteristic.ReadValue peer_options
            (current_time_chrc, boot host_plain))
     = Ok [232; 7; 3; 15; 14; 30; 45; 5; 128; 1].
Proof.
  split; [reflexivity|]. split; [reflexivity|].
  apply (C1_current_time_read_value_example current_time_chrc
           (boot host_plain) peer_options
           (VObjectPath "/org/bluez/hci0/dev_00_11_22_33_44_55"));
    reflexivity.
Defined.

(** C2.  For every microsecond value [m] in 0..999999, the binary64
    computation [int((m * 1e-6) * 256)] yields exactly
    [floor (m * 256 / 1000000)], that value lies in 0..255, and it is the
    ninth byte (index 8) of the payload that [current_time_bytes] builds
    when the clock holds [m] microseconds. *)
Theorem C2_fraction_byte (m : Z) :
  0 <= m <= 999999 ->
  CurrentTimeCharacteristic.fraction_256 m = Ok (m * 256 / 1000000)
  /\ 0 <= m * 256 / 1000000 <= 255
  /\ forall (self : Characteristic.t) (w : World),
       datetime.valid (clock (platform w)) ->
       datetime.microsecond (clock (platform w)) = m ->
       exists value,
         fst (CurrentTimeCharacteristic.current_time_bytes (self, w))
           = Ok value
         /\ value !! 8%nat = Some (m * 256 / 1000000).
Proof.
  intros Hm. split; [apply fraction_256_spec; exact Hm|].
  split; [apply fraction_range; exact Hm|].
  intros self w Hv Hus.
  rewrite current_time_bytes_run by assumption.
  eexists. split; [reflexivity|]. rewrite Hus. reflexivity.
Qed.

Lemma C2_fraction_byte_witness :
  0 <= 999999 <= 999999
  /\ CurrentTimeCharacteristic.fraction_256 999999 = Ok 255.
Proof.
  split; [lia|].
  exact (proj1 (C2_fraction_byte 999999 ltac:(lia))).
Defined.

(** C3, the failing input.  On a host at UTC+2:00 whose zone has a DST
    variant of +1h, read while DST is not in effect, the total current
    offset equals the base offset, so the DST byte is to be 0 and the
    payload [8, 0]; the method returns [8, 4]. *)
Lemma C3_counterexample :
  zone_timezone host_winter = -7200
  /\ zone_isdst host_winter = false
  /\ spec_local_time_information host_winter = [8; 0]
  /\ fst (LocalTimeInformationCharacteristic.ReadValue peer_options
            (local_time_chrc, boot host_winter)) = Ok [8; 4]
  /\ fst (LocalTimeInformationCharacteristic.ReadValue peer_options
            (local_time_chrc, boot host_winter))
     <> Ok (spec_local_time_information host_winter).
Proof.
  assert (E : fst (LocalTimeInformationCharacteristic.ReadValue peer_options
                     (local_time_chrc, boot host_winter)) = Ok [8; 4]).
  { rewrite LocalTimeInformation_ReadValue_run;
      [reflexivity | vm_compute; split; discriminate
      | vm_compute; split; discriminate]. }
  repeat split; try reflexivity; try exact E.
  rewrite E. discriminate.
Qed.

(** C3, what the program does.
    [LocalTimeInformationCharacteristic.ReadValue] returns exactly two
    bytes whenever the two quantities fit their fields: byte 1 is the zone's
    base UTC offset in 15-minute units, truncated toward zero and stored as
    a signed 8-bit value; byte 2 is computed from [time.altzone], the
    offset of the zone's DST variant, minus the base offset, in 15-minute
    units, and the method never looks at whether DST is in effect.  For a
    zone at UTC+2:00 without a DST variant the result is [8, 0]; for one
    whose DST variant adds one hour it is [8, 4] all year, in winter
    too. *)
Theorem C3_local_time_information_read_value
    (self : Characteristic.t) (w : World) (options : props)
    (device : py_value) :
  let tz := - zone_timezone (platform w) in
  let dst := - zone_altzone (platform w) - tz in
  options !! "device" = Some device ->
  -128 <= Z.quot tz 900 <= 127 ->
  0 <= Z.quot dst 900 <= 255 ->
  fst (LocalTimeInformationCharacteristic.ReadValue options (self, w))
    = Ok [Z.quot tz 900 mod 256; Z.quot dst 900]
  /\ (zone_timezone (platform w) = -7200 ->
      zone_altzone (platform w) = -7200 ->
      fst (LocalTimeInformationCharacteristic.ReadValue options (self, w))
        = Ok [8; 0])
  /\ (zone_timezone (platform w) = -7200 ->
      zone_altzone (platform w) = -10800 ->
      fst (LocalTimeInformationCharacteristic.ReadValue options (self, w))
        = Ok [8; 4]).
Proof.
  intros tz dst Hd Htz Hdst.
  assert (E : fst (LocalTimeInformationCharacteristic.ReadValue options
                     (self, w)) = Ok [Z.quot tz 900 mod 256; Z.quot dst 900]).
  { rewrite LocalTimeInformation_ReadValue_run by assumption.
    cbv zeta. rewrite Hd. reflexivity. }
  split; [exact E|].
  split; intros H1 H2; rewrite E; unfold dst, tz; rewrite H1, H2; reflexivity.
Qed.

Lemma C3_local_time_information_read_value_witness :
  zone_isdst host_summer = true
  /\ fst (LocalTimeInformationCharacteristic.ReadValue peer_options
            (local_time_chrc, boot host_summer)) = Ok [8; 4].
Proof.
  split; [reflexivity|].
  refine (proj1 (C3_local_time_information_read_value local_time_chrc
                   (boot host_summer) peer_options
                   (VObjectPath "/org/bluez/hci0/dev_00_11_22_33_44_55")
                   _ _ _)).
  - reflexivity.
  - vm_compute; split; discriminate.
  - vm_compute; split; discriminate.
Defined.

Lemma CurrentTime_ReadValue_fails (options : props) :
  options !! "device" = None ->
  fails_undeclared (CurrentTimeCharacteristic.ReadValue options).
Proof.
  intros H. unfold CurrentTimeCharacteristic.ReadValue.
  apply fails_bind; [apply current_time_bytes_undeclared|]. intros v.
  apply fails_bind; [apply undeclared_get_self|]. intros o s.
  unfold bind, lift_result, getitem. rewrite H.
  eexists. split; reflexivity.
Qed.

Lemma LocalTimeInformation_ReadValue_fails (options : props) :
  options !! "device" = None ->
  fails_undeclared (LocalTimeInformationCharacteristic.ReadValue options).
Proof.
  intros H. unfold LocalTimeInformationCharacteristic.ReadValue.
  apply fails_bind; [apply local_time_information_bytes_undeclared|].
  intros v.
  apply fails_bind; [apply undeclared_get_self|]. intros o s.
  unfold bind, lift_result, getitem. rewrite H.
  eexists. split; reflexivity.
Qed.

(** C10.  When the options carry no key ['device'], both overridden
    [ReadValue] methods fail, and the error is never one of the five
    declared kinds.  Whenever the payload can be encoded (a valid clock
    value; zone offsets that fit their fields) the error is the missing-key
    exception for ['device'], raised after the payload was built: the debug
    record that ends the encoder is the last entry of the log, and the
    object is unchanged. *)
Theorem C10_read_value_without_device_key
    (self : Characteristic.t) (w : World) (options : props) :
  options !! "device" = None ->
  (exists e,
     fst (CurrentTimeCharacteristic.ReadValue options (self, w)) = Raise e
     /\ declared_error e = false)
  /\ (exists e,
        fst (LocalTimeInformationCharacteristic.ReadValue options (self, w))
          = Raise e
        /\ declared_error e = false)
  /\ (datetime.valid (clock (platform w)) ->
      exists w',
        CurrentTimeCharacteristic.ReadValue options (self, w)
          = (Raise (KeyError "device"), (self, w'))
        /\ last (log w')
           = Some (LogRecord (Characteristic.logger self) DEBUG "CT: {}"
                     [VDatetime (clock (platform w))]))
  /\ (-128 <= Z.quot (- zone_timezone (platform w)) 900 <= 127 ->
      0 <= Z.quot (- zone_altzone (platform w)
                   - - zone_timezone (platform w)) 900 <= 255 ->
      exists w' fields,
        LocalTimeInformationCharacteristic.ReadValue options (self, w)
          = (Raise (KeyError "device"), (self, w'))
        /\ last (log w')
           = Some (LogRecord (Characteristic.logger self) DEBUG
                     "LTI: TZ offset = {} ({:+d}); DST offset = {} ({:+d})"
                     fields))
  /\ declared_error (KeyError "device") = false.
Proof.
  intros H. repeat split.
  - apply (CurrentTime_ReadValue_fails options H (self, w)).
  - apply (LocalTimeInformation_ReadValue_fails options H (self, w)).
  - intros Hv. rewrite CurrentTime_ReadValue_run by assumption.
    cbv zeta. rewrite H. eexists. split; [reflexivity|].
    cbn [log add_log]. apply last_snoc.
  - intros Htz Hdst.
    rewrite LocalTimeInformation_ReadValue_run by assumption.
    cbv zeta. rewrite H. eexists. eexists. split; [reflexivity|].
    cbn [log add_log]. apply last_snoc.
Qed.

Lemma C10_read_value_without_device_key_witness :
  (∅ : props) !! "device" = None
  /\ fst (CurrentTimeCharacteristic.ReadValue ∅
            (current_time_chrc, boot host_plain)) = Raise (KeyError "device")
  /\ fst (LocalTimeInformationCharacteristic.ReadValue ∅
            (local_time_chrc, boot host_plain)) = Raise (KeyError "device").
Proof.
  split; [reflexivity|].
  pose proof (C10_read_value_without_device_key current_time_chrc
                (boot host_plain) ∅ eq_refl) as (_ & _ & Hct & _).
  pose proof (C10_read_value_without_device_key local_time_chrc
                (boot host_plain) ∅ eq_refl) as (_ & _ & _ & Hlti & _).
  split.
  - destruct (Hct friday_afternoon_valid) as (w' & E & _).
    rewrite E. reflexivity.
  - destruct Hlti as (w' & fields & E & _); [vm_compute; split; discriminate
      | vm_compute; split; discriminate |].
    rewrite E. reflexivity.
Defined.

(** ** Property exposition: [GetAll] *)

Lemma foldl_snoc_fmap {A B} (g : A -> B) (l : list A) (acc : list B) :
  foldl (fun result x => result ++ [g x]) acc l = acc ++ (g <$> l).
Proof.
  revert acc. induction l as [|x l IH]; intros acc; cbn [foldl fmap list_fmap].
  - rewrite app_nil_r. reflexivity.
  - rewrite IH, <- app_assoc. reflexivity.
Qed.

(** C6.  For a Service, a Characteristic and a Descriptor alike, [GetAll]
    fails with [InvalidArgs] exactly when the queried interface name
    differs from the single interface that the node declares; when the name
    matches, the call succeeds and returns the property mapping stored
    under that interface in [get_properties], and leaves the node and the
    world unchanged.  That mapping holds the properties of the node and
    nothing else: for a service its UUID, whether it is primary and the
    paths of its characteristics in order; for a characteristic the path of
    its service, its UUID, its flags and the paths of its descriptors in
    order; for a descriptor the path of its characteristic, its UUID and
    its flags. *)
Theorem C6_get_all (s : Service.t) (c : Characteristic.t) (d : Descriptor.t)
    (interface : string) (w : World) :
  ((fst (Service.GetAll interface (s, w)) = Raise InvalidArgsException
    <-> interface <> GATT_SERVICE_IFACE)
   /\ dom (Service.get_properties s) = {[ GATT_SERVICE_IFACE ]}
   /\ (interface = GATT_SERVICE_IFACE ->
       exists p, Service.get_properties s !! interface = Some p
                 /\ Service.GetAll interface (s, w) = (Ok p, (s, w))
                 /\ dom p = {[ "UUID"; "Primary"; "Characteristics" ]}
                 /\ p !! "UUID" = Some (VStr (Service.uuid s))
                 /\ p !! "Primary" = Some (VBool (Service.primary s))
                 /\ p !! "Characteristics"
                    = Some (VPathArray
                              (Characteristic.path
                                 <$> Service.characteristics s))))
  /\ ((fst (Characteristic.GetAll interface (c, w)) = Raise InvalidArgsException
       <-> interface <> GATT_CHRC_IFACE)
      /\ dom (Characteristic.get_properties c) = {[ GATT_CHRC_IFACE ]}
      /\ (interface = GATT_CHRC_IFACE ->
          exists p, Characteristic.get_properties c !! interface = Some p
                    /\ Characteristic.GetAll interface (c, w) = (Ok p, (c, w))
                    /\ dom p = {[ "Service"; "UUID"; "Flags"; "Descriptors" ]}
                    /\ p !! "Service"
                       = Some (VObjectPath (Characteristic.service c))
                    /\ p !! "UUID" = Some (VStr (Characteristic.uuid c))
                    /\ p !! "Flags" = Some (VStrList (Characteristic.flags c))
                    /\ p !! "Descriptors"
                       = Some (VPathArray
                                 (Descriptor.path
                                    <$> Characteristic.descriptors c))))
  /\ ((fst (Descriptor.GetAll interface (d, w)) = Raise InvalidArgsException
       <-> interface <> GATT_DESC_IFACE)
      /\ dom (Descriptor.get_properties d) = {[ GATT_DESC_IFACE ]}
      /\ (interface = GATT_DESC_IFACE ->
          exists p, Descriptor.get_properties d !! interface = Some p
                    /\ Descriptor.GetAll interface (d, w) = (Ok p, (d, w))
                    /\ dom p = {[ "Characteristic"; "UUID"; "Flags" ]}
                    /\ p !! "Characteristic"
                       = Some (VObjectPath (Descriptor.chrc d))
                    /\ p !! "UUID" = Some (VStr (Descriptor.uuid d))
                    /\ p !! "Flags" = Some (VStrList (Descriptor.flags d)))).
Proof.
  split; [|split].
  - unfold Service.GetAll, Service.get_properties, bind, get_self,
      lift_result, raise, getitem. cbn [fst snd].
    split; [|split].
    + destruct (String.eqb_spec interface GATT_SERVICE_IFACE) as [->|Hne];
        cbn [negb fst].
      * rewrite lookup_singleton_eq. split; [discriminate|congruence].
      * split; [intros _; exact Hne|reflexivity].
    + apply dom_singleton_L.
    + intros ->. rewrite String.eqb_refl. cbn [negb].
      rewrite lookup_singleton_eq. eexists.
      split; [reflexivity|]. split; [reflexivity|].
      unfold Service.get_characteristic_paths. rewrite foldl_snoc_fmap.
      split; [rewrite !dom_insert_L, dom_empty_L; set_solver|].
      split; [apply lookup_insert_eq|].
      split; [rewrite lookup_insert_ne by discriminate;
              apply lookup_insert_eq|].
      rewrite !lookup_insert_ne by discriminate. apply lookup_insert_eq.
  - unfold Characteristic.GetAll, Characteristic.get_properties, bind,
      get_self, lift_result, raise, getitem. cbn [fst snd].
    split; [|split].
    + destruct (String.eqb_spec interface GATT_CHRC_IFACE) as [->|Hne];
        cbn [negb fst].
      * rewrite lookup_singleton_eq. split; [discriminate|congruence].
      * split; [intros _; exact Hne|reflexivity].
    + apply dom_singleton_L.
    + intros ->. rewrite String.eqb_refl. cbn [negb].
      rewrite lookup_singleton_eq. eexists.
      split; [reflexivity|]. split; [reflexivity|].
      unfold Characteristic.get_descriptor_paths. rewrite foldl_snoc_fmap.
      split; [rewrite !dom_insert_L, dom_empty_L; set_solver|].
      split; [apply lookup_insert_eq|].
      split; [rewrite lookup_insert_ne by discriminate;
              apply lookup_insert_eq|].
      split; [rewrite !lookup_insert_ne by discriminate;
              apply lookup_insert_eq|].
      rewrite !lookup_insert_ne by discriminate. apply lookup_insert_eq.
  - unfold Descriptor.GetAll, Descriptor.get_properties, bind,
      get_self, lift_result, raise, getitem. cbn [fst snd].
    split; [|split].
    + destruct (String.eqb_spec interface GATT_DESC_IFACE) as [->|Hne];
        cbn [negb fst].
      * rewrite lookup_singleton_eq. split; [discriminate|congruence].
      * split; [intros _; exact Hne|reflexivity].
    + apply dom_singleton_L.
    + intros ->. rewrite String.eqb_refl. cbn [negb].
      rewrite lookup_singleton_eq. eexists.
      split; [reflexivity|]. split; [reflexivity|].
      split; [rewrite !dom_insert_L, dom_empty_L; set_solver|].
      split; [apply lookup_insert_eq|].
      split; [rewrite lookup_insert_ne by discriminate;
              apply lookup_insert_eq|].
      rewrite !lookup_insert_ne by discriminate. apply lookup_insert_eq.
Qed.

Lemma C6_get_all_witness :
  fst (Characteristic.GetAll GATT_SERVICE_IFACE
         (current_time_chrc, boot host_plain)) = Raise InvalidArgsException
  /\ exists p,
       Characteristic.GetAll GATT_CHRC_IFACE
         (current_time_chrc, boot host_plain)
       = (Ok p, (current_time_chrc, boot host_plain))
       /\ p !! "Service" = Some (VObjectPath "/org/bluez/example/service0")
       /\ p !! "UUID" = Some (VStr "2a2B")
       /\ p !! "Flags" = Some (VStrList ["read"; "notify"])
       /\ p !! "Descriptors" = Some (VPathArray []).
Proof.
  pose proof (C6_get_all (Service.__init__ 0 "1805" true) current_time_chrc
                (Descriptor.__init__ 0 "2901" ["read"] "/c")
                GATT_SERVICE_IFACE (boot host_plain))
    as (_ & (Hiff & _) & _).
  pose proof (C6_get_all (Service.__init__ 0 "1805" true) current_time_chrc
                (Descriptor.__init__ 0 "2901" ["read"] "/c")
                GATT_CHRC_IFACE (boot host_plain))
    as (_ & (_ & _ & Hok) & _).
  split.
  - apply Hiff. discriminate.
  - destruct (Hok eq_refl) as (p & _ & E & _ & Hs & Hu & Hf & Hd).
    exists p. repeat split; assumption.
Defined.

(** ** Default methods *)

(** C7.  A call of ReadValue, WriteValue, StartNotify or StopNotify on a
    characteristic whose class does not override the method reaches the
    definition in [Characteristic]: it logs one error record and fails with
    [NotSupported], leaving the object unchanged.  The same holds for the
    two methods that [Descriptor] defines, ReadValue and WriteValue. *)
Theorem C7_default_methods (self : Characteristic.t) (d : Descriptor.t)
    (c : call) (w : World) :
  (overrides (Characteristic.cls self) (name_of c) = false ->
   exists text,
     invoke c (self, w)
     = (Raise NotSupportedException,
        (self, add_log (LogRecord (Characteristic.logger self) ERROR text [])
                 w)))
  /\ (name_of c = ReadValue_name \/ name_of c = WriteValue_name ->
      exists text,
        invoke_descriptor c (d, w)
        = (Raise NotSupportedException,
           (d, add_log (LogRecord (Descriptor.logger d) ERROR text []) w))).
Proof.
  split.
  - intros Hov. unfold invoke, bind, get_self. cbn [fst snd].
    destruct self as [cl p u sv fl ds lg nt].
    cbn [Characteristic.cls Characteristic.logger] in *.
    destruct cl, c; cbn in Hov; try discriminate Hov;
      cbn [resolve defines base name_of body];
      eexists; reflexivity.
  - intros Hn. destruct c; cbn in Hn;
      try (destruct Hn; discriminate);
      eexists; reflexivity.
Qed.

Lemma C7_default_methods_witness :
  overrides CurrentTimeCharacteristic_class WriteValue_name = false
  /\ fst (invoke (WriteValue_call [1] peer_options)
            (current_time_chrc, boot host_plain))
     = Raise NotSupportedException
  /\ fst (invoke_descriptor (ReadValue_call peer_options)
            (Descriptor.__init__ 0 "2901" ["read"]
               "/org/bluez/example/service0/char0", boot host_plain))
     = Raise NotSupportedException.
Proof.
  split; [reflexivity|].
  pose proof (C7_default_methods current_time_chrc
                (Descriptor.__init__ 0 "2901" ["read"]
                   "/org/bluez/example/service0/char0")
                (WriteValue_call [1] peer_options) (boot host_plain))
    as [H1 _].
  pose proof (C7_default_methods current_time_chrc
                (Descriptor.__init__ 0 "2901" ["read"]
                   "/org/bluez/example/service0/char0")
                (ReadValue_call peer_options) (boot host_plain))
    as [_ H2].
  split.
  - destruct (H1 eq_refl) as [text E]. rewrite E. reflexivity.
  - destruct (H2 (or_introl eq_refl)) as [text E]. rewrite E. reflexivity.
Defined.

(** ** Start-up without a GATT manager *)

Lemma find_adapter_none (w : World) :
  Forall (fun o => ~ In GATT_MANAGER_IFACE (snd o))
    (bus_objects (platform w)) ->
  Server.find_adapter w = (Ok None, w).
Proof.
  intros H. unfold Server.find_adapter, bind, get, ret.
  replace (List.find
             (fun o => existsb (String.eqb GATT_MANAGER_IFACE) (snd o))
             (bus_objects (platform w))) with (@None (string * list string));
    [reflexivity|].
  symmetry. induction H as [|o l Ho _ IH]; [reflexivity|].
  cbn [List.find].
  destruct (existsb (String.eqb GATT_MANAGER_IFACE) (snd o)) eqn:E;
    [|exact IH].
  exfalso. apply Ho. apply existsb_exists in E.
  destruct E as (x & Hin & Hx). apply String.eqb_eq in Hx. subst x.
  exact Hin.
Qed.

(** C8, what the program does.  When no enumerated object has the GATT
    manager interface, [Server.__init__] logs one error and returns before
    it assigns [mainloop]; [run] then raises [AttributeError], which nothing
    catches.  No application is registered and the main loop is never
    entered. *)
Theorem C8_no_gatt_manager (notify_period : option Z) (w : World) :
  Forall (fun o => ~ In GATT_MANAGER_IFACE (snd o))
    (bus_objects (platform w)) ->
  main notify_period w
  = (Raise (AttributeError "mainloop"),
     add_log (LogRecord "root" ERROR "GattManager1 interface not found" []) w)
  /\ mainloop_runs (snd (main notify_period w)) = mainloop_runs w
  /\ registrations (snd (main notify_period w)) = registrations w
  /\ declared_error (AttributeError "mainloop") = false.
Proof.
  intros H.
  assert (E : main notify_period w
              = (Raise (AttributeError "mainloop"),
                 add_log (LogRecord "root" ERROR
                            "GattManager1 interface not found" []) w)).
  { unfold main, Server.__init__, bind.
    rewrite find_adapter_none by assumption. reflexivity. }
  rewrite E. repeat split.
Qed.

Lemma C8_no_gatt_manager_witness :
  Forall (fun o => ~ In GATT_MANAGER_IFACE (snd o))
    (bus_objects (platform (boot host_no_manager)))
  /\ fst (main None (boot host_no_manager))
     = Raise (AttributeError "mainloop").
Proof.
  assert (H : Forall (fun o => ~ In GATT_MANAGER_IFACE (snd o))
                (bus_objects (platform (boot host_no_manager)))).
  { repeat constructor. cbn. intros [H|[H|[]]]; discriminate H. }
  split; [exact H|].
  rewrite (proj1 (C8_no_gatt_manager None (boot host_no_manager) H)).
  reflexivity.
Defined.

(** ** What a method leaves unchanged in its object *)

Section Keeps.

Context {Self : Type} (R : Self -> Self -> Prop).
Hypothesis R_refl : forall o, R o o.
Hypothesis R_trans : forall a b c, R a b -> R b c -> R a c.

Lemma keeps_ret {A} (a : A) : keeps R (ret a).
Proof. intros o w. apply R_refl. Qed.

Lemma keeps_raise {A} (e : exn) : keeps R (raise e : method Self A).
Proof. intros o w. apply R_refl. Qed.

Lemma keeps_lift_result {A} (r : result A) : keeps R (lift_result r).
Proof. intros o w. apply R_refl. Qed.

Lemma keeps_get_self : keeps R get_self.
Proof. intros o w. apply R_refl. Qed.

Lemma keeps_in_world {A} (m : M World A) : keeps R (in_world m).
Proof.
  intros o w. unfold in_world. cbn [fst snd].
  destruct (m w) as [r w']. apply R_refl.
Qed.

Lemma keeps_set_self (o' : Self) :
  (forall o, R o o') -> keeps R (set_self o').
Proof. intros H o w. apply H. Qed.

Lemma keeps_bind {A B} (m : method Self A) (k : A -> method Self B) :
  keeps R m -> (forall a, keeps R (k a)) -> keeps R (bind m k).
Proof.
  intros Hm Hk o w. unfold bind.
  specialize (Hm o w). destruct (m (o, w)) as [[a|e] [o' w']];
    cbn [fst snd] in *.
  - apply R_trans with o'; [exact Hm|apply Hk].
  - exact Hm.
Qed.

End Keeps.

Ltac keeps_eq :=
  repeat first
    [ assumption
    | match goal with H : forall _, keeps eq _ |- _ => apply H end
    | apply (keeps_bind eq (@eq_trans _)); [|intros ?]
    | apply (keeps_ret eq (@eq_refl _))
    | apply (keeps_raise eq (@eq_refl _))
    | apply (keeps_lift_result eq (@eq_refl _))
    | apply (keeps_get_self eq (@eq_refl _))
    | apply (keeps_in_world eq (@eq_refl _)) ].

Lemma Bytes_keeps {Self} (l : list Z) :
  keeps (@eq Self) (CurrentTimeCharacteristic.Bytes l).
Proof.
  induction l as [|b l IH]; cbn [CurrentTimeCharacteristic.Bytes]; keeps_eq.
Qed.

Lemma current_time_bytes_keeps :
  keeps eq CurrentTimeCharacteristic.current_time_bytes.
Proof.
  unfold CurrentTimeCharacteristic.current_time_bytes,
    CurrentTimeCharacteristic.append_Byte.
  keeps_eq; apply Bytes_keeps.
Qed.

Lemma local_time_information_bytes_keeps :
  keeps eq LocalTimeInformationCharacteristic.local_time_information_bytes.
Proof.
  unfold LocalTimeInformationCharacteristic.local_time_information_bytes.
  keeps_eq.
Qed.

Lemma get_notifying_keeps : keeps eq CurrentTimeCharacteristic.get_notifying.
Proof.
  unfold CurrentTimeCharacteristic.get_notifying.
  apply (keeps_bind eq (@eq_trans _)); [keeps_eq|].
  intros o. destruct (Characteristic.notifying o); keeps_eq.
Qed.

Lemma CurrentTime_ReadValue_keeps (options : props) :
  keeps eq (CurrentTimeCharacteristic.ReadValue options).
Proof.
  unfold CurrentTimeCharacteristic.ReadValue.
  pose proof current_time_bytes_keeps. keeps_eq.
Qed.

Lemma LocalTimeInformation_ReadValue_keeps (options : props) :
  keeps eq (LocalTimeInformationCharacteristic.ReadValue options).
Proof.
  unfold LocalTimeInformationCharacteristic.ReadValue.
  pose proof local_time_information_bytes_keeps. keeps_eq.
Qed.

Lemma notify_current_time_keeps :
  keeps eq CurrentTimeCharacteristic.notify_current_time.
Proof.
  unfold CurrentTimeCharacteristic.notify_current_time.
  apply (keeps_bind eq (@eq_trans _)); [apply get_notifying_keeps|].
  intros b. destruct b; cbn [negb]; [|keeps_eq].
  unfold Characteristic.PropertiesChanged.
  pose proof current_time_bytes_keeps. keeps_eq.
Qed.

Lemma notify_time_keeps : keeps eq CurrentTimeCharacteristic.notify_time.
Proof.
  unfold CurrentTimeCharacteristic.notify_time.
  apply (keeps_bind eq (@eq_trans _)); [apply get_notifying_keeps|].
  intros b. destruct b; cbn [negb]; [|keeps_eq].
  pose proof notify_current_time_keeps. keeps_eq.
Qed.

Lemma Characteristic_GetAll_keeps (interface : string) :
  keeps eq (Characteristic.GetAll interface).
Proof.
  unfold Characteristic.GetAll.
  apply (keeps_bind eq (@eq_trans _)); [keeps_eq|].
  intros o. destruct (negb _); keeps_eq.
Qed.

Lemma body_keeps (d : chrc_class) (c : call) :
  name_of c <> StartNotify_name -> name_of c <> StopNotify_name ->
  keeps eq (body d c).
Proof.
  intros H1 H2.
  pose proof CurrentTime_ReadValue_keeps.
  pose proof LocalTimeInformation_ReadValue_keeps.
  destruct d, c; cbn in H1, H2; try congruence; cbn [body];
    unfold Characteristic.ReadValue, Characteristic.WriteValue;
    keeps_eq.
Qed.

Lemma invoke_keeps (c : call) :
  name_of c <> StartNotify_name -> name_of c <> StopNotify_name ->
  keeps eq (invoke c).
Proof.
  intros H1 H2. unfold invoke.
  apply (keeps_bind eq (@eq_trans _)); [keeps_eq|].
  intros o. destruct (resolve _ _); [apply body_keeps; assumption|keeps_eq].
Qed.

Lemma same_static_refl (c : Characteristic.t) : same_static c c.
Proof. unfold same_static. tauto. Qed.

Lemma same_static_trans (a b c : Characteristic.t) :
  same_static a b -> same_static b c -> same_static a c.
Proof. unfold same_static. intuition congruence. Qed.

Lemma same_static_eq (a b : Characteristic.t) : a = b -> same_static a b.
Proof. intros ->. apply same_static_refl. Qed.

Lemma same_static_set_notifying (b : bool) (c : Characteristic.t) :
  same_static c (Characteristic.set_notifying b c).
Proof. unfold same_static. cbn. tauto. Qed.

Lemma keeps_weaken {Self A} (R R' : Self -> Self -> Prop)
    (m : method Self A) :
  (forall a b, R a b -> R' a b) -> keeps R m -> keeps R' m.
Proof. intros H Hm o w. apply H, Hm. Qed.

Lemma StartNotify_keeps :
  keeps same_static CurrentTimeCharacteristic.StartNotify.
Proof.
  unfold CurrentTimeCharacteristic.StartNotify.
  apply (keeps_bind _ same_static_trans);
    [apply (keeps_weaken eq); [apply same_static_eq|apply get_notifying_keeps]|].
  intros b. destruct b.
  - apply (keeps_weaken eq); [apply same_static_eq|]. keeps_eq.
  - intros o w. cbn. apply same_static_set_notifying.
Qed.

Lemma StopNotify_keeps :
  keeps same_static CurrentTimeCharacteristic.StopNotify.
Proof.
  unfold CurrentTimeCharacteristic.StopNotify.
  apply (keeps_bind _ same_static_trans);
    [apply (keeps_weaken eq); [apply same_static_eq|apply get_notifying_keeps]|].
  intros b. destruct b; cbn [negb].
  - intros o w. cbn. apply same_static_set_notifying.
  - apply (keeps_weaken eq); [apply same_static_eq|]. keeps_eq.
Qed.

Lemma invoke_keeps_static (c : call) : keeps same_static (invoke c).
Proof.
  destruct (name_of c) eqn:En.
  1,2: apply (keeps_weaken eq); [apply same_static_eq|];
       apply invoke_keeps; congruence.
  - unfold invoke.
    apply (keeps_bind _ same_static_trans);
      [apply (keeps_weaken eq); [apply same_static_eq|keeps_eq]|].
    intros o. destruct c; try discriminate En.
    destruct (Characteristic.cls o); cbn [resolve defines base name_of body].
    + apply (keeps_weaken eq); [apply same_static_eq|].
      unfold Characteristic.StartNotify. keeps_eq.
    + apply (keeps_bind _ same_static_trans); [apply StartNotify_keeps|].
      intros ?. apply (keeps_ret _ same_static_refl).
    + apply (keeps_weaken eq); [apply same_static_eq|].
      unfold Characteristic.StartNotify. keeps_eq.
  - unfold invoke.
    apply (keeps_bind _ same_static_trans);
      [apply (keeps_weaken eq); [apply same_static_eq|keeps_eq]|].
    intros o. destruct c; try discriminate En.
    destruct (Characteristic.cls o); cbn [resolve defines base name_of body].
    + apply (keeps_weaken eq); [apply same_static_eq|].
      unfold Characteristic.StopNotify. keeps_eq.
    + apply (keeps_bind _ same_static_trans); [apply StopNotify_keeps|].
      intros ?. apply (keeps_ret _ same_static_refl).
    + apply (keeps_weaken eq); [apply same_static_eq|].
      unfold Characteristic.StopNotify. keeps_eq.
Qed.

(** ** Requests and the tree *)

Lemma index_where_Some {A} (f : A -> bool) (l : list A) (j : nat) :
  index_where f l = Some j -> exists x, l !! j = Some x /\ f x = true.
Proof.
  revert j. induction l as [|x l IH]; intros j; cbn [index_where].
  - discriminate.
  - destruct (f x) eqn:Ex.
    + intros [= <-]. exists x. split; [reflexivity|exact Ex].
    + destruct (index_where f l) as [j'|]; cbn; [|discriminate].
      intros [= <-]. destruct (IH j' eq_refl) as (y & Hy & Hf).
      exists y. split; [exact Hy|exact Hf].
Qed.

Lemma find_chrc_in_Some (ss : list Service.t) (p : string) (i : nat)
    (ij : nat * nat) :
  find_chrc_in ss p i = Some ij ->
  exists s c, (i <= fst ij)%nat
              /\ ss !! (fst ij - i)%nat = Some s
              /\ Service.characteristics s !! snd ij = Some c
              /\ Characteristic.path c = p.
Proof.
  revert i. induction ss as [|s ss IH]; intros i; cbn [find_chrc_in].
  - discriminate.
  - destruct (index_where _ (Service.characteristics s)) as [j|] eqn:Ej.
    + intros [= <-]. apply index_where_Some in Ej.
      destruct Ej as (c & Hc & Hp). apply String.eqb_eq in Hp.
      exists s, c. cbn [fst snd]. rewrite Nat.sub_diag.
      repeat split; [lia|exact Hc|exact Hp].
    + intros H. destruct (IH _ H) as (s' & c & Hle & Hs & Hc & Hp).
      exists s', c. repeat split; [lia| |exact Hc|exact Hp].
      replace (fst ij - i)%nat with (S (fst ij - S i)) by lia. exact Hs.
Qed.

Lemma find_chrc_Some (app : Application.t) (p : string) (ij : nat * nat) :
  find_chrc app p = Some ij ->
  exists c, get_chrc app ij = Some c /\ Characteristic.path c = p.
Proof.
  intros H. apply find_chrc_in_Some in H.
  destruct H as (s & c & _ & Hs & Hc & Hp).
  rewrite Nat.sub_0_r in Hs. exists c. unfold get_chrc. rewrite Hs.
  split; assumption.
Qed.

Lemma get_put_chrc (app : Application.t) (ij ij' : nat * nat)
    (c c' : Characteristic.t) :
  get_chrc app ij = Some c ->
  get_chrc (put_chrc app ij c') ij'
  = if decide (ij = ij') then Some c' else get_chrc app ij'.
Proof.
  destruct ij as [i j], ij' as [i' j']. unfold get_chrc, put_chrc.
  cbn [fst snd]. intros H.
  destruct (Application.services app !! i) as [s|] eqn:Es; [|discriminate].
  cbn [Application.services].
  pose proof (lookup_lt_Some _ _ _ Es) as Hi.
  pose proof (lookup_lt_Some _ _ _ H) as Hj.
  destruct (decide (i = i')) as [<-|Hne].
  - rewrite list_lookup_insert_eq by exact Hi. cbn [Service.characteristics].
    destruct (decide (j = j')) as [<-|Hne].
    + rewrite list_lookup_insert_eq by exact Hj.
      rewrite decide_True by reflexivity. reflexivity.
    + rewrite list_lookup_insert_ne by exact Hne.
      rewrite decide_False by congruence. rewrite Es. reflexivity.
  - rewrite list_lookup_insert_ne by exact Hne.
    rewrite decide_False by congruence. reflexivity.
Qed.

Lemma bind_ret_state {S A B} (m : M S A) (f : A -> B) (s : S) :
  snd (bind m (fun a => ret (f a)) s) = snd (m s).
Proof. unfold bind, ret. destruct (m s) as [[a|e] s']; reflexivity. Qed.

Lemma on_chrc_state {A} (ij : nat * nat) (m : method Characteristic.t A)
    (app : Application.t) (w : World) (c : Characteristic.t) :
  get_chrc app ij = Some c ->
  fst (snd (on_chrc ij m (app, w))) = put_chrc app ij (fst (snd (m (c, w)))).
Proof.
  intros H. unfold on_chrc. cbn [fst snd]. rewrite H.
  destruct (m (c, w)) as [r [c' w']]. reflexivity.
Qed.

Lemma on_const_state {O A} (o : O) (m : method O A) (app : Application.t)
    (w : World) :
  fst (snd (on_const o m (app, w))) = app.
Proof.
  unfold on_const. cbn [fst snd]. destruct (m (o, w)) as [r [o' w']].
  reflexivity.
Qed.

Lemma bind_get {S A} (k : S -> M S A) (s : S) : bind get k s = k s s.
Proof. reflexivity. Qed.

(** A request leaves the tree as it is or replaces one characteristic by a
    later state of the same object; the object differs from its earlier
    state only after a StartNotify or StopNotify addressed to its path. *)
Lemma handle_shape (r : request) (app : Application.t) (w : World) :
  fst (snd (handle r (app, w))) = app
  \/ exists ij c c',
       get_chrc app ij = Some c
       /\ fst (snd (handle r (app, w))) = put_chrc app ij c'
       /\ same_static c c'
       /\ (c' = c
           \/ exists cl, r = Method_req (Characteristic.path c) cl
                         /\ find_chrc app (Characteristic.path c) = Some ij
                         /\ (name_of cl = StartNotify_name
                             \/ name_of cl = StopNotify_name)).
Proof.
  unfold handle. rewrite bind_get. cbn [fst].
  destruct r as [|target interface|target cl|target].
  - left. reflexivity.
  - destruct (find_service app target) as [s|].
    { left. rewrite bind_ret_state. apply on_const_state. }
    destruct (find_chrc app target) as [ij|] eqn:Ef.
    + destruct (find_chrc_Some _ _ _ Ef) as (c & Hc & Hp).
      right. exists ij, c, c. split; [exact Hc|].
      rewrite bind_ret_state, (on_chrc_state _ _ _ _ c Hc).
      rewrite <- (Characteristic_GetAll_keeps interface c w).
      split; [reflexivity|]. split; [apply same_static_refl|].
      left. reflexivity.
    + destruct (find_desc app target) as [d|].
      * left. rewrite bind_ret_state. apply on_const_state.
      * left. reflexivity.
  - destruct (find_chrc app target) as [ij|] eqn:Ef.
    + destruct (find_chrc_Some _ _ _ Ef) as (c & Hc & Hp).
      right. exists ij, c, (fst (snd (invoke cl (c, w)))).
      split; [exact Hc|].
      rewrite bind_ret_state, (on_chrc_state _ _ _ _ c Hc).
      split; [reflexivity|]. split; [apply invoke_keeps_static|].
      destruct (name_of cl) eqn:En.
      * left. symmetry. apply invoke_keeps; congruence.
      * left. symmetry. apply invoke_keeps; congruence.
      * right. exists cl. subst target. auto.
      * right. exists cl. subst target. auto.
    + destruct (find_desc app target) as [d|].
      * left. rewrite bind_ret_state. apply on_const_state.
      * left. reflexivity.
  - destruct (find_chrc app target) as [ij|] eqn:Ef.
    + destruct (find_chrc_Some _ _ _ Ef) as (c & Hc & Hp).
      right. exists ij, c, c. split; [exact Hc|].
      rewrite bind_ret_state, (on_chrc_state _ _ _ _ c Hc).
      rewrite <- (notify_time_keeps c w).
      split; [reflexivity|]. split; [apply same_static_refl|].
      left. reflexivity.
    + left. reflexivity.
Qed.

(** ** The notifying flag *)

(** C4.  The Current Time characteristic is constructed with the flag off:
    every object that the constructor returns has it off, and the
    constructor returns one whenever the interval of the notify period, if
    one is given, is one that [GLib.timeout_add] accepts.
    [StartNotify] turns it on when it is off and [StopNotify] turns it off
    when it is on, with no other effect; [StartNotify] on a flag that is on
    and [StopNotify] on a flag that is off succeed, leave the object as it
    is and add one warning record to the log.  Every other call on the
    object, through the method table or directly, leaves the object
    unchanged, and a request served by the main loop changes the flag of a
    characteristic only if it is a StartNotify or StopNotify addressed to
    that characteristic's path. *)
Theorem C4_notifying_state_machine :
  (forall index service_path kwargs w,
     (forall self w',
        CurrentTimeCharacteristic.__init__ index service_path kwargs w
          = (Ok self, w') ->
        Characteristic.notifying self = Some false)
     /\ (armable (notify_period_of kwargs) ->
         exists self w',
           CurrentTimeCharacteristic.__init__ index service_path kwargs w
             = (Ok self, w')
           /\ Characteristic.notifying self = Some false))
  /\ (forall self w,
        Characteristic.notifying self = Some false ->
        CurrentTimeCharacteristic.StartNotify (self, w)
          = (Ok tt, (Characteristic.set_notifying true self, w)))
  /\ (forall self w,
        Characteristic.notifying self = Some true ->
        CurrentTimeCharacteristic.StartNotify (self, w)
          = (Ok tt,
             (self,
              add_log (LogRecord (Characteristic.logger self) WARNING
                         "Already notifying, nothing to do" []) w)))
  /\ (forall self w,
        Characteristic.notifying self = Some true ->
        CurrentTimeCharacteristic.StopNotify (self, w)
          = (Ok tt, (Characteristic.set_notifying false self, w)))
  /\ (forall self w,
        Characteristic.notifying self = Some false ->
        CurrentTimeCharacteristic.StopNotify (self, w)
          = (Ok tt,
             (self,
              add_log (LogRecord (Characteristic.logger self) WARNING
                         "Not notifying, nothing to do" []) w)))
  /\ (forall self w c,
        name_of c <> StartNotify_name -> name_of c <> StopNotify_name ->
        fst (snd (invoke c (self, w))) = self)
  /\ (forall self w interface,
        fst (snd (CurrentTimeCharacteristic.notify_time (self, w))) = self
        /\ fst (snd (CurrentTimeCharacteristic.notify_current_time (self, w)))
           = self
        /\ fst (snd (Characteristic.GetAll interface (self, w))) = self)
  /\ (forall r app w ij c,
        get_chrc app ij = Some c ->
        exists c',
          get_chrc (fst (snd (handle r (app, w)))) ij = Some c'
          /\ (Characteristic.notifying c' = Characteristic.notifying c
              \/ exists cl,
                   r = Method_req (Characteristic.path c) cl
                   /\ (name_of cl = StartNotify_name
                       \/ name_of cl = StopNotify_name))).
Proof.
  repeat apply conj.
  - intros index sp kwargs w.
    unfold CurrentTimeCharacteristic.__init__, notify_period_of, armable,
      GLib.timeout_add, bind, ret, raise, modify.
    destruct (kwargs !! "notify_period") as [[np|]|].
    + destruct ((0 <=? np * 1000) && (np * 1000 <=? GLib.G_MAXUINT)) eqn:E.
      * split; [intros self w' [= <- _]; reflexivity|].
        intros _. eexists; eexists; (split; reflexivity).
      * split; [discriminate|].
        intros H. exfalso.
        rewrite (proj2 (Z.leb_le _ _)), (proj2 (Z.leb_le _ _)) in E
          by apply H.
        discriminate E.
    + split; [intros self w' [= <- _]; reflexivity|].
      intros _. eexists; eexists; (split; reflexivity).
    + split; [intros self w' [= <- _]; reflexivity|].
      intros _. eexists; eexists; (split; reflexivity).
  - intros self w H. unfold CurrentTimeCharacteristic.StartNotify,
      CurrentTimeCharacteristic.get_notifying, bind, get_self.
    cbn [fst snd]. rewrite H. reflexivity.
  - intros self w H. unfold CurrentTimeCharacteristic.StartNotify,
      CurrentTimeCharacteristic.get_notifying, bind, get_self.
    cbn [fst snd]. rewrite H. reflexivity.
  - intros self w H. unfold CurrentTimeCharacteristic.StopNotify,
      CurrentTimeCharacteristic.get_notifying, bind, get_self.
    cbn [fst snd]. rewrite H. reflexivity.
  - intros self w H. unfold CurrentTimeCharacteristic.StopNotify,
      CurrentTimeCharacteristic.get_notifying, bind, get_self.
    cbn [fst snd]. rewrite H. reflexivity.
  - intros self w c H1 H2. symmetry. apply invoke_keeps; assumption.
  - intros self w interface. repeat split; symmetry.
    + apply notify_time_keeps.
    + apply notify_current_time_keeps.
    + apply Characteristic_GetAll_keeps.
  - intros r app w ij c Hc.
    destruct (handle_shape r app w)
      as [E|(ij0 & c0 & c0' & Hc0 & E & _ & Hchg)]; rewrite E.
    + exists c. split; [exact Hc|left; reflexivity].
    + rewrite (get_put_chrc _ _ _ c0) by exact Hc0.
      destruct (decide (ij0 = ij)) as [->|Hne].
      * assert (c0 = c) by congruence. subst c0.
        exists c0'. split; [reflexivity|].
        destruct Hchg as [->|(cl & Hr & _ & Hn)]; [left; reflexivity|].
        right. exists cl. split; assumption.
      * exists c. split; [exact Hc|left; reflexivity].
Qed.

Lemma C4_notifying_state_machine_witness :
  Characteristic.notifying current_time_chrc = Some false
  /\ Characteristic.notifying
       (fst (snd (CurrentTimeCharacteristic.StartNotify
                    (current_time_chrc, boot host_plain)))) = Some true
  /\ fst (snd (CurrentTimeCharacteristic.StopNotify
                 (current_time_chrc, boot host_plain))) = current_time_chrc.
Proof.
  pose proof C4_notifying_state_machine
    as (_ & Hstart & _ & _ & Hstop & _).
  split; [reflexivity|]. split.
  - rewrite (Hstart current_time_chrc (boot host_plain) eq_refl).
    reflexivity.
  - rewrite (Hstop current_time_chrc (boot host_plain) eq_refl).
    reflexivity.
Defined.

(** ** The managed-objects mapping *)

Lemma foldl_descriptors (m : gmap string ifaces) (ds : list Descriptor.t) :
  foldl (fun response desc =>
           <[Descriptor.get_path desc := Descriptor.get_properties desc]>
             response) m ds
  = foldl (fun r e => <[fst e := snd e]> r) m
      ((fun d => (Descriptor.path d, Descriptor.get_properties d)) <$> ds).
Proof.
  revert m. induction ds as [|d ds IH]; intros m; [reflexivity|].
  cbn [foldl fmap list_fmap]. apply IH.
Qed.

Lemma foldl_characteristics (m : gmap string ifaces)
    (cs : list Characteristic.t) :
  foldl (fun response chrc =>
           foldl (fun response desc =>
                    <[Descriptor.get_path desc :=
                        Descriptor.get_properties desc]> response)
             (<[Characteristic.get_path chrc :=
                  Characteristic.get_properties chrc]> response)
             (Characteristic.get_descriptors chrc)) m cs
  = foldl (fun r e => <[fst e := snd e]> r) m (cs ≫= chrc_entries).
Proof.
  revert m. induction cs as [|c cs IH]; intros m; [reflexivity|].
  cbn [foldl mbind list_bind]. rewrite IH, foldl_app. f_equal.
  unfold chrc_entries. cbn [foldl fst snd]. apply foldl_descriptors.
Qed.

Lemma GetManagedObjects_entries (app : Application.t) :
  Application.GetManagedObjects app
  = foldl (fun r e => <[fst e := snd e]> r) ∅ (node_entries app).
Proof.
  unfold Application.GetManagedObjects, node_entries.
  generalize (∅ : gmap string ifaces).
  induction (Application.services app) as [|s ss IH]; intros m;
    [reflexivity|].
  cbn [foldl mbind list_bind]. rewrite IH, foldl_app. f_equal.
  unfold service_entries. cbn [foldl fst snd]. apply foldl_characteristics.
Qed.

Lemma node_entries_paths (app : Application.t) :
  (node_entries app).*1 = node_paths app.
Proof.
  unfold node_entries, node_paths.
  induction (Application.services app) as [|s ss IH]; [reflexivity|].
  cbn [mbind list_bind]. rewrite fmap_app, IH. f_equal.
  unfold service_entries, service_paths. cbn [fmap list_fmap fst]. f_equal.
  induction (Service.characteristics s) as [|c cs IHc]; [reflexivity|].
  cbn [mbind list_bind]. rewrite fmap_app, IHc. f_equal.
  unfold chrc_entries, chrc_paths. cbn [fmap list_fmap fst]. f_equal.
  rewrite <- list_fmap_compose. reflexivity.
Qed.

Section Inserts.

Context {V : Type}.
Implicit Types (m : gmap string V) (l : list (string * V)).

Lemma dom_foldl_insert m l :
  dom (foldl (fun r e => <[fst e := snd e]> r) m l)
  = dom m ∪ list_to_set l.*1.
Proof.
  revert m. induction l as [|e l IH]; intros m; cbn [foldl].
  - cbn. set_solver.
  - rewrite IH, dom_insert_L. cbn [fmap list_fmap list_to_set]. set_solver.
Qed.

Lemma lookup_foldl_insert_notin m l k :
  k ∉ l.*1 ->
  foldl (fun r e => <[fst e := snd e]> r) m l !! k = m !! k.
Proof.
  revert m. induction l as [|e l IH]; intros m Hk; cbn [foldl];
    [reflexivity|].
  cbn [fmap list_fmap] in Hk. apply not_elem_of_cons in Hk as [Hne Hk].
  rewrite IH by exact Hk. apply lookup_insert_ne. congruence.
Qed.

Lemma lookup_foldl_insert m l k v :
  NoDup l.*1 -> (k, v) ∈ l ->
  foldl (fun r e => <[fst e := snd e]> r) m l !! k = Some v.
Proof.
  revert m. induction l as [|e l IH]; intros m Hnd Hin; cbn [foldl].
  - inversion Hin.
  - cbn [fmap list_fmap] in Hnd. apply NoDup_cons in Hnd as [Hfresh Hnd].
    apply elem_of_cons in Hin as [<-|Hin].
    + cbn [fst snd]. rewrite lookup_foldl_insert_notin by exact Hfresh.
      apply lookup_insert_eq.
    + apply IH; assumption.
Qed.

Lemma keys_permutation m (ks : list string) :
  NoDup ks -> dom m = list_to_set ks -> (map_to_list m).*1 ≡ₚ ks.
Proof.
  intros Hnd Hdom. apply NoDup_Permutation.
  - apply NoDup_fst_map_to_list.
  - exact Hnd.
  - intros k. split.
    + intros Hin. apply list_elem_of_fmap in Hin.
      destruct Hin as ((k' & v) & -> & Hin).
      apply elem_of_map_to_list in Hin. cbn [fst].
      assert (Hk : k' ∈ dom m) by (apply elem_of_dom; eauto).
      rewrite Hdom in Hk. apply elem_of_list_to_set in Hk. exact Hk.
    + intros Hin.
      assert (Hk : k ∈ dom m)
        by (rewrite Hdom; apply elem_of_list_to_set; exact Hin).
      apply elem_of_dom in Hk. destruct Hk as [v Hv].
      apply list_elem_of_fmap. exists (k, v).
      split; [reflexivity|]. apply elem_of_map_to_list. exact Hv.
Qed.

End Inserts.

Lemma Application_init_world (kwargs : gmap string (option Z)) (w : World) :
  Application.__init__ kwargs w
  = match notify_period_of kwargs with
    | Some p =>
        if (0 <=? p * 1000) && (p * 1000 <=? GLib.G_MAXUINT)
        then (Ok application,
              add_timeout (p * 1000, "/org/bluez/example/service0/char0") w)
        else (Raise OverflowError, w)
    | None => (Ok application, w)
    end.
Proof.
  unfold Application.__init__, CurrentTimeService.__init__,
    CurrentTimeCharacteristic.__init__, notify_period_of, GLib.timeout_add,
    bind.
  destruct (kwargs !! "notify_period") as [[np|]|]; try reflexivity.
  destruct ((0 <=? np * 1000) && (np * 1000 <=? GLib.G_MAXUINT));
    reflexivity.
Qed.

Lemma armable_reflect (p : Z) :
  (0 <=? p * 1000) && (p * 1000 <=? GLib.G_MAXUINT) = true
  <-> armable (Some p).
Proof.
  unfold armable. rewrite andb_true_iff, !Z.leb_le. tauto.
Qed.

Lemma Application_init_run (kwargs : gmap string (option Z)) (w : World) :
  (armable (notify_period_of kwargs) ->
   exists w', Application.__init__ kwargs w = (Ok application, w'))
  /\ (forall app w',
        Application.__init__ kwargs w = (Ok app, w') -> app = application).
Proof.
  rewrite Application_init_world.
  destruct (notify_period_of kwargs) as [p|].
  - destruct ((0 <=? p * 1000) && (p * 1000 <=? GLib.G_MAXUINT)) eqn:E.
    + split; [intros _; eexists; reflexivity|].
      intros app w' [= <- _]. reflexivity.
    + split; [|discriminate].
      intros H. apply armable_reflect in H. congruence.
  - split; [intros _; eexists; reflexivity|].
    intros app w' [= <- _]. reflexivity.
Qed.

Lemma application_all_paths :
  all_paths application
  = ["/"; "/org/bluez/example/service0";
     "/org/bluez/example/service0/char0";
     "/org/bluez/example/service0/char1"].
Proof. reflexivity. Qed.

Lemma application_paths_distinct : NoDup (all_paths application).
Proof.
  rewrite application_all_paths.
  apply (bool_decide_unpack _). vm_compute. exact I.
Qed.

Lemma GetManagedObjects_dom (app : Application.t) :
  dom (Application.GetManagedObjects app) = list_to_set (node_paths app).
Proof.
  rewrite GetManagedObjects_entries, dom_foldl_insert.
  rewrite node_entries_paths, dom_empty_L. set_solver.
Qed.

(** C5.  The key set of the mapping that [GetManagedObjects] returns is
    the set of the object paths of all services, characteristics and
    descriptors of the tree; a key occurs once in the mapping; when the
    node paths are pairwise distinct, as in the tree that the program
    constructs, the keys are the node paths up to order, each bound to the
    properties of its node.  The mapping is a function of the tree at the
    time of the call, and serving the request stores nothing.  The tree
    that [Application.__init__] returns is always the same one, and it
    returns whenever the notify period can be armed. *)
Theorem C5_get_managed_objects (app : Application.t) :
  dom (Application.GetManagedObjects app) = list_to_set (node_paths app)
  /\ NoDup (map_to_list (Application.GetManagedObjects app)).*1
  /\ (NoDup (node_paths app) ->
      (map_to_list (Application.GetManagedObjects app)).*1 ≡ₚ node_paths app
      /\ forall p v, (p, v) ∈ node_entries app ->
                     Application.GetManagedObjects app !! p = Some v)
  /\ (forall w,
        handle GetManagedObjects_req (app, w)
        = (Ok (Reply_objects (Application.GetManagedObjects app)), (app, w)))
  /\ ((forall kwargs w,
         (armable (notify_period_of kwargs) ->
          exists w', Application.__init__ kwargs w = (Ok application, w'))
         /\ (forall app' w',
               Application.__init__ kwargs w = (Ok app', w') ->
               app' = application))
      /\ (map_to_list (Application.GetManagedObjects application)).*1
         ≡ₚ ["/org/bluez/example/service0";
             "/org/bluez/example/service0/char0";
             "/org/bluez/example/service0/char1"]).
Proof.
  pose proof GetManagedObjects_dom as Hdom.
  split; [apply Hdom|]. split; [apply NoDup_fst_map_to_list|].
  split; [|split].
  - intros Hnd. split.
    + apply keys_permutation; [exact Hnd|apply Hdom].
    + intros p v Hin. rewrite GetManagedObjects_entries.
      apply lookup_foldl_insert; [|exact Hin].
      rewrite node_entries_paths. exact Hnd.
  - intros w. reflexivity.
  - split; [apply Application_init_run|].
    apply keys_permutation; [|apply Hdom].
    pose proof application_paths_distinct as Hnd.
    apply NoDup_cons in Hnd as [_ Hnd]. exact Hnd.
Qed.

Lemma C5_get_managed_objects_witness :
  NoDup (node_paths application)
  /\ (map_to_list (Application.GetManagedObjects application)).*1
     ≡ₚ node_paths application.
Proof.
  assert (Hnd : NoDup (node_paths application)).
  { pose proof application_paths_distinct as H.
    apply NoDup_cons in H as [_ H]. exact H. }
  split; [exact Hnd|].
  pose proof (C5_get_managed_objects application) as (_ & _ & H & _).
  exact (proj1 (H Hnd)).
Defined.

(** ** Distinct paths in every tree built by the constructors *)

Lemma string_app_assoc (a b c : string) : (a +:+ b) +:+ c = a +:+ (b +:+ c).
Proof.
  induction a as [|x a IH]; [reflexivity|].
  change (String x ((a +:+ b) +:+ c) = String x (a +:+ (b +:+ c))).
  rewrite IH. reflexivity.
Qed.

Lemma has_slash_app (a b : string) :
  has_slash (a +:+ b) = has_slash a || has_slash b.
Proof.
  induction a as [|x a IH]; [reflexivity|].
  change (has_slash (String x (a +:+ b))
          = has_slash (String x a) || has_slash b).
  cbn [has_slash]. rewrite IH, orb_assoc. reflexivity.
Qed.

Lemma has_slash_pretty_N_go (x : N) (s : string) :
  has_slash s = false -> has_slash (pretty_N_go x s) = false.
Proof.
  revert s. induction (N.lt_wf_0 x) as [x _ IH]; intros s Hs.
  destruct (decide (x = 0)%N) as [->|Hx].
  - rewrite pretty_N_go_0. exact Hs.
  - rewrite pretty_N_go_step by lia. apply IH.
    + apply N.div_lt; lia.
    + cbn [has_slash]. rewrite Hs, orb_false_r.
      unfold pretty_N_char. repeat case_match; reflexivity.
Qed.

Lemma has_slash_str (i : Z) : has_slash (str i) = false.
Proof.
  assert (HN : forall n : N, has_slash (pretty n) = false).
  { intros n. unfold pretty, pretty_N. case_decide; [reflexivity|].
    apply has_slash_pretty_N_go. reflexivity. }
  unfold str, pretty, pretty_Z. destruct i as [|p|p].
  - reflexivity.
  - apply HN.
  - rewrite has_slash_app.
    apply orb_false_intro; [reflexivity|apply (HN (N.pos p))].
Qed.

Lemma first_segment (d d' t t' : string) :
  has_slash d = false -> has_slash d' = false -> rest t -> rest t' ->
  d +:+ t = d' +:+ t' -> d = d' /\ t = t'.
Proof.
  revert d'. induction d as [|x d IH]; intros d' Hd Hd' Ht Ht' E.
  - destruct d' as [|x' d']; [split; [reflexivity|exact E]|].
    exfalso. change (t = String x' (d' +:+ t')) in E.
    destruct Ht as [->|[u ->]]; [discriminate E|].
    injection E as <- _. cbn in Hd'. discriminate Hd'.
  - destruct d' as [|x' d'].
    + exfalso. change (String x (d +:+ t) = t') in E.
      destruct Ht' as [->|[u ->]]; [discriminate E|].
      injection E as -> _. cbn in Hd. discriminate Hd.
    + change (String x (d +:+ t) = String x' (d' +:+ t')) in E.
      injection E as -> E. cbn [has_slash] in Hd, Hd'.
      apply orb_false_elim in Hd as [_ Hd].
      apply orb_false_elim in Hd' as [_ Hd'].
      destruct (IH d' Hd Hd' Ht Ht' E) as [-> ->]. split; reflexivity.
Qed.

Lemma rest_slash (u : string) : rest ("/" +:+ u).
Proof. right. exists u. reflexivity. Qed.

Lemma app_nonempty_neq (a b : string) : b <> "" -> a +:+ b <> a.
Proof.
  intros Hb E. induction a as [|x a IH].
  - apply Hb. exact E.
  - change (String x (a +:+ b) = String x a) in E. injection E as E.
    apply IH. exact E.
Qed.

(** Every path below a characteristic extends the characteristic's path by
    an empty or slash-led rest. *)
Lemma chrc_paths_shape (c : Characteristic.t) (y : string) :
  Forall (descriptor_built c) (Characteristic.descriptors c) ->
  y ∈ chrc_paths c ->
  exists t, rest t /\ y = Characteristic.path c +:+ t.
Proof.
  intros Hd Hy. unfold chrc_paths in Hy. apply elem_of_cons in Hy as [->|Hy].
  - exists "". split; [left; reflexivity|].
    induction (Characteristic.path c) as [|x a IH]; [reflexivity|].
    change (String x a = String x (a +:+ "")). rewrite <- IH. reflexivity.
  - apply list_elem_of_fmap in Hy as (d & -> & Hin).
    rewrite Forall_forall in Hd. destruct (Hd d Hin) as [k Hk].
    exists ("/desc" +:+ str k). split; [apply (rest_slash ("desc" +:+ str k))|].
    exact Hk.
Qed.

Lemma service_paths_shape (s : Service.t) (y : string) :
  Forall (characteristic_built s) (Service.characteristics s) ->
  y ∈ service_paths s ->
  exists t, rest t /\ y = Service.path s +:+ t.
Proof.
  intros Hc Hy. unfold service_paths in Hy.
  apply elem_of_cons in Hy as [->|Hy].
  - exists "". split; [left; reflexivity|].
    induction (Service.path s) as [|x a IH]; [reflexivity|].
    change (String x a = String x (a +:+ "")). rewrite <- IH. reflexivity.
  - apply list_elem_of_bind in Hy as (c & Hy & Hin).
    rewrite Forall_forall in Hc.
    destruct (Hc c Hin) as ([j Hj] & _ & Hds).
    destruct (chrc_paths_shape c y Hds Hy) as (t & Ht & ->).
    exists ("/char" +:+ str j +:+ t). split.
    + apply (rest_slash ("char" +:+ str j +:+ t)).
    + rewrite Hj, !string_app_assoc. reflexivity.
Qed.

Lemma fmap_path_inj {A} (f : A -> string) (l : list A) (x y : A) :
  NoDup (f <$> l) -> x ∈ l -> y ∈ l -> f x = f y -> x = y.
Proof.
  induction l as [|z l IH]; intros Hnd Hx Hy E; [inversion Hx|].
  cbn [fmap list_fmap] in Hnd. apply NoDup_cons in Hnd as [Hz Hnd].
  apply elem_of_cons in Hx as [->|Hx]; apply elem_of_cons in Hy as [->|Hy].
  - reflexivity.
  - exfalso. apply Hz. rewrite E. apply list_elem_of_fmap_2. exact Hy.
  - exfalso. apply Hz. rewrite <- E. apply list_elem_of_fmap_2. exact Hx.
  - apply IH; assumption.
Qed.

Lemma chrc_paths_NoDup (s : Service.t) (c : Characteristic.t) :
  characteristic_built s c -> NoDup (chrc_paths c).
Proof.
  intros (_ & Hnd & Hds). unfold chrc_paths. apply NoDup_cons. split; [|exact Hnd].
  intros Hin. apply list_elem_of_fmap in Hin as (d & E & Hd).
  rewrite Forall_forall in Hds. destruct (Hds d Hd) as [k Hk].
  rewrite Hk in E. symmetry in E. revert E. apply app_nonempty_neq.
  discriminate.
Qed.

Lemma service_paths_NoDup (s : Service.t) :
  service_built s -> NoDup (service_paths s).
Proof.
  intros ([i Hi] & Hnd & Hcs). unfold service_paths.
  rewrite Forall_forall in Hcs.
  apply NoDup_cons. split.
  - intros Hin. apply list_elem_of_bind in Hin as (c & Hy & Hc).
    destruct (Hcs c Hc) as ([j Hj] & _ & Hds).
    destruct (chrc_paths_shape c _ Hds Hy) as (t & Ht & E).
    rewrite Hj, !string_app_assoc in E. symmetry in E. revert E.
    apply app_nonempty_neq. discriminate.
  - apply NoDup_bind.
    + intros c1 c2 y H1 H2 Hy1 Hy2.
      apply (fmap_path_inj Characteristic.path (Service.characteristics s));
        try assumption.
      destruct (Hcs c1 H1) as ([j1 Hj1] & _ & Hds1).
      destruct (Hcs c2 H2) as ([j2 Hj2] & _ & Hds2).
      destruct (chrc_paths_shape c1 y Hds1 Hy1) as (t1 & Ht1 & E1).
      destruct (chrc_paths_shape c2 y Hds2 Hy2) as (t2 & Ht2 & E2).
      rewrite E1, Hj1, Hj2, !string_app_assoc in E2.
      apply (inj (String.app _)) in E2. apply (inj (String.app _)) in E2.
      apply first_segment in E2;
        [|apply has_slash_str|apply has_slash_str|assumption|assumption].
      destruct E2 as [E2 _]. rewrite Hj1, Hj2, E2. reflexivity.
    + intros c Hc. apply (chrc_paths_NoDup s). apply Hcs. exact Hc.
    + apply (NoDup_fmap_1 Characteristic.path). exact Hnd.
Qed.

Lemma node_paths_NoDup (app : Application.t) :
  built app -> NoDup (node_paths app).
Proof.
  intros (_ & Hnd & Hss). unfold node_paths.
  rewrite Forall_forall in Hss.
  apply NoDup_bind.
  - intros s1 s2 y H1 H2 Hy1 Hy2.
    apply (fmap_path_inj Service.path (Application.services app));
      try assumption.
    destruct (Hss s1 H1) as ([i1 Hi1] & _ & Hcs1).
    destruct (Hss s2 H2) as ([i2 Hi2] & _ & Hcs2).
    destruct (service_paths_shape s1 y Hcs1 Hy1) as (t1 & Ht1 & E1).
    destruct (service_paths_shape s2 y Hcs2 Hy2) as (t2 & Ht2 & E2).
    rewrite E1, Hi1, Hi2, !string_app_assoc in E2.
    apply (inj (String.app _)) in E2.
    apply first_segment in E2;
      [|apply has_slash_str|apply has_slash_str|assumption|assumption].
    destruct E2 as [E2 _]. rewrite Hi1, Hi2, E2. reflexivity.
  - intros s Hs. apply service_paths_NoDup. apply Hss. exact Hs.
  - apply (NoDup_fmap_1 Service.path). exact Hnd.
Qed.

Lemma all_paths_NoDup (app : Application.t) :
  built app -> NoDup (all_paths app).
Proof.
  intros Hb. unfold all_paths. apply NoDup_cons.
  split; [|apply node_paths_NoDup; exact Hb].
  destruct Hb as (Hroot & _ & Hss). rewrite Hroot.
  rewrite Forall_forall in Hss.
  intros Hin. unfold node_paths in Hin.
  apply list_elem_of_bind in Hin as (s & Hy & Hs).
  destruct (Hss s Hs) as ([i Hi] & _ & Hcs).
  destruct (service_paths_shape s _ Hcs Hy) as (t & _ & E).
  rewrite Hi in E. discriminate E.
Qed.

Lemma application_built : built application.
Proof.
  split; [reflexivity|]. split.
  { apply (bool_decide_unpack _). vm_compute. exact I. }
  apply Forall_cons. split; [|apply Forall_nil_2].
  split; [exists 0; reflexivity|]. split.
  { apply (bool_decide_unpack _). vm_compute. exact I. }
  apply Forall_cons. split.
  { split; [exists 0; reflexivity|]. split; [apply NoDup_nil_2|apply Forall_nil_2]. }
  apply Forall_cons. split; [|apply Forall_nil_2].
  split; [exists 1; reflexivity|]. split; [apply NoDup_nil_2|apply Forall_nil_2].
Qed.

Lemma sibling_paths_distinct (sp : string) (i j : Z) :
  i <> j ->
  sp +:+ "/char" +:+ str i <> sp +:+ "/char" +:+ str j
  /\ sp +:+ "/desc" +:+ str i <> sp +:+ "/desc" +:+ str j
  /\ Service.PATH_BASE +:+ str i <> Service.PATH_BASE +:+ str j.
Proof.
  intros Hne. repeat split; intros E;
    rewrite ?string_app_assoc in E;
    repeat apply (inj (String.app _)) in E;
    apply Hne; apply (inj pretty); exact E.
Qed.

(** ** Object paths *)

Lemma bind_insert_same {A B} (f : A -> list B) (l : list A) (j : nat)
    (x x' : A) :
  l !! j = Some x -> f x' = f x -> <[j := x']> l ≫= f = l ≫= f.
Proof.
  revert j. induction l as [|y l IH]; intros j Hj Hf; [reflexivity|].
  destruct j as [|j]; cbn [mbind list_bind].
  - cbn in Hj. injection Hj as ->. cbn. rewrite Hf. reflexivity.
  - cbn in Hj. cbn. f_equal. apply IH; assumption.
Qed.

Lemma chrc_paths_same_static (c c' : Characteristic.t) :
  same_static c c' -> chrc_paths c' = chrc_paths c.
Proof.
  intros (_ & Hp & _ & _ & _ & Hd & _). unfold chrc_paths.
  rewrite Hp, Hd. reflexivity.
Qed.

Lemma all_paths_put_chrc (app : Application.t) (ij : nat * nat)
    (c c' : Characteristic.t) :
  get_chrc app ij = Some c -> same_static c c' ->
  all_paths (put_chrc app ij c') = all_paths app.
Proof.
  unfold get_chrc, put_chrc, all_paths, node_paths. intros Hc Hs.
  destruct (Application.services app !! fst ij) as [s|] eqn:Es;
    [|discriminate].
  cbn [Application.path Application.services]. f_equal.
  apply (bind_insert_same _ _ _ s); [exact Es|].
  unfold service_paths. cbn [Service.path Service.characteristics]. f_equal.
  apply (bind_insert_same _ _ _ c); [exact Hc|].
  apply chrc_paths_same_static. exact Hs.
Qed.

Lemma handle_all_paths (r : request) (app : Application.t) (w : World) :
  all_paths (fst (snd (handle r (app, w)))) = all_paths app.
Proof.
  destruct (handle_shape r app w) as [E|(ij & c & c' & Hc & E & Hs & _)];
    rewrite E; [reflexivity|].
  apply (all_paths_put_chrc _ _ c); assumption.
Qed.

Lemma serve_all_paths (rs : list request) (st : Application.t * World) :
  all_paths (fst (snd (serve rs st))) = all_paths (fst st).
Proof.
  revert st. induction rs as [|r rs IH]; intros [app w]; [reflexivity|].
  cbn [serve]. pose proof (handle_all_paths r app w) as Hr.
  destruct (handle r (app, w)) as [x st'].
  specialize (IH st'). destruct (serve rs st') as [xs st''].
  cbn [fst snd] in *. congruence.
Qed.

(** C9.  In every tree whose paths have the form that the constructors
    give them and in which no two children of one parent share a path (the
    constructors give different paths to different indices), the object
    paths of the root, the services, the characteristics and the
    descriptors are pairwise distinct.  The tree that the program
    constructs (whenever the constructor returns, and it returns whenever
    the notify period can be armed) is such a tree: root "/", one service
    and two characteristics.  The path of a node is fixed by its constructor as a
    function of the index and, for a characteristic or a descriptor, of the
    path of the parent (for a service, of the class constant [PATH_BASE]).
    No request served by the main loop changes any path: after every
    sequence of requests the paths of the tree, and so the keys of the
    managed-objects mapping, are what they were. *)
Theorem C9_object_paths :
  (forall app, built app -> NoDup (all_paths app))
  /\ (forall kwargs w,
        (armable (notify_period_of kwargs) ->
         exists w', Application.__init__ kwargs w = (Ok application, w'))
        /\ (forall app w',
              Application.__init__ kwargs w = (Ok app, w') ->
              app = application))
  /\ built application
  /\ all_paths application
     = ["/"; "/org/bluez/example/service0";
        "/org/bluez/example/service0/char0";
        "/org/bluez/example/service0/char1"]
  /\ (forall index uuid primary,
        Service.get_path (Service.__init__ index uuid primary)
        = Service.PATH_BASE +:+ str index)
  /\ (forall cls index uuid flags service_path,
        Characteristic.get_path
          (Characteristic.__init__ cls index uuid flags service_path)
        = service_path +:+ "/char" +:+ str index)
  /\ (forall index uuid flags characteristic_path,
        Descriptor.get_path
          (Descriptor.__init__ index uuid flags characteristic_path)
        = characteristic_path +:+ "/desc" +:+ str index)
  /\ (forall parent_path i j,
        i <> j ->
        parent_path +:+ "/char" +:+ str i <> parent_path +:+ "/char" +:+ str j
        /\ parent_path +:+ "/desc" +:+ str i
           <> parent_path +:+ "/desc" +:+ str j
        /\ Service.PATH_BASE +:+ str i <> Service.PATH_BASE +:+ str j)
  /\ (forall rs app w,
        all_paths (fst (snd (serve rs (app, w)))) = all_paths app
        /\ dom (Application.GetManagedObjects (fst (snd (serve rs (app, w)))))
           = dom (Application.GetManagedObjects app)).
Proof.
  split; [apply all_paths_NoDup|].
  split; [apply Application_init_run|].
  split; [apply application_built|].
  split; [apply application_all_paths|].
  split; [reflexivity|]. split; [reflexivity|]. split; [reflexivity|].
  split; [apply sibling_paths_distinct|].
  intros rs app w.
  pose proof (serve_all_paths rs (app, w)) as H. cbn [fst] in H.
  split; [exact H|].
  rewrite !GetManagedObjects_dom.
  unfold all_paths in H. congruence.
Qed.

Lemma C9_object_paths_witness :
  built application
  /\ NoDup (all_paths application)
  /\ Service.PATH_BASE +:+ str 0 <> Service.PATH_BASE +:+ str 1.
Proof.
  pose proof C9_object_paths as (Hnd & _ & Hb & _ & _ & _ & _ & Hsib & _).
  split; [exact Hb|]. split; [exact (Hnd application Hb)|].
  destruct (Hsib "" 0 1) as (_ & _ & H); [discriminate|exact H].
Defined.

(** * Further properties of the encoders *)

(** The weekday that [isoweekday] finds by counting days is the one that
    Zeller's congruence gives for the date. *)
Lemma isoweekday_zeller (dt : datetime.t) :
  datetime.valid dt ->
  datetime.isoweekday dt
  = zeller_isoweekday (datetime.year dt) (datetime.month dt) (datetime.day dt).
Proof.
  intros (Hy & Hm & Hd & _).
  destruct dt as [y m d hh mi ss us]. cbn [datetime.year datetime.month datetime.day] in *.
  unfold datetime.isoweekday, datetime.toordinal, datetime._ymd2ord,
    datetime._days_before_year, zeller_isoweekday.
  cbn [datetime.year datetime.month datetime.day].
  assert (Hcases : m = 1 \/ m = 2 \/ m = 3 \/ m = 4 \/ m = 5 \/ m = 6 \/ m = 7
                   \/ m = 8 \/ m = 9 \/ m = 10 \/ m = 11 \/ m = 12) by lia.
  assert (Hleap : datetime._is_leap y = true ->
                  y mod 4 = 0 /\ (y mod 100 <> 0 \/ y mod 400 = 0)).
  { unfold datetime._is_leap. rewrite andb_true_iff, orb_true_iff,
      negb_true_iff, !Z.eqb_eq, Z.eqb_neq. tauto. }
  assert (Hnleap : datetime._is_leap y = false ->
                  y mod 4 <> 0 \/ (y mod 100 = 0 /\ y mod 400 <> 0)).
  { unfold datetime._is_leap. rewrite andb_false_iff, orb_false_iff,
      negb_false_iff, !Z.eqb_eq, !Z.eqb_neq. tauto. }
  clear Hd.
  destruct (datetime._is_leap y) eqn:El;
    [specialize (Hleap eq_refl); clear Hnleap
    |specialize (Hnleap eq_refl); clear Hleap];
  repeat (destruct Hcases as [->|Hcases]); try subst m;
    unfold datetime._days_before_month; rewrite ?El;
    cbn [Z.ltb Z.compare Pos.compare Pos.compare_cont andb Z.to_nat Z.sub Z.add Z.opp Z.pos_sub
         Pos.to_nat Pos.iter_op Nat.add firstn fold_right datetime._DAYS_IN_MONTH
         Z.mul Pos.mul Pos.add Pos.succ Pos.pred_double Z.double Z.succ_double Z.pred_double];
    cbv zeta;
    repeat match goal with
    | |- context [fold_right Z.add 0 ?l] =>
        let v := eval vm_compute in (fold_right Z.add 0 l) in
        change (fold_right Z.add 0 l) with v
    | |- context [13 * ?a / 5] =>
        let v := eval vm_compute in (13 * a / 5) in
        change (13 * a / 5) with v
    end;
    match goal with |- context [?o mod 7 =? 0] =>
      destruct (Z.eqb_spec (o mod 7) 0) end.
  all: try (Z.div_mod_to_equations; lia).
Qed.

(** X1.  For every value that the clock can hold, [current_time_bytes]
    returns ten bytes, each in 0..255, from which the fields read back:
    bytes 1-2 decode little-endian to the year, bytes 3-7 are month, day,
    hour, minute, second in their calendar ranges, byte 8 is the ISO
    weekday of that date (Monday 1 to Sunday 7, as Zeller's congruence
    gives it), byte 9 counts the whole 256ths of a second that the
    microseconds contain, and byte 10 is 1. *)
Theorem X1_current_time_payload_decodes (self : Characteristic.t) (w : World) :
  datetime.valid (clock (platform w)) ->
  exists b0 b1 b2 b3 b4 b5 b6 b7 b8 b9,
    fst (CurrentTimeCharacteristic.current_time_bytes (self, w))
      = Ok [b0; b1; b2; b3; b4; b5; b6; b7; b8; b9]
    /\ Forall (fun b => 0 <= b <= 255) [b0; b1; b2; b3; b4; b5; b6; b7; b8; b9]
    /\ uint16_le b0 b1 = datetime.year (clock (platform w))
    /\ b2 = datetime.month (clock (platform w)) /\ 1 <= b2 <= 12
    /\ b3 = datetime.day (clock (platform w)) /\ 1 <= b3 <= 31
    /\ b4 = datetime.hour (clock (platform w)) /\ 0 <= b4 <= 23
    /\ b5 = datetime.minute (clock (platform w)) /\ 0 <= b5 <= 59
    /\ b6 = datetime.second (clock (platform w)) /\ 0 <= b6 <= 59
    /\ b7 = zeller_isoweekday (datetime.year (clock (platform w)))
                (datetime.month (clock (platform w)))
                (datetime.day (clock (platform w)))
    /\ 1 <= b7 <= 7
    /\ b8 * 1000000 <= datetime.microsecond (clock (platform w)) * 256
       < (b8 + 1) * 1000000
    /\ b9 = 1.
Proof.
  intros Hv. rewrite current_time_bytes_run by exact Hv.
  pose proof (isoweekday_zeller _ Hv) as Hz.
  destruct Hv as (Hy & Hmo & Hd & Hh & Hmi & Hs & Hus).
  set (dt := clock (platform w)) in *.
  pose proof (days_in_month_le (datetime.year dt) (datetime.month dt)) as Hdm.
  pose proof (isoweekday_range dt) as Hwd.
  pose proof (fraction_range _ Hus) as Hfr.
  pose proof (Z.div_mod (datetime.year dt) 256 ltac:(lia)) as Hdiv.
  pose proof (Z.mod_pos_bound (datetime.year dt) 256 ltac:(lia)) as Hy0.
  assert (Hq : 0 <= datetime.year dt / 256 < 256).
  { split; [apply Z.div_pos; lia|apply Z.div_lt_upper_bound; lia]. }
  assert (Hy1 : datetime.year dt / 256 mod 256 = datetime.year dt / 256)
    by (apply Z.mod_small; exact Hq).
  do 10 eexists. split; [reflexivity|]. cbn [fst].
  split.
  { repeat (apply Forall_cons; split); try apply Forall_nil_2; lia. }
  split; [unfold uint16_le; rewrite Hy1; lia|].
  repeat split; try lia.
  - rewrite (Z.mul_comm _ 1000000). apply Z.mul_div_le. lia.
  - replace (datetime.microsecond dt * 256 / 1000000 + 1)
      with (Z.succ (datetime.microsecond dt * 256 / 1000000)) by lia.
    rewrite (Z.mul_comm _ 1000000). apply Z.mul_succ_div_gt. lia.
Qed.

Lemma X1_current_time_payload_decodes_witness :
  datetime.valid (clock (platform (boot host_plain)))
  /\ exists bs,
       fst (CurrentTimeCharacteristic.current_time_bytes
              (current_time_chrc, boot host_plain)) = Ok bs
       /\ length bs = 10%nat
       /\ bs !! 7%nat = Some 5.
Proof.
  split; [apply friday_afternoon_valid|].
  destruct (X1_current_time_payload_decodes current_time_chrc
              (boot host_plain) friday_afternoon_valid)
    as (b0 & b1 & b2 & b3 & b4 & b5 & b6 & b7 & b8 & b9 & E
        & _ & _ & _ & _ & _ & _ & _ & _ & _ & _ & _ & _ & Hwd & _).
  eexists. split; [exact E|]. split; [reflexivity|].
  cbn [lookup list_lookup]. rewrite Hwd. reflexivity.
Defined.


(** X2.  Whenever the Local Time Information payload can be encoded, it
    has two bytes in 0..255; the first, read as a signed 8-bit integer, is
    the base offset in whole quarter hours (negative west of Greenwich),
    and the second is the DST difference in whole quarter hours. *)
Theorem X2_local_time_payload_decodes (self : Characteristic.t) (w : World) :
  let tz := - zone_timezone (platform w) in
  let dst := - zone_altzone (platform w) - tz in
  -128 <= Z.quot tz 900 <= 127 ->
  0 <= Z.quot dst 900 <= 255 ->
  exists b1 b2,
    fst (LocalTimeInformationCharacteristic.local_time_information_bytes
           (self, w)) = Ok [b1; b2]
    /\ 0 <= b1 <= 255 /\ 0 <= b2 <= 255
    /\ sint8 b1 = Z.quot tz 900
    /\ b2 = Z.quot dst 900.
Proof.
  intros tz dst Htz Hdst.
  rewrite local_time_information_bytes_run by assumption.
  cbv zeta. fold tz. fold dst.
  pose proof (Z.mod_pos_bound (Z.quot tz 900) 256 ltac:(lia)) as Hb.
  do 2 eexists. split; [reflexivity|].
  split; [lia|]. split; [lia|]. split; [|reflexivity].
  unfold sint8.
  destruct (Z_lt_le_dec (Z.quot tz 900) 0) as [Hneg|Hpos].
  - assert (E : Z.quot tz 900 mod 256 = Z.quot tz 900 + 256).
    { symmetry. apply (Z.mod_unique _ _ (-1)); lia. }
    rewrite E. rewrite (proj2 (Z.ltb_ge _ _)) by lia. lia.
  - rewrite Z.mod_small by lia.
    rewrite (proj2 (Z.ltb_lt _ _)) by lia. reflexivity.
Qed.

Lemma X2_local_time_payload_decodes_witness :
  -128 <= Z.quot (- zone_timezone (platform (boot host_west))) 900 <= 127
  /\ exists b1 b2,
       fst (LocalTimeInformationCharacteristic.local_time_information_bytes
              (local_time_chrc, boot host_west)) = Ok [b1; b2]
       /\ sint8 b1 = -40 /\ b2 = 0.
Proof.
  split; [vm_compute; split; discriminate|].
  destruct (X2_local_time_payload_decodes local_time_chrc (boot host_west))
    as (b1 & b2 & E & _ & _ & H1 & H2).
  - vm_compute; split; discriminate.
  - vm_compute; split; discriminate.
  - exists b1, b2. split; [exact E|]. split; [exact H1|exact H2].
Defined.

Lemma Bytes_run (l : list Z) :
  exists r : result (list Z),
    forall (S : Type) (s : S), CurrentTimeCharacteristic.Bytes l s = (r, s).
Proof.
  induction l as [|b l [r IH]].
  - exists (Ok []). reflexivity.
  - destruct (Byte b) as [b'|e] eqn:Eb.
    + destruct r as [bs|e].
      * exists (Ok (b' :: bs)). intros S s.
        cbn [CurrentTimeCharacteristic.Bytes].
        unfold bind, lift_result, ret. rewrite Eb, IH. reflexivity.
      * exists (Raise e). intros S s.
        cbn [CurrentTimeCharacteristic.Bytes].
        unfold bind, lift_result, ret. rewrite Eb, IH. reflexivity.
    + exists (Raise e). intros S s.
      cbn [CurrentTimeCharacteristic.Bytes].
      unfold bind, lift_result. rewrite Eb. reflexivity.
Qed.




Lemma quot_900_within (T lo hi : Z) :
  900 * lo - 900 < T < 900 * hi + 900 -> lo <= 0 <= hi ->
  lo <= Z.quot T 900 <= hi.
Proof.
  intros H H0. pose proof (Z.quot_rem' T 900) as E.
  destruct (Z_le_gt_dec 0 T) as [Hs|Hs].
  - pose proof (Z.rem_bound_pos_pos T 900 ltac:(lia) Hs). lia.
  - pose proof (Z.rem_bound_pos_neg T 900 ltac:(lia) ltac:(lia)). lia.
Qed.

(** X4.  Reading Local Time Information succeeds on every real host.  The
    interpreter stores as [time.altzone] the smaller of the zone's two
    offsets west of UTC, so the DST difference that the method computes is
    never negative; when moreover both offsets are within 32 hours of UTC,
    as those of every zone are, both quantities fit their fields.  A read
    that names its device then never fails with [OverflowError] or
    [ValueError]: it returns two bytes, the base offset in quarter hours as
    a signed byte and the DST difference in quarter hours as an unsigned
    byte. *)
Theorem X4_local_time_read_succeeds
    (self : Characteristic.t) (w : World) (options : props)
    (device : py_value) :
  let tz := - zone_timezone (platform w) in
  let dst := - zone_altzone (platform w) - tz in
  options !! "device" = Some device ->
  tzset_ordered (platform w) ->
  -115200 < zone_altzone (platform w) ->
  zone_timezone (platform w) < 115200 ->
  exists b1 b2,
    fst (LocalTimeInformationCharacteristic.ReadValue options (self, w))
      = Ok [b1; b2]
    /\ 0 <= b1 <= 255
    /\ sint8 b1 = Z.quot tz 900
    /\ -128 <= Z.quot tz 900 <= 127
    /\ b2 = Z.quot dst 900
    /\ 0 <= b2 <= 255.
Proof.
  intros tz dst Hdev Hord Hlo Hhi. unfold tzset_ordered in Hord.
  assert (Htz : -128 <= Z.quot tz 900 <= 127).
  { apply quot_900_within; unfold tz; lia. }
  assert (Hdst : 0 <= Z.quot dst 900 <= 255).
  { apply quot_900_within; unfold dst, tz; lia. }
  pose proof (LocalTimeInformation_ReadValue_run self w options Htz Hdst)
    as E.
  cbv zeta in E. fold tz in E. fold dst in E. rewrite Hdev in E.
  pose proof (Z.mod_pos_bound (Z.quot tz 900) 256 ltac:(lia)) as Hb1.
  exists (Z.quot tz 900 mod 256), (Z.quot dst 900).
  rewrite E. cbn [fst].
  split; [reflexivity|]. split; [lia|]. split; [|repeat split; lia].
  unfold sint8.
  destruct (Z_le_gt_dec 0 (Z.quot tz 900)) as [Hs|Hs].
  - rewrite Z.mod_small by lia.
    rewrite (proj2 (Z.ltb_lt _ _)) by lia. reflexivity.
  - replace (Z.quot tz 900 mod 256) with (Z.quot tz 900 + 256)
      by (apply (Z.mod_unique _ _ (-1)); lia).
    rewrite (proj2 (Z.ltb_ge _ _)) by lia. lia.
Qed.

Lemma X4_local_time_read_succeeds_witness :
  tzset_ordered host_summer
  /\ exists b1 b2,
       fst (LocalTimeInformationCharacteristic.ReadValue peer_options
              (local_time_chrc, boot host_summer)) = Ok [b1; b2]
       /\ sint8 b1 = 8
       /\ b2 = 4.
Proof.
  assert (Hord : tzset_ordered (platform (boot host_summer)))
    by (vm_compute; discriminate).
  split; [exact Hord|].
  destruct (X4_local_time_read_succeeds local_time_chrc (boot host_summer)
              peer_options
              (VObjectPath "/org/bluez/hci0/dev_00_11_22_33_44_55")
              eq_refl Hord eq_refl eq_refl)
    as (b1 & b2 & E & _ & H1 & _ & H2 & _).
  exists b1, b2. split; [exact E|]. split; [exact H1|exact H2].
Defined.

(** * Notifications *)

Lemma notify_current_time_off (self : Characteristic.t) (w : World) :
  Characteristic.notifying self = Some false ->
  CurrentTimeCharacteristic.notify_current_time (self, w) = (Ok tt, (self, w)).
Proof.
  intros Hn.
  unfold CurrentTimeCharacteristic.notify_current_time,
    CurrentTimeCharacteristic.get_notifying, bind, get_self.
  cbn [fst snd]. rewrite Hn. reflexivity.
Qed.

Lemma notify_current_time_on (self : Characteristic.t) (w : World) :
  Characteristic.notifying self = Some true ->
  datetime.valid (clock (platform w)) ->
  CurrentTimeCharacteristic.notify_current_time (self, w)
  = (Ok tt,
     (self,
      add_signal
        (Signal (Characteristic.path self) GATT_CHRC_IFACE
           {[ "Value" := VByteArray (spec_current_time (clock (platform w))) ]}
           [])
        (add_log (LogRecord (Characteristic.logger self) DEBUG "CT: {}"
                    [VDatetime (clock (platform w))])
           (set_time (zone_timezone (platform w))
              (zone_altzone (platform w)) w)))).
Proof.
  intros Hn Hv.
  unfold CurrentTimeCharacteristic.notify_current_time,
    CurrentTimeCharacteristic.get_notifying, bind, get_self.
  cbn [fst snd]. rewrite Hn. unfold ret. cbn [negb].
  rewrite (current_time_bytes_run self _ Hv). reflexivity.
Qed.

(** X5.  What a notification carries.  While the flag is off,
    [notify_current_time] does nothing at all: no signal, no log record, no
    reload of the zone.  While it is on and the clock holds a valid date,
    it emits exactly one [PropertiesChanged] signal, from the path of the
    characteristic and for the characteristic interface, whose only changed
    property is ['Value'], bound to the ten bytes that [ReadValue] returns
    at that instant, and which invalidates nothing. *)
Theorem X5_notification_carries_read_payload
    (self : Characteristic.t) (w : World) (options : props)
    (device : py_value) :
  datetime.valid (clock (platform w)) ->
  options !! "device" = Some device ->
  (Characteristic.notifying self = Some false ->
   CurrentTimeCharacteristic.notify_current_time (self, w)
   = (Ok tt, (self, w)))
  /\ (Characteristic.notifying self = Some true ->
      exists value,
        fst (CurrentTimeCharacteristic.ReadValue options (self, w)) = Ok value
        /\ fst (CurrentTimeCharacteristic.notify_current_time (self, w))
           = Ok tt
        /\ signals (snd (snd (CurrentTimeCharacteristic.notify_current_time
                                (self, w))))
           = signals w
             ++ [Signal (Characteristic.path self) GATT_CHRC_IFACE
                   {[ "Value" := VByteArray value ]} []]).
Proof.
  intros Hv Hd. split.
  - apply notify_current_time_off.
  - intros Hn. exists (spec_current_time (clock (platform w))).
    rewrite (notify_current_time_on self w Hn Hv).
    split; [|split; reflexivity].
    unfold CurrentTimeCharacteristic.ReadValue, bind.
    rewrite (current_time_bytes_run self _ Hv).
    unfold get_self, lift_result, getitem. cbn [fst snd].
    rewrite Hd. reflexivity.
Qed.

Lemma X5_notification_carries_read_payload_witness :
  signals (snd (snd (CurrentTimeCharacteristic.notify_current_time
                       (Characteristic.set_notifying true current_time_chrc,
                        boot host_plain))))
  = [Signal "/org/bluez/example/service0/char0" GATT_CHRC_IFACE
       {[ "Value" := VByteArray [232; 7; 3; 15; 14; 30; 45; 5; 128; 1] ]} []].
Proof.
  destruct (proj2 (X5_notification_carries_read_payload
                     (Characteristic.set_notifying true current_time_chrc)
                     (boot host_plain) peer_options
                     (VObjectPath "/org/bluez/hci0/dev_00_11_22_33_44_55")
                     friday_afternoon_valid eq_refl) eq_refl)
    as (value & Hr & _ & Hs).
  rewrite Hs.
  unfold CurrentTimeCharacteristic.ReadValue, bind in Hr.
  rewrite (current_time_bytes_run _ (boot host_plain) friday_afternoon_valid)
    in Hr.
  injection Hr as <-. reflexivity.
Defined.

(** X6.  The timeout callback never asks for the timeout to be removed:
    whenever [notify_time] returns, it returns [True].  While the flag is
    off it returns [True] and changes nothing; while the flag is on and the
    clock holds a valid date it returns [True] after one info record, one
    debug record from the encoder, and one signal with the current
    payload. *)
Theorem X6_notify_time_keeps_timeout
    (self : Characteristic.t) (w : World) :
  (forall b,
     fst (CurrentTimeCharacteristic.notify_time (self, w)) = Ok b -> b = true)
  /\ (Characteristic.notifying self = Some false ->
      CurrentTimeCharacteristic.notify_time (self, w) = (Ok true, (self, w)))
  /\ (Characteristic.notifying self = Some true ->
      datetime.valid (clock (platform w)) ->
      let w' := snd (snd (CurrentTimeCharacteristic.notify_time (self, w))) in
      fst (CurrentTimeCharacteristic.notify_time (self, w)) = Ok true
      /\ log w'
         = log w
           ++ [LogRecord (Characteristic.logger self) INFO
                 "Notifying current local time" [];
               LogRecord (Characteristic.logger self) DEBUG "CT: {}"
                 [VDatetime (clock (platform w))]]
      /\ signals w'
         = signals w
           ++ [Signal (Characteristic.path self) GATT_CHRC_IFACE
                 {[ "Value" :=
                      VByteArray (spec_current_time (clock (platform w))) ]}
                 []]).
Proof.
  split; [|split].
  - intros b.
    unfold CurrentTimeCharacteristic.notify_time,
      CurrentTimeCharacteristic.get_notifying, bind, get_self, raise, ret.
    cbn [fst snd].
    destruct (Characteristic.notifying self) as [[|]|]; cbn [negb fst snd].
    + unfold in_world, logging, modify. cbn [fst snd].
      destruct (CurrentTimeCharacteristic.notify_current_time _)
        as [[[]|e] s]; cbn [fst]; congruence.
    + congruence.
    + discriminate.
  - intros Hn.
    unfold CurrentTimeCharacteristic.notify_time,
      CurrentTimeCharacteristic.get_notifying, bind, get_self.
    cbn [fst snd]. rewrite Hn. reflexivity.
  - intros Hn Hv.
    unfold CurrentTimeCharacteristic.notify_time,
      CurrentTimeCharacteristic.get_notifying, bind, get_self, ret.
    cbn [fst snd]. rewrite Hn. cbn [negb].
    unfold in_world, logging, modify. cbn [fst snd].
    rewrite notify_current_time_on by assumption.
    cbn. rewrite <- app_assoc. repeat split.
Qed.

Lemma X6_notify_time_keeps_timeout_witness :
  CurrentTimeCharacteristic.notify_time (current_time_chrc, boot host_plain)
  = (Ok true, (current_time_chrc, boot host_plain))
  /\ fst (CurrentTimeCharacteristic.notify_time
            (Characteristic.set_notifying true current_time_chrc,
             boot host_plain)) = Ok true.
Proof.
  split.
  - exact (proj1 (proj2 (X6_notify_time_keeps_timeout current_time_chrc
                           (boot host_plain))) eq_refl).
  - exact (proj1 (proj2 (proj2 (X6_notify_time_keeps_timeout
                                  (Characteristic.set_notifying true
                                     current_time_chrc)
                                  (boot host_plain)))
                    eq_refl friday_afternoon_valid)).
Defined.

(** * Start-up with a GATT manager *)

Lemma find_first {A} (f : A -> bool) (l : list A) :
  match List.find f l with
  | Some x => exists l1 l2, l = l1 ++ x :: l2 /\ f x = true
                            /\ Forall (fun y => f y = false) l1
  | None => Forall (fun y => f y = false) l
  end.
Proof.
  induction l as [|a l IH]; cbn [List.find]; [constructor|].
  destruct (f a) eqn:Ea.
  - exists [], l. repeat split; [exact Ea|constructor].
  - destruct (List.find f l) as [x|].
    + destruct IH as (l1 & l2 & -> & Hx & Hl1).
      exists (a :: l1), l2. repeat split; [exact Hx|].
      constructor; assumption.
    + constructor; assumption.
Qed.

Lemma has_manager_reflect (o : string * list string) :
  existsb (String.eqb GATT_MANAGER_IFACE) (snd o) = true
  <-> In GATT_MANAGER_IFACE (snd o).
Proof.
  rewrite existsb_exists. split.
  - intros (x & Hin & Hx). apply String.eqb_eq in Hx. subst x. exact Hin.
  - intros Hin. exists GATT_MANAGER_IFACE. split; [exact Hin|].
    apply String.eqb_refl.
Qed.

Lemma has_manager_false (o : string * list string) :
  existsb (String.eqb GATT_MANAGER_IFACE) (snd o) = false
  <-> ~ In GATT_MANAGER_IFACE (snd o).
Proof.
  rewrite <- has_manager_reflect.
  destruct (existsb _ _); split; congruence.
Qed.

Lemma find_adapter_run (w : World) :
  exists r,
    Server.find_adapter w = (Ok r, w)
    /\ match r with
       | Some o =>
           exists before ifs after,
             bus_objects (platform w) = before ++ (o, ifs) :: after
             /\ In GATT_MANAGER_IFACE ifs
             /\ Forall (fun o' => ~ In GATT_MANAGER_IFACE (snd o')) before
       | None =>
           Forall (fun o' => ~ In GATT_MANAGER_IFACE (snd o'))
             (bus_objects (platform w))
       end.
Proof.
  unfold Server.find_adapter, bind, get, ret.
  pose proof (find_first
                (fun o => existsb (String.eqb GATT_MANAGER_IFACE) (snd o))
                (bus_objects (platform w))) as H.
  destruct (List.find _ _) as [[o ifs]|]; eexists; (split; [reflexivity|]);
    cbn [fmap option_fmap option_map fst].
  - destruct H as (l1 & l2 & E & Hx & Hl1).
    exists l1, ifs, l2. split; [exact E|]. split.
    + apply (has_manager_reflect (o, ifs)). exact Hx.
    + eapply Forall_impl; [exact Hl1|].
      intros o'. apply has_manager_false.
  - eapply Forall_impl; [exact H|]. intros o'. apply has_manager_false.
Qed.

(** X7.  [find_adapter] returns the path of the first enumerated object
    that has the GATT manager interface: every object enumerated before it
    lacks the interface.  It returns [None] exactly when no enumerated
    object has the interface, and it changes nothing. *)
Theorem X7_find_adapter_first_match (w : World) :
  exists r,
    Server.find_adapter w = (Ok r, w)
    /\ match r with
       | Some o =>
           exists before ifs after,
             bus_objects (platform w) = before ++ (o, ifs) :: after
             /\ In GATT_MANAGER_IFACE ifs
             /\ Forall (fun o' => ~ In GATT_MANAGER_IFACE (snd o')) before
       | None =>
           Forall (fun o' => ~ In GATT_MANAGER_IFACE (snd o'))
             (bus_objects (platform w))
       end.
Proof. exact (find_adapter_run w). Qed.

(** X8.  Start-up on a host where BlueZ exports a GATT manager (object
    paths are never empty).  With no notify period, or with one whose
    interval in milliseconds [GLib.timeout_add] accepts (0 to 4294967295),
    the constructor exports the tree with one service and two
    characteristics, arms exactly one timeout when a period is given (of
    that many seconds, in milliseconds, calling back the Current Time
    characteristic) and none otherwise, logs one info record, sends exactly
    one [RegisterApplication] for the root path ["/"], and [run] then enters
    the main loop once; nothing is emitted and the loop is not asked to
    quit.  With any other period (a negative one, or one above 4294967
    seconds) start-up ends with an error that nothing catches, before
    anything is armed, logged or registered, and the main loop is never
    entered. *)
Theorem X8_start_up (notify_period : option Z) (w : World) :
  Exists (fun o => In GATT_MANAGER_IFACE (snd o)) (bus_objects (platform w)) ->
  Forall (fun o => fst o <> "") (bus_objects (platform w)) ->
  let w' := snd (main notify_period w) in
  (armable notify_period ->
   fst (main notify_period w) = Ok tt
   /\ fst (Server.__init__ notify_period w)
      = Ok ({| Server.mainloop := Some tt |}, Some application)
   /\ timeouts w'
      = timeouts w
        ++ match notify_period with
           | Some p => [(p * 1000, "/org/bluez/example/service0/char0")]
           | None => []
           end
   /\ registrations w' = registrations w ++ ["/"]
   /\ mainloop_runs w' = S (mainloop_runs w)
   /\ mainloop_quits w' = mainloop_quits w
   /\ signals w' = signals w
   /\ log w'
      = log w ++ [LogRecord "root" INFO "Registering GATT application..." []]
   /\ platform w' = platform w)
  /\ (~ armable notify_period ->
      (exists e, fst (main notify_period w) = Raise e
                 /\ declared_error e = false)
      /\ w' = w).
Proof.
  intros Hex Hne.
  destruct (find_adapter_run w) as (r & Ef & Hr).
  assert (Hnot : Server.not_ r = false).
  { destruct r as [o|].
    - destruct Hr as (l1 & ifs & l2 & E & _ & _).
      rewrite Forall_forall in Hne.
      specialize (Hne (o, ifs)). cbn [fst] in Hne.
      cbn [Server.not_]. apply String.eqb_neq. apply Hne.
      rewrite E. set_solver.
    - exfalso. apply Exists_exists in Hex. destruct Hex as (o & Hin & Ho).
      rewrite Forall_forall in Hr. exact (Hr o Hin Ho). }
  cbv zeta. unfold main, Server.__init__, bind. rewrite Ef, Hnot.
  rewrite Application_init_world. unfold notify_period_of.
  rewrite lookup_singleton_eq.
  destruct notify_period as [p|].
  - destruct ((0 <=? p * 1000) && (p * 1000 <=? GLib.G_MAXUINT)) eqn:E.
    + split; [|intros H; exfalso; apply H, armable_reflect, E].
      intros _. cbn. repeat split.
    + split.
      * intros H. apply armable_reflect in H. congruence.
      * intros _. cbn [fst snd]. split; [|reflexivity].
        exists OverflowError. split; reflexivity.
  - split; [|intros H; exfalso; apply H; exact I].
    intros _. cbn. rewrite ?app_nil_r. repeat split.
Qed.

Lemma X8_start_up_witness :
  (fst (main (Some 60) (boot host_plain)) = Ok tt
   /\ timeouts (snd (main (Some 60) (boot host_plain)))
      = [(60000, "/org/bluez/example/service0/char0")]
   /\ registrations (snd (main (Some 60) (boot host_plain))) = ["/"])
  /\ snd (main (Some (-1)) (boot host_plain)) = boot host_plain.
Proof.
  assert (Hex : Exists (fun o => In GATT_MANAGER_IFACE (snd o))
                  (bus_objects (platform (boot host_plain)))).
  { apply Exists_cons_tl, Exists_cons_hd. right. left. reflexivity. }
  assert (Hne : Forall (fun o => fst o <> "")
                  (bus_objects (platform (boot host_plain)))).
  { repeat constructor; discriminate. }
  split.
  - destruct (proj1 (X8_start_up (Some 60) (boot host_plain) Hex Hne))
      as (Hr & _ & Ht & Hg & _).
    { vm_compute. split; discriminate. }
    split; [exact Hr|]. split; [exact Ht|exact Hg].
  - apply (proj2 (X8_start_up (Some (-1)) (boot host_plain) Hex Hne)).
    vm_compute. intros [H _]. apply H. reflexivity.
Defined.

(** * What the requests leave alone *)

Lemma chrc_entries_same_static (c c' : Characteristic.t) :
  same_static c c' -> chrc_entries c' = chrc_entries c.
Proof.
  intros (_ & Hp & Hu & Hs & Hf & Hd & _).
  unfold chrc_entries, Characteristic.get_properties,
    Characteristic.get_descriptor_paths.
  rewrite Hp, Hu, Hs, Hf, Hd. reflexivity.
Qed.

Lemma node_entries_put_chrc (app : Application.t) (ij : nat * nat)
    (c c' : Characteristic.t) :
  get_chrc app ij = Some c -> same_static c c' ->
  node_entries (put_chrc app ij c') = node_entries app.
Proof.
  unfold get_chrc, put_chrc, node_entries. intros Hc Hs.
  destruct (Application.services app !! fst ij) as [s|] eqn:Es;
    [|discriminate].
  cbn [Application.services].
  apply (bind_insert_same _ _ _ s); [exact Es|].
  unfold service_entries, Service.get_properties,
    Service.get_characteristic_paths.
  cbn [Service.path Service.uuid Service.primary Service.characteristics].
  f_equal.
  - rewrite !foldl_snoc_fmap, list_fmap_insert.
    change (Characteristic.get_path c') with (Characteristic.path c').
    destruct Hs as (_ & -> & _).
    rewrite list_insert_id; [reflexivity|].
    rewrite list_lookup_fmap, Hc. reflexivity.
  - apply (bind_insert_same _ _ _ c); [exact Hc|].
    apply chrc_entries_same_static. exact Hs.
Qed.

Lemma handle_managed_objects (r : request) (app : Application.t) (w : World) :
  Application.GetManagedObjects (fst (snd (handle r (app, w))))
  = Application.GetManagedObjects app.
Proof.
  destruct (handle_shape r app w) as [E|(ij & c & c' & Hc & E & Hs & _)];
    rewrite E; [reflexivity|].
  rewrite !GetManagedObjects_entries.
  rewrite (node_entries_put_chrc _ _ c); [reflexivity|assumption..].
Qed.

Lemma bind_ret_Ok {S A B} (m : M S A) (f : A -> B) (s : S) (b : B) :
  fst (bind m (fun a => ret (f a)) s) = Ok b ->
  exists a, b = f a.
Proof.
  unfold bind, ret. destruct (m s) as [[a|e] s']; cbn [fst].
  - intros [= <-]. exists a. reflexivity.
  - discriminate.
Qed.

Lemma handle_reply_objects (r : request) (app : Application.t) (w : World)
    (m : gmap string ifaces) :
  fst (handle r (app, w)) = Ok (Reply_objects m) ->
  m = Application.GetManagedObjects app.
Proof.
  unfold handle. rewrite bind_get. cbn [fst].
  destruct r as [|target interface|target cl|target].
  - intros [= <-]. reflexivity.
  - destruct (find_service app target); [|destruct (find_chrc app target);
      [|destruct (find_desc app target)]];
      try (intros H; apply bind_ret_Ok in H; destruct H as [? [=]]).
    discriminate.
  - destruct (find_chrc app target); [|destruct (find_desc app target)];
      try (intros H; apply bind_ret_Ok in H; destruct H as [? [=]]).
    discriminate.
  - destruct (find_chrc app target);
      try (intros H; apply bind_ret_Ok in H; destruct H as [? [=]]).
    discriminate.
Qed.

(** X9.  No sequence of requests changes what [GetManagedObjects] reports:
    after any run of the main loop the mapping, keys and property values,
    is the one the tree had before, and every [GetManagedObjects] reply
    given during the run is that same mapping.  In particular a
    subscription is never visible in the exported properties. *)
Theorem X9_managed_objects_never_change (rs : list request)
    (app : Application.t) (w : World) :
  Application.GetManagedObjects (fst (snd (serve rs (app, w))))
  = Application.GetManagedObjects app
  /\ forall i m,
       fst (serve rs (app, w)) !! i = Some (Ok (Reply_objects m)) ->
       m = Application.GetManagedObjects app.
Proof.
  revert app w. induction rs as [|r rs IH]; intros app w.
  - split; [reflexivity|]. intros i m H. destruct i; discriminate H.
  - cbn [serve].
    pose proof (handle_managed_objects r app w) as Hs.
    pose proof (handle_reply_objects r app w) as Hr.
    destruct (handle r (app, w)) as [x [app' w']].
    specialize (IH app' w').
    destruct (serve rs (app', w')) as [xs st''].
    cbn [fst snd] in *. destruct IH as [IH1 IH2]. split.
    + congruence.
    + intros [|i] m H; cbn in H.
      * injection H as ->. apply Hr. reflexivity.
      * rewrite <- Hs. apply (IH2 i). exact H.
Qed.

Lemma X9_managed_objects_never_change_witness :
  Application.GetManagedObjects
    (put_chrc application (0%nat, 0%nat)
       (Characteristic.set_notifying true current_time_chrc))
  = Application.GetManagedObjects application.
Proof.
  apply (proj2 (X9_managed_objects_never_change
                  [Method_req "/org/bluez/example/service0/char0"
                     StartNotify_call;
                   GetManagedObjects_req]
                  application (boot host_plain)) 1%nat).
  reflexivity.
Defined.

(** ** What a request can do to the world

    Timeouts, registrations, the main loop and the host are out of reach of
    every request; records and signals are only ever added. *)

Lemma world_grows_refl (w : World) : world_grows w w.
Proof.
  unfold world_grows. repeat split; try (exists []; symmetry; apply app_nil_r).
Qed.

Lemma world_grows_trans (a b c : World) :
  world_grows a b -> world_grows b c -> world_grows a c.
Proof.
  intros (Hp & [l1 Hl] & [s1 Hs] & Ht & Hr & Hm & Hq)
         (Hp' & [l2 Hl'] & [s2 Hs'] & Ht' & Hr' & Hm' & Hq').
  unfold world_grows. repeat split; try congruence.
  - exists (l1 ++ l2). rewrite Hl', Hl, app_assoc. reflexivity.
  - exists (s1 ++ s2). rewrite Hs', Hs, app_assoc. reflexivity.
Qed.

Lemma world_grows_set_time (tz alt : Z) (w : World) :
  world_grows w (set_time tz alt w).
Proof.
  unfold world_grows. cbn.
  repeat split; exists []; symmetry; apply app_nil_r.
Qed.

Lemma world_grows_add_log (r : log_record) (w : World) :
  world_grows w (add_log r w).
Proof.
  unfold world_grows. cbn. repeat split.
  - exists [r]. reflexivity.
  - exists []. symmetry. apply app_nil_r.
Qed.

Lemma world_grows_add_signal (s : signal) (w : World) :
  world_grows w (add_signal s w).
Proof.
  unfold world_grows. cbn. repeat split.
  - exists []. symmetry. apply app_nil_r.
  - exists [s]. reflexivity.
Qed.

Section Grows.

Context {Self : Type}.

Lemma grows_ret {A} (a : A) : keeps_world world_grows (ret a : method Self A).
Proof. intros o w. apply world_grows_refl. Qed.

Lemma grows_raise {A} (e : exn) :
  keeps_world world_grows (raise e : method Self A).
Proof. intros o w. apply world_grows_refl. Qed.

Lemma grows_lift_result {A} (r : result A) :
  keeps_world world_grows (lift_result r : method Self A).
Proof. intros o w. apply world_grows_refl. Qed.

Lemma grows_get_self : keeps_world world_grows (@get_self Self).
Proof. intros o w. apply world_grows_refl. Qed.

Lemma grows_set_self (o' : Self) : keeps_world world_grows (set_self o').
Proof. intros o w. apply world_grows_refl. Qed.

Lemma grows_in_world {A} (m : M World A) :
  (forall w, world_grows w (snd (m w))) ->
  keeps_world world_grows (in_world m : method Self A).
Proof.
  intros H o w. unfold in_world. cbn [fst snd].
  specialize (H w). destruct (m w) as [r w']. exact H.
Qed.

Lemma grows_bind {A B} (m : method Self A) (k : A -> method Self B) :
  keeps_world world_grows m -> (forall a, keeps_world world_grows (k a)) ->
  keeps_world world_grows (bind m k).
Proof.
  intros Hm Hk o w. unfold bind.
  specialize (Hm o w). destruct (m (o, w)) as [[a|e] [o' w']];
    cbn [fst snd] in *.
  - apply world_grows_trans with w'; [exact Hm|apply Hk].
  - exact Hm.
Qed.

Lemma grows_Bytes (l : list Z) :
  keeps_world world_grows (CurrentTimeCharacteristic.Bytes l : method Self _).
Proof.
  intros o w. destruct (Bytes_run l) as [r Hr]. rewrite Hr.
  apply world_grows_refl.
Qed.

End Grows.

Lemma grows_tzset (w : World) : world_grows w (snd (time.tzset w)).
Proof. apply world_grows_set_time. Qed.

Lemma grows_logging (name : string) (lv : level) (text : string)
    (fields : list py_value) (w : World) :
  world_grows w (snd (logging name lv text fields w)).
Proof. apply world_grows_add_log. Qed.

Lemma grows_emit (s : signal) (w : World) :
  world_grows w (snd (modify (add_signal s) w)).
Proof. apply world_grows_add_signal. Qed.

Ltac grows :=
  repeat first
    [ assumption
    | apply grows_ret
    | apply grows_raise
    | apply grows_lift_result
    | apply grows_get_self
    | apply grows_set_self
    | apply grows_Bytes
    | apply grows_in_world; intros ?;
        first [ apply grows_tzset | apply grows_logging | apply grows_emit
              | apply world_grows_refl ]
    | match goal with
      | |- keeps_world _ (if ?b then _ else _) => destruct b
      | |- keeps_world _ (match ?x with _ => _ end) => destruct x
      end
    | apply grows_bind; [|intros ?] ].

Lemma grows_current_time_bytes :
  keeps_world world_grows CurrentTimeCharacteristic.current_time_bytes.
Proof.
  unfold CurrentTimeCharacteristic.current_time_bytes,
    CurrentTimeCharacteristic.append_Byte. grows.
Qed.

Lemma grows_local_time_information_bytes :
  keeps_world world_grows
    LocalTimeInformationCharacteristic.local_time_information_bytes.
Proof.
  unfold LocalTimeInformationCharacteristic.local_time_information_bytes.
  grows.
Qed.

Lemma grows_notify_current_time :
  keeps_world world_grows CurrentTimeCharacteristic.notify_current_time.
Proof.
  pose proof grows_current_time_bytes.
  unfold CurrentTimeCharacteristic.notify_current_time,
    CurrentTimeCharacteristic.get_notifying, Characteristic.PropertiesChanged.
  grows.
Qed.

Lemma grows_notify_time :
  keeps_world world_grows CurrentTimeCharacteristic.notify_time.
Proof.
  pose proof grows_notify_current_time.
  unfold CurrentTimeCharacteristic.notify_time,
    CurrentTimeCharacteristic.get_notifying.
  grows.
Qed.

Lemma grows_invoke (c : call) : keeps_world world_grows (invoke c).
Proof.
  pose proof grows_current_time_bytes.
  pose proof grows_local_time_information_bytes.
  unfold invoke. apply grows_bind; [apply grows_get_self|]. intros self.
  destruct (resolve _ _) as [d|]; [|apply grows_raise].
  destruct d, c; cbn [body];
    unfold Characteristic.ReadValue, Characteristic.WriteValue,
      Characteristic.StartNotify, Characteristic.StopNotify,
      CurrentTimeCharacteristic.ReadValue,
      CurrentTimeCharacteristic.StartNotify,
      CurrentTimeCharacteristic.StopNotify,
      CurrentTimeCharacteristic.get_notifying,
      LocalTimeInformationCharacteristic.ReadValue;
    grows.
Qed.

Lemma grows_invoke_descriptor (c : call) :
  keeps_world world_grows (invoke_descriptor c).
Proof.
  destruct c; cbn [invoke_descriptor];
    unfold Descriptor.ReadValue, Descriptor.WriteValue; grows.
Qed.

Lemma grows_GetAll (interface : string) :
  keeps_world world_grows (Service.GetAll interface)
  /\ keeps_world world_grows (Characteristic.GetAll interface)
  /\ keeps_world world_grows (Descriptor.GetAll interface).
Proof.
  unfold Service.GetAll, Characteristic.GetAll, Descriptor.GetAll.
  repeat split; grows.
Qed.

Lemma on_chrc_world {A} (ij : nat * nat) (m : method Characteristic.t A)
    (app : Application.t) (w : World) :
  keeps_world world_grows m ->
  world_grows w (snd (snd (on_chrc ij m (app, w)))).
Proof.
  intros H. unfold on_chrc. cbn [fst snd].
  destruct (get_chrc app ij) as [c|]; [|apply world_grows_refl].
  specialize (H c w). destruct (m (c, w)) as [r [c' w']]. exact H.
Qed.

Lemma on_const_world {O A} (o : O) (m : method O A) (app : Application.t)
    (w : World) :
  keeps_world world_grows m ->
  world_grows w (snd (snd (on_const o m (app, w)))).
Proof.
  intros H. unfold on_const. cbn [fst snd].
  specialize (H o w). destruct (m (o, w)) as [r [o' w']]. exact H.
Qed.

Lemma handle_world (r : request) (app : Application.t) (w : World) :
  world_grows w (snd (snd (handle r (app, w)))).
Proof.
  destruct (grows_GetAll
              match r with GetAll_req _ i => i | _ => "" end)
    as (Hs & Hc & Hd).
  unfold handle. rewrite bind_get. cbn [fst].
  destruct r as [|target interface|target cl|target].
  - apply world_grows_refl.
  - destruct (find_service app target) as [s|].
    { rewrite bind_ret_state. apply on_const_world, Hs. }
    destruct (find_chrc app target) as [ij|].
    { rewrite bind_ret_state. apply on_chrc_world, Hc. }
    destruct (find_desc app target) as [d|].
    { rewrite bind_ret_state. apply on_const_world, Hd. }
    apply world_grows_refl.
  - destruct (find_chrc app target) as [ij|].
    { rewrite bind_ret_state. apply on_chrc_world, grows_invoke. }
    destruct (find_desc app target) as [d|].
    { rewrite bind_ret_state. apply on_const_world, grows_invoke_descriptor. }
    apply world_grows_refl.
  - destruct (find_chrc app target) as [ij|].
    { rewrite bind_ret_state. apply on_chrc_world, grows_notify_time. }
    apply world_grows_refl.
Qed.

(** X10.  What serving requests can never do.  After any sequence of
    requests the armed timeouts, the registrations sent, the number of
    times the main loop was entered and asked to quit, and the host (clock
    and zone rules) are what they were; the log and the list of emitted
    signals have their earlier contents as a prefix: nothing is ever
    retracted or rewritten. *)
Theorem X10_requests_only_add_records_and_signals (rs : list request)
    (app : Application.t) (w : World) :
  let w' := snd (snd (serve rs (app, w))) in
  platform w' = platform w
  /\ timeouts w' = timeouts w
  /\ registrations w' = registrations w
  /\ mainloop_runs w' = mainloop_runs w
  /\ mainloop_quits w' = mainloop_quits w
  /\ (exists added, log w' = log w ++ added)
  /\ (exists emitted, signals w' = signals w ++ emitted).
Proof.
  cbv zeta.
  enough (H : world_grows w (snd (snd (serve rs (app, w))))).
  { destruct H as (Hp & Hl & Hs & Ht & Hr & Hm & Hq). repeat split;
      assumption. }
  revert app w. induction rs as [|r rs IH]; intros app w.
  - apply world_grows_refl.
  - cbn [serve]. pose proof (handle_world r app w) as Hr.
    destruct (handle r (app, w)) as [x [app' w']].
    specialize (IH app' w'). destruct (serve rs (app', w')) as [xs st''].
    cbn [fst snd] in *. eapply world_grows_trans; eassumption.
Qed.

(** * A subscription from start to end *)

Lemma index_where_insert_same {A} (f : A -> bool) (l : list A) (j : nat)
    (x x' : A) :
  l !! j = Some x -> f x' = f x ->
  index_where f (<[j := x']> l) = index_where f l.
Proof.
  revert j. induction l as [|y l IH]; intros j Hj Hf; [reflexivity|].
  destruct j as [|j]; cbn in Hj.
  - injection Hj as ->. change (<[0%nat := x']> (x :: l)) with (x' :: l).
    cbn [index_where]. rewrite Hf. reflexivity.
  - change (<[S j := x']> (y :: l)) with (y :: <[j := x']> l).
    cbn [index_where]. rewrite (IH j Hj Hf). reflexivity.
Qed.

Lemma find_chrc_in_insert (ss : list Service.t) (i : nat) (s s' : Service.t)
    (p : string) (k : nat) :
  ss !! i = Some s ->
  index_where (fun c => String.eqb (Characteristic.path c) p)
    (Service.characteristics s')
  = index_where (fun c => String.eqb (Characteristic.path c) p)
      (Service.characteristics s) ->
  find_chrc_in (<[i := s']> ss) p k = find_chrc_in ss p k.
Proof.
  revert i k. induction ss as [|y ss IH]; intros i k Hi Hs; [reflexivity|].
  destruct i as [|i]; cbn in Hi.
  - injection Hi as ->. change (<[0%nat := s']> (s :: ss)) with (s' :: ss).
    cbn [find_chrc_in]. rewrite Hs. reflexivity.
  - change (<[S i := s']> (y :: ss)) with (y :: <[i := s']> ss).
    cbn [find_chrc_in]. rewrite (IH i (S k) Hi Hs). reflexivity.
Qed.

Lemma find_chrc_put_chrc (app : Application.t) (ij : nat * nat)
    (c c' : Characteristic.t) (p : string) :
  get_chrc app ij = Some c ->
  Characteristic.path c' = Characteristic.path c ->
  find_chrc (put_chrc app ij c') p = find_chrc app p.
Proof.
  unfold get_chrc, put_chrc, find_chrc. intros Hc Hp.
  destruct (Application.services app !! fst ij) as [s|] eqn:Es;
    [|discriminate].
  cbn [Application.services].
  apply (find_chrc_in_insert _ _ s); [exact Es|].
  cbn [Service.characteristics].
  apply (index_where_insert_same _ _ _ c); [exact Hc|].
  rewrite Hp. reflexivity.
Qed.

Lemma put_chrc_put_chrc (app : Application.t) (ij : nat * nat)
    (c c1 c2 : Characteristic.t) :
  get_chrc app ij = Some c ->
  put_chrc (put_chrc app ij c1) ij c2 = put_chrc app ij c2.
Proof.
  unfold get_chrc, put_chrc. intros Hc.
  destruct (Application.services app !! fst ij) as [s|] eqn:Es;
    [|discriminate].
  cbn [Application.services Application.path].
  pose proof (lookup_lt_Some _ _ _ Es) as Hi.
  rewrite list_lookup_insert_eq by exact Hi.
  cbn [Service.path Service.uuid Service.primary Service.characteristics].
  rewrite !list_insert_insert_eq. reflexivity.
Qed.

Lemma put_chrc_id (app : Application.t) (ij : nat * nat)
    (c : Characteristic.t) :
  get_chrc app ij = Some c -> put_chrc app ij c = app.
Proof.
  unfold get_chrc, put_chrc. intros Hc.
  destruct (Application.services app !! fst ij) as [s|] eqn:Es;
    [|discriminate].
  rewrite (list_insert_id _ _ _ Hc).
  destruct app as [ap ss]. cbn [Application.services Application.path] in *.
  f_equal. apply list_insert_id. rewrite Es. destruct s. reflexivity.
Qed.

Lemma handle_timeout_at (app : Application.t) (ij : nat * nat)
    (c : Characteristic.t) (w : World) :
  find_chrc app (Characteristic.path c) = Some ij ->
  get_chrc app ij = Some c ->
  handle (Timeout_req (Characteristic.path c)) (app, w)
  = let '(r, (c', w')) := CurrentTimeCharacteristic.notify_time (c, w) in
    (match r with Ok b => Ok (Reply_keep b) | Raise e => Raise e end,
     (put_chrc app ij c', w')).
Proof.
  intros Hf Hg. unfold handle. rewrite bind_get. cbn [fst]. rewrite Hf.
  unfold bind, on_chrc, ret. cbn [fst snd]. rewrite Hg.
  destruct (CurrentTimeCharacteristic.notify_time (c, w))
    as [[b|e] [c' w']]; reflexivity.
Qed.

Lemma handle_method_at (app : Application.t) (ij : nat * nat)
    (c : Characteristic.t) (cl : call) (w : World) :
  find_chrc app (Characteristic.path c) = Some ij ->
  get_chrc app ij = Some c ->
  handle (Method_req (Characteristic.path c) cl) (app, w)
  = let '(r, (c', w')) := invoke cl (c, w) in
    (match r with Ok v => Ok (Reply_ret v) | Raise e => Raise e end,
     (put_chrc app ij c', w')).
Proof.
  intros Hf Hg. unfold handle. rewrite bind_get. cbn [fst]. rewrite Hf.
  unfold bind, on_chrc, ret. cbn [fst snd]. rewrite Hg.
  destruct (invoke cl (c, w)) as [[b|e] [c' w']]; reflexivity.
Qed.

Lemma notify_time_on (self : Characteristic.t) (w : World) :
  Characteristic.notifying self = Some true ->
  datetime.valid (clock (platform w)) ->
  exists w',
    CurrentTimeCharacteristic.notify_time (self, w) = (Ok true, (self, w'))
    /\ platform w' = platform w
    /\ signals w'
       = signals w
         ++ [Signal (Characteristic.path self) GATT_CHRC_IFACE
               {[ "Value" :=
                    VByteArray (spec_current_time (clock (platform w))) ]}
               []].
Proof.
  intros Hn Hv.
  unfold CurrentTimeCharacteristic.notify_time,
    CurrentTimeCharacteristic.get_notifying, bind, get_self, ret.
  cbn [fst snd]. rewrite Hn. cbn [negb].
  unfold in_world, logging, modify. cbn [fst snd].
  rewrite notify_current_time_on by assumption.
  eexists. split; [reflexivity|]. split; reflexivity.
Qed.

Section Subscription.

Variables (app : Application.t) (ij : nat * nat) (c : Characteristic.t).

Hypothesis Hfind : find_chrc app (Characteristic.path c) = Some ij.
Hypothesis Hget : get_chrc app ij = Some c.
Hypothesis Hcls : Characteristic.cls c = CurrentTimeCharacteristic_class.
Hypothesis Hoff : Characteristic.notifying c = Some false.

Let p := Characteristic.path c.
Let subscribed := put_chrc app ij (Characteristic.set_notifying true c).

Lemma subscribed_find : find_chrc subscribed p = Some ij.
Proof.
  unfold subscribed. rewrite (find_chrc_put_chrc _ _ c) by easy. exact Hfind.
Qed.

Lemma subscribed_get :
  get_chrc subscribed ij = Some (Characteristic.set_notifying true c).
Proof.
  unfold subscribed. rewrite (get_put_chrc _ _ _ c) by exact Hget.
  rewrite decide_True by reflexivity. reflexivity.
Qed.

Lemma handle_subscribe (w : World) :
  handle (Method_req p StartNotify_call) (app, w)
  = (Ok (Reply_ret Ret_none), (subscribed, w)).
Proof.
  unfold p. rewrite (handle_method_at _ _ _ _ _ Hfind Hget).
  unfold invoke, bind, get_self. cbn [fst snd]. rewrite Hcls.
  cbn [name_of resolve defines body].
  unfold CurrentTimeCharacteristic.StartNotify,
    CurrentTimeCharacteristic.get_notifying, bind, get_self.
  cbn [fst snd]. rewrite Hoff. reflexivity.
Qed.

Lemma handle_unsubscribe (w : World) :
  handle (Method_req p StopNotify_call) (subscribed, w)
  = (Ok (Reply_ret Ret_none), (app, w)).
Proof.
  change p with
    (Characteristic.path (Characteristic.set_notifying true c)).
  rewrite (handle_method_at subscribed ij
             (Characteristic.set_notifying true c) StopNotify_call w
             subscribed_find subscribed_get).
  unfold invoke, bind, get_self. cbn [fst snd Characteristic.cls
    Characteristic.set_notifying]. rewrite Hcls.
  cbn [name_of resolve defines body].
  unfold CurrentTimeCharacteristic.StopNotify,
    CurrentTimeCharacteristic.get_notifying, bind, get_self, set_self,
    modify, ret.
  cbn [fst snd Characteristic.notifying Characteristic.set_notifying negb].
  unfold subscribed. rewrite (put_chrc_put_chrc _ _ c) by exact Hget.
  replace (Characteristic.set_notifying false _) with c
    by (destruct c; cbn in Hoff; subst; reflexivity).
  rewrite put_chrc_id by exact Hget. reflexivity.
Qed.

Lemma handle_tick_unsubscribed (w : World) :
  handle (Timeout_req p) (app, w) = (Ok (Reply_keep true), (app, w)).
Proof.
  unfold p. rewrite (handle_timeout_at _ _ _ _ Hfind Hget).
  unfold CurrentTimeCharacteristic.notify_time,
    CurrentTimeCharacteristic.get_notifying, bind, get_self.
  cbn [fst snd]. rewrite Hoff. cbn [negb ret].
  rewrite put_chrc_id by exact Hget. reflexivity.
Qed.

Lemma handle_tick_subscribed (w : World) :
  datetime.valid (clock (platform w)) ->
  exists w',
    handle (Timeout_req p) (subscribed, w)
    = (Ok (Reply_keep true), (subscribed, w'))
    /\ platform w' = platform w
    /\ signals w'
       = signals w
         ++ [Signal p GATT_CHRC_IFACE
               {[ "Value" :=
                    VByteArray (spec_current_time (clock (platform w))) ]}
               []].
Proof.
  intros Hv.
  destruct (notify_time_on (Characteristic.set_notifying true c) w
              eq_refl Hv) as (w' & E & Hp & Hs).
  exists w'. split; [|split; assumption].
  change p with
    (Characteristic.path (Characteristic.set_notifying true c)).
  rewrite (handle_timeout_at subscribed ij
             (Characteristic.set_notifying true c) w
             subscribed_find subscribed_get), E.
  unfold subscribed. rewrite (put_chrc_put_chrc _ _ c) by exact Hget.
  reflexivity.
Qed.

Lemma serve_ticks_unsubscribed (m : nat) (w : World) :
  serve (replicate m (Timeout_req p)) (app, w)
  = (replicate m (Ok (Reply_keep true)), (app, w)).
Proof.
  induction m as [|m IH]; [reflexivity|].
  cbn [replicate serve]. rewrite handle_tick_unsubscribed, IH. reflexivity.
Qed.

Lemma serve_ticks_subscribed (n : nat) (rs : list request) (w : World) :
  datetime.valid (clock (platform w)) ->
  exists w' emitted,
    serve (replicate n (Timeout_req p) ++ rs) (subscribed, w)
    = (replicate n (Ok (Reply_keep true)) ++ fst (serve rs (subscribed, w')),
       snd (serve rs (subscribed, w')))
    /\ signals w' = signals w ++ emitted
    /\ length emitted = n
    /\ Forall (time_notification p) emitted.
Proof.
  revert w. induction n as [|n IH]; intros w Hv.
  - exists w, []. cbn [replicate List.app]. rewrite app_nil_r.
    split; [destruct (serve rs (subscribed, w)); reflexivity|].
    repeat split. constructor.
  - destruct (handle_tick_subscribed w Hv) as (w1 & E & Hp & Hs).
    destruct (IH w1) as (w' & emitted & E' & Hs' & Hlen & Hall).
    { rewrite Hp. exact Hv. }
    exists w',
      (Signal p GATT_CHRC_IFACE
         {[ "Value" := VByteArray (spec_current_time (clock (platform w))) ]}
         [] :: emitted).
    split; [|split; [|split]].
    + cbn [replicate List.app serve]. rewrite E, E'. reflexivity.
    + rewrite Hs', Hs, <- app_assoc. reflexivity.
    + cbn [length]. rewrite Hlen. reflexivity.
    + constructor; [|exact Hall].
      unfold time_notification. cbn. repeat split.
      eexists. split; reflexivity.
Qed.

End Subscription.

(** X11.  One notification per tick, and only while subscribed.  Take any
    tree and a Current Time characteristic in it that is reachable at its
    path and not subscribed, on a host whose clock holds a valid date.
    Serve StartNotify, then [n] expiries of the timeout, then StopNotify,
    then [m] further expiries.  Every request succeeds and every expiry
    keeps the timeout armed; exactly [n] signals are emitted, all from the
    path of the characteristic and each carrying a ten-byte ['Value']; the
    [m] expiries after StopNotify emit nothing; and the tree ends as it
    began. *)
Theorem X11_one_notification_per_tick (app : Application.t)
    (ij : nat * nat) (c : Characteristic.t) (w : World) (n m : nat) :
  find_chrc app (Characteristic.path c) = Some ij ->
  get_chrc app ij = Some c ->
  Characteristic.cls c = CurrentTimeCharacteristic_class ->
  Characteristic.notifying c = Some false ->
  datetime.valid (clock (platform w)) ->
  let p := Characteristic.path c in
  let out :=
    serve (Method_req p StartNotify_call
           :: replicate n (Timeout_req p)
           ++ Method_req p StopNotify_call
           :: replicate m (Timeout_req p)) (app, w) in
  fst out
  = Ok (Reply_ret Ret_none)
    :: replicate n (Ok (Reply_keep true))
    ++ Ok (Reply_ret Ret_none)
    :: replicate m (Ok (Reply_keep true))
  /\ fst (snd out) = app
  /\ exists emitted,
       signals (snd (snd out)) = signals w ++ emitted
       /\ length emitted = n
       /\ Forall (time_notification p) emitted.
Proof.
  intros Hfind Hget Hcls Hoff Hv. cbv zeta.
  cbn [serve]. rewrite (handle_subscribe app ij c Hfind Hget Hcls Hoff).
  destruct (serve_ticks_subscribed app ij c Hfind Hget n
              (Method_req (Characteristic.path c) StopNotify_call
               :: replicate m (Timeout_req (Characteristic.path c))) w Hv)
    as (w' & emitted & E & Hs & Hlen & Hall).
  rewrite E. cbn [serve].
  rewrite (handle_unsubscribe app ij c Hfind Hget Hcls Hoff).
  rewrite (serve_ticks_unsubscribed app ij c Hfind Hget Hoff).
  cbn [fst snd]. split; [reflexivity|]. split; [reflexivity|].
  exists emitted. repeat split; assumption.
Qed.

Lemma X11_one_notification_per_tick_witness :
  exists emitted,
    signals (snd (snd (serve
      [Method_req "/org/bluez/example/service0/char0" StartNotify_call;
       Timeout_req "/org/bluez/example/service0/char0";
       Timeout_req "/org/bluez/example/service0/char0";
       Method_req "/org/bluez/example/service0/char0" StopNotify_call;
       Timeout_req "/org/bluez/example/service0/char0"]
      (application, boot host_plain)))) = emitted
    /\ length emitted = 2%nat.
Proof.
  destruct (X11_one_notification_per_tick application (0%nat, 0%nat)
              current_time_chrc (boot host_plain) 2 1
              eq_refl eq_refl eq_refl eq_refl friday_afternoon_valid)
    as (_ & _ & emitted & Hs & Hlen & _).
  exists emitted. split; [exact Hs|exact Hlen].
Defined.

(** * The errors a remote caller can be sent *)

Section Raises.

Context {S : Type} (P : exn -> Prop).

Lemma raises_ret {A} (a : A) : raises_only P (ret a : M S A).
Proof. intros s e H. discriminate H. Qed.

Lemma raises_raise {A} (x : exn) : P x -> raises_only P (raise x : M S A).
Proof. intros H s e [= <-]. exact H. Qed.

Lemma raises_bind {A B} (m : M S A) (k : A -> M S B) :
  raises_only P m -> (forall a, raises_only P (k a)) ->
  raises_only P (bind m k).
Proof.
  intros Hm Hk s e. unfold bind.
  specialize (Hm s). destruct (m s) as [[a|e'] s'] eqn:E; cbn [fst] in *.
  - apply Hk.
  - intros [= <-]. apply Hm. reflexivity.
Qed.

Lemma raises_undeclared {A} (m : M S A) :
  (forall e, declared_error e = false -> P e) ->
  undeclared_only m -> raises_only P m.
Proof. intros HP Hm s e H. apply HP, (Hm s e H). Qed.

End Raises.

Lemma undeclared_raise {S A} (x : exn) :
  declared_error x = false -> undeclared_only (raise x : M S A).
Proof. intros H s e [= <-]. exact H. Qed.

Lemma declared_is_undeclared (x e : exn) :
  declared_error e = false -> declared_is x e.
Proof. unfold declared_is. congruence. Qed.

Lemma get_notifying_undeclared :
  undeclared_only CurrentTimeCharacteristic.get_notifying.
Proof.
  unfold CurrentTimeCharacteristic.get_notifying.
  apply undeclared_bind; [apply undeclared_get_self|]. intros self.
  destruct (Characteristic.notifying self);
    [apply undeclared_ret|apply undeclared_raise; reflexivity].
Qed.

Lemma undeclared_logging {Self} (name : string) (lv : level) (text : string)
    (fields : list py_value) :
  undeclared_only (in_world (logging name lv text fields) : method Self unit).
Proof. apply undeclared_in_world. intros s e H. discriminate H. Qed.

Lemma CurrentTime_ReadValue_undeclared (options : props) :
  undeclared_only (CurrentTimeCharacteristic.ReadValue options).
Proof.
  unfold CurrentTimeCharacteristic.ReadValue.
  apply undeclared_bind; [apply current_time_bytes_undeclared|]. intros v.
  apply undeclared_bind; [apply undeclared_get_self|]. intros self.
  apply undeclared_bind;
    [apply undeclared_lift; intros e; apply getitem_undeclared|].
  intros d.
  apply undeclared_bind; [apply undeclared_logging|]. intros _.
  apply undeclared_ret.
Qed.

Lemma LocalTimeInformation_ReadValue_undeclared (options : props) :
  undeclared_only (LocalTimeInformationCharacteristic.ReadValue options).
Proof.
  unfold LocalTimeInformationCharacteristic.ReadValue.
  apply undeclared_bind; [apply local_time_information_bytes_undeclared|].
  intros v.
  apply undeclared_bind; [apply undeclared_get_self|]. intros self.
  apply undeclared_bind;
    [apply undeclared_lift; intros e; apply getitem_undeclared|].
  intros d.
  apply undeclared_bind; [apply undeclared_logging|]. intros _.
  apply undeclared_ret.
Qed.

Lemma StartNotify_undeclared :
  undeclared_only CurrentTimeCharacteristic.StartNotify.
Proof.
  unfold CurrentTimeCharacteristic.StartNotify.
  apply undeclared_bind; [apply get_notifying_undeclared|]. intros b.
  destruct b; (apply undeclared_bind; [apply undeclared_get_self|]);
    intros self; [apply undeclared_logging|].
  intros s e H. discriminate H.
Qed.

Lemma StopNotify_undeclared :
  undeclared_only CurrentTimeCharacteristic.StopNotify.
Proof.
  unfold CurrentTimeCharacteristic.StopNotify.
  apply undeclared_bind; [apply get_notifying_undeclared|]. intros b.
  destruct b; cbn [negb];
    (apply undeclared_bind; [apply undeclared_get_self|]);
    intros self; [|apply undeclared_logging].
  intros s e H. discriminate H.
Qed.

Lemma notify_current_time_undeclared :
  undeclared_only CurrentTimeCharacteristic.notify_current_time.
Proof.
  unfold CurrentTimeCharacteristic.notify_current_time.
  apply undeclared_bind; [apply get_notifying_undeclared|]. intros b.
  destruct b; cbn [negb]; [|apply undeclared_ret].
  apply undeclared_bind; [apply current_time_bytes_undeclared|]. intros v.
  unfold Characteristic.PropertiesChanged.
  apply undeclared_bind; [apply undeclared_get_self|]. intros self.
  apply undeclared_in_world. intros s e H. discriminate H.
Qed.

Lemma notify_time_undeclared :
  undeclared_only CurrentTimeCharacteristic.notify_time.
Proof.
  unfold CurrentTimeCharacteristic.notify_time.
  apply undeclared_bind; [apply get_notifying_undeclared|]. intros b.
  destruct b; cbn [negb]; [|apply undeclared_ret].
  apply undeclared_bind; [apply undeclared_get_self|]. intros self.
  apply undeclared_bind; [apply undeclared_logging|]. intros _.
  apply undeclared_bind; [apply notify_current_time_undeclared|]. intros _.
  apply undeclared_ret.
Qed.

Ltac default_raises :=
  apply raises_bind;
  [ apply raises_bind;
    [ intros s e H; discriminate H
    | intros ?; apply raises_bind;
      [ apply raises_undeclared;
        [apply declared_is_undeclared|apply undeclared_logging]
      | intros _; apply raises_raise; intros _; reflexivity ] ]
  | intros ?; apply raises_ret ].

Lemma invoke_raises (c : call) :
  raises_only (declared_is NotSupportedException) (invoke c).
Proof.
  unfold invoke.
  apply raises_bind; [intros s e H; discriminate H|]. intros self.
  destruct (resolve _ _) as [d|];
    [|apply raises_raise; intros H; discriminate H].
  destruct d, c; cbn [body];
    try (apply raises_raise; intros H; discriminate H).
  - unfold Characteristic.ReadValue. default_raises.
  - unfold Characteristic.WriteValue. default_raises.
  - unfold Characteristic.StartNotify. default_raises.
  - unfold Characteristic.StopNotify. default_raises.
  - apply raises_undeclared; [apply declared_is_undeclared|].
    apply undeclared_bind; [apply CurrentTime_ReadValue_undeclared|].
    intros v. apply undeclared_ret.
  - apply raises_undeclared; [apply declared_is_undeclared|].
    apply undeclared_bind; [apply StartNotify_undeclared|].
    intros v. apply undeclared_ret.
  - apply raises_undeclared; [apply declared_is_undeclared|].
    apply undeclared_bind; [apply StopNotify_undeclared|].
    intros v. apply undeclared_ret.
  - apply raises_undeclared; [apply declared_is_undeclared|].
    apply undeclared_bind; [apply LocalTimeInformation_ReadValue_undeclared|].
    intros v. apply undeclared_ret.
Qed.

Lemma invoke_descriptor_raises (c : call) :
  raises_only (declared_is NotSupportedException) (invoke_descriptor c).
Proof.
  destruct c; cbn [invoke_descriptor];
    try (apply raises_raise; intros H; discriminate H).
  - unfold Descriptor.ReadValue. default_raises.
  - unfold Descriptor.WriteValue. default_raises.
Qed.

Ltac get_all_raises :=
  apply raises_bind; [intros s e H; discriminate H|]; intros ?;
  match goal with |- raises_only _ (if ?b then _ else _) => destruct b end;
  [ apply raises_raise; intros _; reflexivity
  | apply raises_undeclared; [apply declared_is_undeclared|];
    apply undeclared_lift; intros e; apply getitem_undeclared ].

Lemma GetAll_raises (interface : string) :
  raises_only (declared_is InvalidArgsException) (Service.GetAll interface)
  /\ raises_only (declared_is InvalidArgsException)
       (Characteristic.GetAll interface)
  /\ raises_only (declared_is InvalidArgsException)
       (Descriptor.GetAll interface).
Proof.
  unfold Service.GetAll, Characteristic.GetAll, Descriptor.GetAll.
  repeat split; get_all_raises.
Qed.

Lemma on_chrc_raises {A} (P : exn -> Prop) (ij : nat * nat)
    (m : method Characteristic.t A) :
  P UnknownObject -> raises_only P m -> raises_only P (on_chrc ij m).
Proof.
  intros HP Hm [app w] e. unfold on_chrc. cbn [fst snd].
  destruct (get_chrc app ij) as [c|]; [|intros [= <-]; exact HP].
  specialize (Hm (c, w) e). destruct (m (c, w)) as [r [c' w']]. exact Hm.
Qed.

Lemma on_const_raises {O A} (P : exn -> Prop) (o : O) (m : method O A) :
  raises_only P m -> raises_only P (on_const o m).
Proof.
  intros Hm [app w] e. unfold on_const. cbn [fst snd].
  specialize (Hm (o, w) e). destruct (m (o, w)) as [r [o' w']]. exact Hm.
Qed.

Lemma unknown_object_undeclared (x : exn) : declared_is x UnknownObject.
Proof. intros H. discriminate H. Qed.

(** X12.  Which of the five declared D-Bus errors a caller can be sent.
    A [GetAll] can fail with a declared error only as [InvalidArgs], a
    method call only as [NotSupported]; [GetManagedObjects] and the timeout
    callback never fail with a declared error.  So [NotPermitted],
    [InvalidValueLength] and [Failed], although declared, are never raised
    by any request. *)
Theorem X12_declared_errors_sent (r : request)
    (st : Application.t * World) (e : exn) :
  fst (handle r st) = Raise e ->
  declared_error e = true ->
  match r with
  | GetManagedObjects_req => False
  | GetAll_req _ _ => e = InvalidArgsException
  | Method_req _ _ => e = NotSupportedException
  | Timeout_req _ => False
  end.
Proof.
  unfold handle. rewrite bind_get.
  destruct r as [|target interface|target cl|target].
  - discriminate.
  - destruct (GetAll_raises interface) as (Hs & Hc & Hd).
    intros H. revert st e H.
    change (raises_only (declared_is InvalidArgsException)
      (fun st : Application.t * World =>
         match find_service (fst st) target, find_chrc (fst st) target,
               find_desc (fst st) target with
         | Some s, _, _ =>
             bind (on_const s (Service.GetAll interface))
               (fun p => ret (Reply_props p))
         | None, Some ij, _ =>
             bind (on_chrc ij (Characteristic.GetAll interface))
               (fun p => ret (Reply_props p))
         | None, None, Some d =>
             bind (on_const d (Descriptor.GetAll interface))
               (fun p => ret (Reply_props p))
         | None, None, None => raise UnknownObject
         end st)).
    intros st e.
    destruct (find_service (fst st) target) as [s|].
    { apply raises_bind; [apply on_const_raises, Hs|].
      intros a. apply raises_ret. }
    destruct (find_chrc (fst st) target) as [ij|].
    { apply raises_bind;
        [apply on_chrc_raises; [apply unknown_object_undeclared|exact Hc]|].
      intros a. apply raises_ret. }
    destruct (find_desc (fst st) target) as [d|].
    { apply raises_bind; [apply on_const_raises, Hd|].
      intros a. apply raises_ret. }
    apply raises_raise, unknown_object_undeclared.
  - destruct (find_chrc (fst st) target) as [ij|].
    { apply (raises_bind (declared_is NotSupportedException));
        [apply on_chrc_raises;
           [apply unknown_object_undeclared|apply invoke_raises]|].
      intros a. apply raises_ret. }
    destruct (find_desc (fst st) target) as [d|].
    { apply (raises_bind (declared_is NotSupportedException));
        [apply on_const_raises, invoke_descriptor_raises|].
      intros a. apply raises_ret. }
    intros [= <-]. discriminate.
  - intros H D.
    assert (U : declared_error e = false); [|congruence].
    revert H. destruct (find_chrc (fst st) target) as [ij|].
    + apply (raises_bind (fun e => declared_error e = false)).
      * apply on_chrc_raises; [reflexivity|].
        apply raises_undeclared; [auto|apply notify_time_undeclared].
      * intros a. apply raises_ret.
    + intros [= <-]. reflexivity.
Qed.

Lemma X12_declared_errors_sent_witness :
  fst (handle (GetAll_req "/org/bluez/example/service0" "org.bluez.Bogus1")
         (application, boot host_plain)) = Raise InvalidArgsException.
Proof.
  assert (H : exists e,
             fst (handle (GetAll_req "/org/bluez/example/service0"
                            "org.bluez.Bogus1")
                    (application, boot host_plain)) = Raise e
             /\ declared_error e = true).
  { exists InvalidArgsException. split; reflexivity. }
  destruct H as (e & He & Hd).
  rewrite He. f_equal.
  exact (X12_declared_errors_sent _ _ e He Hd).
Defined.

(** * The registration callbacks *)

(** X13.  The error handler of the registration can always stop the main
    loop.  Whenever the constructor has sent a [RegisterApplication] (the
    only place where the handlers are installed), the attribute [mainloop]
    is already assigned: a later call of [register_app_error_cb] logs one
    error record, asks the main loop to quit exactly once and raises
    nothing, and [register_app_cb] only logs one info record. *)
Theorem X13_error_handler_can_quit (notify_period : option Z) (w : World)
    (s : Server.t) (exported : option Application.t) (w1 : World) :
  Server.__init__ notify_period w = (Ok (s, exported), w1) ->
  registrations w1 <> registrations w ->
  exported = Some application
  /\ (forall error w2,
        Server.register_app_error_cb s error w2
        = (Ok tt,
           quit_mainloop
             (add_log (LogRecord "root" ERROR
                         ("Failed to register application: " +:+ error) [])
                w2)))
  /\ (forall w2,
        Server.register_app_cb w2
        = (Ok tt,
           add_log (LogRecord "root" INFO "GATT application registered" [])
             w2)).
Proof.
  intros E Hreg.
  destruct (find_adapter_run w) as (r & Ef & _).
  unfold Server.__init__, bind in E. rewrite Ef in E.
  destruct (Server.not_ r).
  - exfalso. apply Hreg. cbn in E. injection E as _ _ <-. reflexivity.
  - rewrite Application_init_world in E. unfold notify_period_of in E.
    rewrite lookup_singleton_eq in E.
    assert (Hs : s = {| Server.mainloop := Some tt |}
                 /\ exported = Some application).
    { destruct notify_period as [p|];
        [destruct ((0 <=? p * 1000) && (p * 1000 <=? GLib.G_MAXUINT))|];
        cbn in E; try discriminate E;
        injection E as <- <- _; split; reflexivity. }
    destruct Hs as [-> ->].
    split; [reflexivity|]. split; reflexivity.
Qed.

Lemma X13_error_handler_can_quit_witness :
  mainloop_quits
    (snd (Server.register_app_error_cb
            (fst (match fst (Server.__init__ None (boot host_plain)) with
                  | Ok r => r
                  | Raise _ => ({| Server.mainloop := None |}, None)
                  end))
            "org.bluez.Error.Failed"
            (snd (Server.__init__ None (boot host_plain)))))
  = 1%nat.
Proof.
  pose proof (X13_error_handler_can_quit None (boot host_plain)
                {| Server.mainloop := Some tt |} (Some application)
                (snd (Server.__init__ None (boot host_plain)))
                eq_refl ltac:(discriminate)) as (_ & H & _).
  change (fst (match fst (Server.__init__ None (boot host_plain)) with
               | Ok r => r
               | Raise _ => ({| Server.mainloop := None |}, None)
               end)) with {| Server.mainloop := Some tt |}.
  rewrite H. reflexivity.
Defined.

(** * Children are listed in the order of registration *)

(** X14.  The path lists that a service and a characteristic expose are
    the paths of their children in the order in which the children were
    added: the loop in [get_characteristic_paths] and in
    [get_descriptor_paths] keeps order and duplicates, adding a child
    appends its path at the end, and these lists are what the
    ['Characteristics'] and ['Descriptors'] properties hold. *)
Theorem X14_children_in_registration_order (s : Service.t)
    (c : Characteristic.t) (d : Descriptor.t) :
  Service.get_characteristic_paths s
  = Characteristic.path <$> Service.characteristics s
  /\ Service.get_characteristic_paths (Service.add_characteristic c s)
     = Service.get_characteristic_paths s ++ [Characteristic.path c]
  /\ Characteristic.get_descriptor_paths c
     = Descriptor.path <$> Characteristic.descriptors c
  /\ Characteristic.get_descriptor_paths (Characteristic.add_descriptor d c)
     = Characteristic.get_descriptor_paths c ++ [Descriptor.path d]
  /\ (Service.get_properties s !! GATT_SERVICE_IFACE)
       ≫= (fun m => m !! "Characteristics")
     = Some (VPathArray (Characteristic.path <$> Service.characteristics s))
  /\ (Characteristic.get_properties c !! GATT_CHRC_IFACE)
       ≫= (fun m => m !! "Descriptors")
     = Some (VPathArray (Descriptor.path <$> Characteristic.descriptors c)).
Proof.
  assert (Hs : forall s, Service.get_characteristic_paths s
                         = Characteristic.path <$> Service.characteristics s).
  { intros s0. unfold Service.get_characteristic_paths.
    rewrite foldl_snoc_fmap. reflexivity. }
  assert (Hc : forall c, Characteristic.get_descriptor_paths c
                         = Descriptor.path <$> Characteristic.descriptors c).
  { intros c0. unfold Characteristic.get_descriptor_paths.
    rewrite foldl_snoc_fmap. reflexivity. }
  split; [apply Hs|]. split.
  { rewrite !Hs. cbn [Service.add_characteristic Service.characteristics].
    rewrite fmap_app. reflexivity. }
  split; [apply Hc|]. split.
  { rewrite !Hc. cbn [Characteristic.add_descriptor
      Characteristic.descriptors].
    rewrite fmap_app. reflexivity. }
  split.
  - unfold Service.get_properties. rewrite lookup_singleton_eq.
    cbn [mbind option_bind]. rewrite Hs.
    rewrite lookup_insert_ne by discriminate.
    rewrite lookup_insert_ne by discriminate.
    rewrite lookup_insert_eq. reflexivity.
  - unfold Characteristic.get_properties. rewrite lookup_singleton_eq.
    cbn [mbind option_bind]. rewrite Hc.
    rewrite !lookup_insert_ne by discriminate.
    rewrite lookup_insert_eq. reflexivity.
Qed.
